(** * MOSe: a shallow embedding of the 6502 core and its checked properties

    The development follows the JavaScript source of the MOSe emulator core.
    [Module Mose] embeds release 010426.330 (class [mose]): memory, stack,
    status byte, addressing modes, the operation set, the opcode table,
    [step], [runCycles], [reset] and the NMI latch.  [Module MoseR235]
    embeds the earlier release r211225.235 (class [MOSE]) in the same way.

    JavaScript numbers are modelled as [Z].  The bitwise operators of
    JavaScript work on 32-bit integers; on the values the core handles
    (bytes, 16-bit addresses, small sums and differences of them) they agree
    with [Z.land], [Z.lor], [Z.lxor], [Z.lnot], [Z.shiftl] and [Z.shiftr],
    which is how they are written here.  Cycle counters are unbounded. *)

From Stdlib Require Import ZArith Lia List Bool.
From stdpp Require Import base list.
Import ListNotations.

#[local] Open Scope Z_scope.

(** ** JavaScript helpers *)

(** Truthiness of a number: [x ? a : b] takes [a] unless [x] is zero. *)
Definition truthy (x : Z) : bool := negb (x =? 0).

(** [c ? 1 : 0] *)
Definition b2z (c : bool) : Z := if c then 1 else 0.

(** [x >>> n]: the operand is read as an unsigned 32-bit integer. *)
Definition ushr (x n : Z) : Z := Z.shiftr (x mod 2 ^ 32) n.

(** ** Widths

    A flag holds 0 or 1, a register a byte. *)
Definition flag_ok (f : Z) : Prop := f = 0 \/ f = 1.
Definition byte_ok (r : Z) : Prop := 0 <= r <= 255.

(** The 256 byte values, for properties settled by running through them. *)
Definition bytes : list Z := map Z.of_nat (seq 0 256).

(** [((hi << 8) | lo) & 0xFFFF], the expression the source writes out for
    every little-endian 16-bit word it assembles. *)
Definition word (lo hi : Z) : Z := Z.land (Z.lor (Z.shiftl hi 8) lo) 0xFFFF.

(** * Release 010426.330 (class [mose]) *)
Module Mose.

(** ** Processor state

    The fields of a [mose] object.  Registers and flags carry an [r] or [f]
    prefix ([rA] is [this.A], [fC] is [this.C], ...) because [S], [Z], [N]
    and [I] are taken in Rocq.  [instructionMap] and [cycleTable] are filled
    once by the constructor and never written again: they are the constants
    [instructionMap] and [cycleTable] below. *)
Record cpu : Type := mkCpu {
  ram : list Z;                    (* Uint8Array *)
  rA : Z; rX : Z; rY : Z; rPC : Z; rS : Z;
  fC : Z; fZ : Z; fI : Z; fD : Z; fB : Z; fV : Z; fN : Z;
  opcode : Z; cycles : Z; totalCycles : Z;
  emulateIndirectJMPBug : bool;
  _breakFlag : bool;
  _nmiPending : bool;
  _nmiEdge : bool
}.

Definition set_ram (v : list Z) (s : cpu) : cpu :=
  mkCpu v (rA s) (rX s) (rY s) (rPC s) (rS s) (fC s) (fZ s) (fI s) (fD s)
        (fB s) (fV s) (fN s) (opcode s) (cycles s) (totalCycles s) (emulateIndirectJMPBug s) (_breakFlag s) (_nmiPending s) (_nmiEdge s).
Definition set_rA (v : Z) (s : cpu) : cpu :=
  mkCpu (ram s) v (rX s) (rY s) (rPC s) (rS s) (fC s) (fZ s) (fI s) (fD s)
        (fB s) (fV s) (fN s) (opcode s) (cycles s) (totalCycles s) (emulateIndirectJMPBug s) (_breakFlag s) (_nmiPending s) (_nmiEdge s).
Definition set_rX (v : Z) (s : cpu) : cpu :=
  mkCpu (ram s) (rA s) v (rY s) (rPC s) (rS s) (fC s) (fZ s) (fI s) (fD s)
        (fB s) (fV s) (fN s) (opcode s) (cycles s) (totalCycles s) (emulateIndirectJMPBug s) (_breakFlag s) (_nmiPending s) (_nmiEdge s).
Definition set_rY (v : Z) (s : cpu) : cpu :=
  mkCpu (ram s) (rA s) (rX s) v (rPC s) (rS s) (fC s) (fZ s) (fI s) (fD s)
        (fB s) (fV s) (fN s) (opcode s) (cycles s) (totalCycles s) (emulateIndirectJMPBug s) (_breakFlag s) (_nmiPending s) (_nmiEdge s).
Definition set_rPC (v : Z) (s : cpu) : cpu :=
  mkCpu (ram s) (rA s) (rX s) (rY s) v (rS s) (fC s) (fZ s) (fI s) (fD s)
        (fB s) (fV s) (fN s) (opcode s) (cycles s) (totalCycles s) (emulateIndirectJMPBug s) (_breakFlag s) (_nmiPending s) (_nmiEdge s).
Definition set_rS (v : Z) (s : cpu) : cpu :=
  mkCpu (ram s) (rA s) (rX s) (rY s) (rPC s) v (fC s) (fZ s) (fI s) (fD s)
        (fB s) (fV s) (fN s) (opcode s) (cycles s) (totalCycles s) (emulateIndirectJMPBug s) (_breakFlag s) (_nmiPending s) (_nmiEdge s).
Definition set_fC (v : Z) (s : cpu) : cpu :=
  mkCpu (ram s) (rA s) (rX s) (rY s) (rPC s) (rS s) v (fZ s) (fI s) (fD s)
        (fB s) (fV s) (fN s) (opcode s) (cycles s) (totalCycles s) (emulateIndirectJMPBug s) (_breakFlag s) (_nmiPending s) (_nmiEdge s).
Definition set_fZ (v : Z) (s : cpu) : cpu :=
  mkCpu (ram s) (rA s) (rX s) (rY s) (rPC s) (rS s) (fC s) v (fI s) (fD s)
        (fB s) (fV s) (fN s) (opcode s) (cycles s) (totalCycles s) (emulateIndirectJMPBug s) (_breakFlag s) (_nmiPending s) (_nmiEdge s).
Definition set_fI (v : Z) (s : cpu) : cpu :=
  mkCpu (ram s) (rA s) (rX s) (rY s) (rPC s) (rS s) (fC s) (fZ s) v (fD s)
        (fB s) (fV s) (fN s) (opcode s) (cycles s) (totalCycles s) (emulateIndirectJMPBug s) (_breakFlag s) (_nmiPending s) (_nmiEdge s).
Definition set_fD (v : Z) (s : cpu) : cpu :=
  mkCpu (ram s) (rA s) (rX s) (rY s) (rPC s) (rS s) (fC s) (fZ s) (fI s) v
        (fB s) (fV s) (fN s) (opcode s) (cycles s) (totalCycles s) (emulateIndirectJMPBug s) (_breakFlag s) (_nmiPending s) (_nmiEdge s).
Definition set_fB (v : Z) (s : cpu) : cpu :=
  mkCpu (ram s) (rA s) (rX s) (rY s) (rPC s) (rS s) (fC s) (fZ s) (fI s) (fD s)
        v (fV s) (fN s) (opcode s) (cycles s) (totalCycles s) (emulateIndirectJMPBug s) (_breakFlag s) (_nmiPending s) (_nmiEdge s).
Definition set_fV (v : Z) (s : cpu) : cpu :=
  mkCpu (ram s) (rA s) (rX s) (rY s) (rPC s) (rS s) (fC s) (fZ s) (fI s) (fD s)
        (fB s) v (fN s) (opcode s) (cycles s) (totalCycles s) (emulateIndirectJMPBug s) (_breakFlag s) (_nmiPending s) (_nmiEdge s).
Definition set_fN (v : Z) (s : cpu) : cpu :=
  mkCpu (ram s) (rA s) (rX s) (rY s) (rPC s) (rS s) (fC s) (fZ s) (fI s) (fD s)
        (fB s) (fV s) v (opcode s) (cycles s) (totalCycles s) (emulateIndirectJMPBug s) (_breakFlag s) (_nmiPending s) (_nmiEdge s).
Definition set_opcode (v : Z) (s : cpu) : cpu :=
  mkCpu (ram s) (rA s) (rX s) (rY s) (rPC s) (rS s) (fC s) (fZ s) (fI s) (fD s)
        (fB s) (fV s) (fN s) v (cycles s) (totalCycles s) (emulateIndirectJMPBug s) (_breakFlag s) (_nmiPending s) (_nmiEdge s).
Definition set_cycles (v : Z) (s : cpu) : cpu :=
  mkCpu (ram s) (rA s) (rX s) (rY s) (rPC s) (rS s) (fC s) (fZ s) (fI s) (fD s)
        (fB s) (fV s) (fN s) (opcode s) v (totalCycles s) (emulateIndirectJMPBug s) (_breakFlag s) (_nmiPending s) (_nmiEdge s).
Definition set_totalCycles (v : Z) (s : cpu) : cpu :=
  mkCpu (ram s) (rA s) (rX s) (rY s) (rPC s) (rS s) (fC s) (fZ s) (fI s) (fD s)
        (fB s) (fV s) (fN s) (opcode s) (cycles s) v (emulateIndirectJMPBug s) (_breakFlag s) (_nmiPending s) (_nmiEdge s).
Definition set_emulateIndirectJMPBug (v : bool) (s : cpu) : cpu :=
  mkCpu (ram s) (rA s) (rX s) (rY s) (rPC s) (rS s) (fC s) (fZ s) (fI s) (fD s)
        (fB s) (fV s) (fN s) (opcode s) (cycles s) (totalCycles s) v (_breakFlag s) (_nmiPending s) (_nmiEdge s).
Definition set_breakFlag (v : bool) (s : cpu) : cpu :=
  mkCpu (ram s) (rA s) (rX s) (rY s) (rPC s) (rS s) (fC s) (fZ s) (fI s) (fD s)
        (fB s) (fV s) (fN s) (opcode s) (cycles s) (totalCycles s) (emulateIndirectJMPBug s) v (_nmiPending s) (_nmiEdge s).
Definition set_nmiPending (v : bool) (s : cpu) : cpu :=
  mkCpu (ram s) (rA s) (rX s) (rY s) (rPC s) (rS s) (fC s) (fZ s) (fI s) (fD s)
        (fB s) (fV s) (fN s) (opcode s) (cycles s) (totalCycles s) (emulateIndirectJMPBug s) (_breakFlag s) v (_nmiEdge s).
Definition set_nmiEdge (v : bool) (s : cpu) : cpu :=
  mkCpu (ram s) (rA s) (rX s) (rY s) (rPC s) (rS s) (fC s) (fZ s) (fI s) (fD s)
        (fB s) (fV s) (fN s) (opcode s) (cycles s) (totalCycles s) (emulateIndirectJMPBug s) (_breakFlag s) (_nmiPending s) v.

(** ** Construction *)

(** [ramSizeMap[ramSizeKB] || 0x10000] *)
Definition ramSizeMap (ramSizeKB : Z) : Z :=
  match ramSizeKB with
  | 4 => 0x1000
  | 8 => 0x2000
  | 16 => 0x4000
  | 32 => 0x8000
  | 48 => 0xC000
  | 64 => 0x10000
  | _ => 0x10000
  end.

(** [new mose(ramSizeKB)] *)
Definition mose (ramSizeKB : Z) : cpu :=
  {| ram := replicate (Z.to_nat (ramSizeMap ramSizeKB)) 0;
     rA := 0; rX := 0; rY := 0; rPC := 0; rS := 0xFF;
     fC := 0; fZ := 0; fI := 0; fD := 0; fB := 0; fV := 0; fN := 0;
     opcode := 0; cycles := 0; totalCycles := 0;
     emulateIndirectJMPBug := true;
     _breakFlag := false; _nmiPending := false; _nmiEdge := false |}.

(** ** Memory access *)

Definition ramLength (s : cpu) : Z := Z.of_nat (length (ram s)).

Definition read (s : cpu) (addr : Z) : Z :=
  let addr := Z.land addr 0xFFFF in
  if addr <? ramLength s
  then Z.land (default 0 (ram s !! Z.to_nat addr)) 0xFF
  else 0xFF.

Definition write (addr val : Z) (s : cpu) : cpu :=
  let addr := Z.land addr 0xFFFF in
  let val := Z.land val 0xFF in
  if addr <? ramLength s
  then set_ram (<[Z.to_nat addr := val]> (ram s)) s
  else s.

(** ** Stack operations *)

Definition push (v : Z) (s : cpu) : cpu :=
  let s := write (0x100 + Z.land (rS s) 0xFF) (Z.land v 0xFF) s in
  set_rS (Z.land (rS s - 1) 0xFF) s.

Definition pop (s : cpu) : Z * cpu :=
  let s := set_rS (Z.land (rS s + 1) 0xFF) s in
  (read s (0x100 + Z.land (rS s) 0xFF), s).

(** ** Status register *)

Definition setZN (v : Z) (s : cpu) : cpu :=
  let v := Z.land v 0xFF in
  let s := set_fZ (b2z (v =? 0)) s in
  set_fN (b2z (truthy (Z.land v 0x80))) s.

Definition getStatus (s : cpu) : Z :=
  Z.lor (Z.lor (Z.lor (Z.lor (Z.lor (Z.lor (Z.lor
    (Z.shiftl (fN s) 7) (Z.shiftl (fV s) 6)) (Z.shiftl 1 5)) (Z.shiftl (fB s) 4))
    (Z.shiftl (fD s) 3)) (Z.shiftl (fI s) 2)) (Z.shiftl (fZ s) 1)) (fC s).

Definition setStatus (v : Z) (s : cpu) : cpu :=
  let s := set_fN (Z.land (Z.shiftr v 7) 1) s in
  let s := set_fV (Z.land (Z.shiftr v 6) 1) s in
  let s := set_fB (Z.land (Z.shiftr v 4) 1) s in
  let s := set_fD (Z.land (Z.shiftr v 3) 1) s in
  let s := set_fI (Z.land (Z.shiftr v 2) 1) s in
  let s := set_fZ (Z.land (Z.shiftr v 1) 1) s in
  set_fC (Z.land v 1) s.

(** ** BCD conversion helpers *)

Definition bcdToBinary (bcd : Z) : Z :=
  Z.shiftr bcd 4 * 10 + Z.land bcd 0x0F.

Definition binaryToBCD (bin : Z) : Z :=
  Z.land (Z.lor (Z.shiftl (bin / 10) 4) (bin mod 10)) 0xFF.

(** ** Page cross detection *)

Definition checkPageCross (a b : Z) : bool :=
  negb (Z.land a 0xFF00 =? Z.land b 0xFF00).

(** ** NMI control *)

Definition triggerNMI (s : cpu) : cpu := set_nmiEdge true s.

Definition handleNMI (s : cpu) : bool * cpu :=
  if _nmiEdge s then
    let s := set_nmiEdge false s in
    let s := set_nmiPending false s in
    let s := push (Z.land (Z.shiftr (rPC s) 8) 0xFF) s in
    let s := push (Z.land (rPC s) 0xFF) s in
    let s := push (Z.land (getStatus s) (Z.lnot 0x10)) s in
    let s := set_fI 1 s in
    let lo := read s 0xFFFA in
    let hi := read s 0xFFFB in
    let s := set_rPC (word lo hi) s in
    let s := set_cycles 7 s in
    let s := set_totalCycles (totalCycles s + 7) s in
    (true, s)
  else (false, s).


(** ** Addressing modes

    Every resolver returns [{ address, value, pageCrossed, isWrite }];
    [isWrite] is [false] in all of them and never read, so it is left out. *)
Record operand : Type := mkOperand {
  address : Z;
  value : Z;
  pageCrossed : bool
}.

Definition mode : Type := cpu -> operand * cpu.

(** [this.PC++] as an expression: the old value, with PC advanced and not masked. *)
Definition pcPostInc (s : cpu) : Z * cpu := (rPC s, set_rPC (rPC s + 1) s).

(** [this.read(this.PC++)] *)
Definition fetch (s : cpu) : Z * cpu :=
  let '(a, s) := pcPostInc s in (read s a, s).

Definition imm : mode := fun s =>
  let '(addr, s) := pcPostInc s in
  (mkOperand addr (read s addr) false, s).

Definition zp : mode := fun s =>
  let '(zpAddr, s) := fetch s in
  (mkOperand zpAddr (read s zpAddr) false, s).

Definition zpx : mode := fun s =>
  let '(b, s) := fetch s in
  let zpAddr := Z.land (b + rX s) 0xFF in
  (mkOperand zpAddr (read s zpAddr) false, s).

Definition zpy : mode := fun s =>
  let '(b, s) := fetch s in
  let zpAddr := Z.land (b + rY s) 0xFF in
  (mkOperand zpAddr (read s zpAddr) false, s).

Definition abs : mode := fun s =>
  let '(lo, s) := fetch s in
  let '(hi, s) := fetch s in
  let addr := word lo hi in
  (mkOperand addr (read s addr) false, s).

Definition absx : mode := fun s =>
  let '(lo, s) := fetch s in
  let '(hi, s) := fetch s in
  let base := word lo hi in
  let addr := Z.land (base + rX s) 0xFFFF in
  (mkOperand addr (read s addr) (checkPageCross base addr), s).

Definition absy : mode := fun s =>
  let '(lo, s) := fetch s in
  let '(hi, s) := fetch s in
  let base := word lo hi in
  let addr := Z.land (base + rY s) 0xFFFF in
  (mkOperand addr (read s addr) (checkPageCross base addr), s).

Definition ind : mode := fun s =>
  let '(lo, s) := fetch s in
  let '(hi, s) := fetch s in
  let ptr := word lo hi in
  let '(low, high) :=
    if emulateIndirectJMPBug s && (Z.land ptr 0xFF =? 0xFF)
    then (read s ptr, read s (Z.land ptr 0xFF00))
    else (read s ptr, read s (Z.land (ptr + 1) 0xFFFF)) in
  (mkOperand (word low high) 0 false, s).

Definition indx : mode := fun s =>
  let '(b, s) := fetch s in
  let z := Z.land (b + rX s) 0xFF in
  let lo := read s (Z.land z 0xFF) in
  let hi := read s (Z.land (z + 1) 0xFF) in
  let addr := word lo hi in
  (mkOperand addr (read s addr) false, s).

Definition indy : mode := fun s =>
  let '(b, s) := fetch s in
  let z := Z.land b 0xFF in
  let lo := read s z in
  let hi := read s (Z.land (z + 1) 0xFF) in
  let base := word lo hi in
  let addr := Z.land (base + rY s) 0xFFFF in
  (mkOperand addr (read s addr) (checkPageCross base addr), s).

Definition rel : mode := fun s =>
  let '(off, s) := fetch s in
  let target :=
    if truthy (Z.land off 0x80)
    then Z.land (rPC s + off - 0x100) 0xFFFF
    else Z.land (rPC s + off) 0xFFFF in
  (mkOperand target 0 false, s).

(** ** Load / store *)

Definition LDA (v : Z) (s : cpu) : cpu :=
  let s := set_rA (Z.land v 0xFF) s in setZN (rA s) s.
Definition STA (a : Z) (s : cpu) : cpu := write a (rA s) s.
Definition LDX (v : Z) (s : cpu) : cpu :=
  let s := set_rX (Z.land v 0xFF) s in setZN (rX s) s.
Definition STX (a : Z) (s : cpu) : cpu := write a (rX s) s.
Definition LDY (v : Z) (s : cpu) : cpu :=
  let s := set_rY (Z.land v 0xFF) s in setZN (rY s) s.
Definition STY (a : Z) (s : cpu) : cpu := write a (rY s) s.

(** ** Transfers *)

Definition TAX (s : cpu) : cpu :=
  let s := set_rX (Z.land (rA s) 0xFF) s in setZN (rX s) s.
Definition TXA (s : cpu) : cpu :=
  let s := set_rA (Z.land (rX s) 0xFF) s in setZN (rA s) s.
Definition TAY (s : cpu) : cpu :=
  let s := set_rY (Z.land (rA s) 0xFF) s in setZN (rY s) s.
Definition TYA (s : cpu) : cpu :=
  let s := set_rA (Z.land (rY s) 0xFF) s in setZN (rA s) s.
Definition TSX (s : cpu) : cpu :=
  let s := set_rX (Z.land (rS s) 0xFF) s in setZN (rX s) s.
Definition TXS (s : cpu) : cpu := set_rS (Z.land (rX s) 0xFF) s.

(** ** Stack instructions *)

Definition PHA (s : cpu) : cpu := push (rA s) s.
Definition PLA (s : cpu) : cpu :=
  let '(v, s) := pop s in
  let s := set_rA v s in setZN (rA s) s.
Definition PHP (s : cpu) : cpu := push (Z.lor (getStatus s) 0x10) s.
Definition PLP (s : cpu) : cpu :=
  let '(v, s) := pop s in setStatus v s.

(** ** Increment / decrement *)

Definition INX (s : cpu) : cpu :=
  let s := set_rX (Z.land (rX s + 1) 0xFF) s in setZN (rX s) s.
Definition DEX (s : cpu) : cpu :=
  let s := set_rX (Z.land (rX s - 1) 0xFF) s in setZN (rX s) s.
Definition INY (s : cpu) : cpu :=
  let s := set_rY (Z.land (rY s + 1) 0xFF) s in setZN (rY s) s.
Definition DEY (s : cpu) : cpu :=
  let s := set_rY (Z.land (rY s - 1) 0xFF) s in setZN (rY s) s.

Definition INC (a : Z) (s : cpu) : cpu :=
  let v := Z.land (read s a + 1) 0xFF in
  let s := write a v s in
  setZN v s.

Definition DEC (a : Z) (s : cpu) : cpu :=
  let v := Z.land (read s a - 1) 0xFF in
  let s := write a v s in
  setZN v s.

(** ** Flag instructions *)

Definition CLC (s : cpu) : cpu := set_fC 0 s.
Definition SEC (s : cpu) : cpu := set_fC 1 s.
Definition CLI (s : cpu) : cpu := set_fI 0 s.
Definition SEI (s : cpu) : cpu := set_fI 1 s.
Definition CLV (s : cpu) : cpu := set_fV 0 s.
Definition CLD (s : cpu) : cpu := set_fD 0 s.
Definition SED (s : cpu) : cpu := set_fD 1 s.

Definition NOP (s : cpu) : cpu := s.

(** ** Jumps, subroutines, interrupts *)

Definition JMP (a : Z) (s : cpu) : cpu := set_rPC (Z.land a 0xFFFF) s.

Definition JSR (a : Z) (s : cpu) : cpu :=
  let ret := Z.land (rPC s - 1) 0xFFFF in
  let s := push (Z.land (Z.shiftr ret 8) 0xFF) s in
  let s := push (Z.land ret 0xFF) s in
  set_rPC (Z.land a 0xFFFF) s.

Definition RTS (s : cpu) : cpu :=
  let '(lo, s) := pop s in
  let '(hi, s) := pop s in
  set_rPC (Z.land (Z.lor (Z.shiftl hi 8) lo + 1) 0xFFFF) s.

Definition BRK (s : cpu) : cpu :=
  let s := set_fB 1 s in
  let s := set_rPC (Z.land (rPC s + 1) 0xFFFF) s in
  let s := push (Z.land (Z.shiftr (rPC s) 8) 0xFF) s in
  let s := push (Z.land (rPC s) 0xFF) s in
  let s := push (Z.lor (getStatus s) 0x10) s in
  let s := set_fI 1 s in
  let lo := read s 0xFFFE in
  let hi := read s 0xFFFF in
  set_rPC (word lo hi) s.

Definition RTI (s : cpu) : cpu :=
  let '(p, s) := pop s in
  let s := setStatus p s in
  let '(lo, s) := pop s in
  let '(hi, s) := pop s in
  set_rPC (word lo hi) s.

(** ** Branches

    The eight branch methods share one body, taken when their flag test
    succeeds: one extra cycle, one more when the target is on another page. *)
Definition takeBranch (target : Z) (s : cpu) : cpu :=
  let crossed := checkPageCross (rPC s) target in
  let s := set_cycles (cycles s + 1) s in
  let s := if crossed then set_cycles (cycles s + 1) s else s in
  set_rPC target s.

Definition BCC (target : Z) (s : cpu) : cpu :=
  if fC s =? 0 then takeBranch target s else s.
Definition BCS (target : Z) (s : cpu) : cpu :=
  if fC s =? 1 then takeBranch target s else s.
Definition BEQ (target : Z) (s : cpu) : cpu :=
  if fZ s =? 1 then takeBranch target s else s.
Definition BNE (target : Z) (s : cpu) : cpu :=
  if fZ s =? 0 then takeBranch target s else s.
Definition BPL (target : Z) (s : cpu) : cpu :=
  if fN s =? 0 then takeBranch target s else s.
Definition BMI (target : Z) (s : cpu) : cpu :=
  if fN s =? 1 then takeBranch target s else s.
Definition BVC (target : Z) (s : cpu) : cpu :=
  if fV s =? 0 then takeBranch target s else s.
Definition BVS (target : Z) (s : cpu) : cpu :=
  if fV s =? 1 then takeBranch target s else s.

(** ** Arithmetic, with decimal mode *)

(** [((~(a ^ v) & (a ^ r)) & 0x80) ? 1 : 0] *)
Definition addOverflow (a v r : Z) : Z :=
  b2z (truthy (Z.land (Z.land (Z.lnot (Z.lxor a v)) (Z.lxor a r)) 0x80)).

Definition ADC (v : Z) (s : cpu) : cpu :=
  let v := Z.land v 0xFF in
  if fD s =? 0 then
    (* binary mode *)
    let sum := rA s + v + b2z (truthy (fC s)) in
    let s := set_fC (b2z (sum >? 0xFF)) s in
    let s := set_fV (addOverflow (rA s) v sum) s in
    let s := set_rA (Z.land sum 0xFF) s in
    setZN (rA s) s
  else
    (* decimal mode *)
    let al := Z.land (rA s) 0x0F + Z.land v 0x0F + b2z (truthy (fC s)) in
    let ah := Z.shiftr (rA s) 4 + Z.shiftr v 4 in
    let '(al, ah) := if al >? 9 then (al + 6, ah + 1) else (al, ah) in
    let binaryResult := rA s + v + b2z (truthy (fC s)) in
    let a := rA s in
    let s := setZN (Z.land binaryResult 0xFF) s in
    let s := set_fV (addOverflow a v binaryResult) s in
    let ah := if ah >? 9 then ah + 6 else ah in
    let s := set_fC (b2z (ah >? 15)) s in
    set_rA (Z.land (Z.lor (Z.shiftl ah 4) (Z.land al 0x0F)) 0xFF) s.

Definition SBC (v : Z) (s : cpu) : cpu :=
  let v := Z.land v 0xFF in
  if fD s =? 0 then
    let inv := Z.land (Z.lxor v 0xFF) 0xFF in
    ADC inv s
  else
    let al := Z.land (rA s) 0x0F - Z.land v 0x0F - (if truthy (fC s) then 0 else 1) in
    let ah := Z.shiftr (rA s) 4 - Z.shiftr v 4 in
    let '(al, ah) := if al <? 0 then (al - 6, ah - 1) else (al, ah) in
    let binaryResult := rA s - v - (if truthy (fC s) then 0 else 1) in
    let a := rA s in
    let s := setZN (Z.land binaryResult 0xFF) s in
    let s := set_fV (b2z (truthy (Z.land (Z.land (Z.lxor a v) (Z.lxor a binaryResult)) 0x80))) s in
    let ah := if ah <? 0 then ah - 6 else ah in
    let s := set_fC (b2z (ah >=? 0)) s in
    set_rA (Z.land (Z.lor (Z.shiftl ah 4) (Z.land al 0x0F)) 0xFF) s.

(** ** Logic *)

Definition AND (v : Z) (s : cpu) : cpu :=
  let s := set_rA (Z.land (rA s) (Z.land v 0xFF)) s in setZN (rA s) s.
Definition ORA (v : Z) (s : cpu) : cpu :=
  let s := set_rA (Z.lor (rA s) (Z.land v 0xFF)) s in setZN (rA s) s.
Definition EOR (v : Z) (s : cpu) : cpu :=
  let s := set_rA (Z.lxor (rA s) (Z.land v 0xFF)) s in setZN (rA s) s.

(** ** Compare *)

(** The shared body of CMP, CPX and CPY, on the register value [r0]. *)
Definition compare (r0 v : Z) (s : cpu) : cpu :=
  let r := Z.land (r0 - Z.land v 0xFF) 0x1FF in
  let s := set_fC (b2z (r <? 0x100)) s in
  setZN (Z.land r 0xFF) s.

Definition CMP (v : Z) (s : cpu) : cpu := compare (rA s) v s.
Definition CPX (v : Z) (s : cpu) : cpu := compare (rX s) v s.
Definition CPY (v : Z) (s : cpu) : cpu := compare (rY s) v s.

Definition BIT (v : Z) (s : cpu) : cpu :=
  let v := Z.land v 0xFF in
  let s := set_fZ (if truthy (Z.land (rA s) v) then 0 else 1) s in
  let s := set_fN (b2z (truthy (Z.land v 0x80))) s in
  set_fV (b2z (truthy (Z.land v 0x40))) s.

(** ** Shifts and rotates *)

Definition ASL_A (s : cpu) : cpu :=
  let s := set_fC (Z.land (Z.shiftr (rA s) 7) 1) s in
  let s := set_rA (Z.land (Z.shiftl (rA s) 1) 0xFF) s in
  setZN (rA s) s.

Definition ASL (a : Z) (s : cpu) : cpu :=
  let v := read s a in
  let s := set_fC (Z.land (Z.shiftr v 7) 1) s in
  let v := Z.land (Z.shiftl v 1) 0xFF in
  let s := write a v s in
  setZN v s.

Definition LSR_A (s : cpu) : cpu :=
  let s := set_fC (Z.land (rA s) 1) s in
  let s := set_rA (Z.land (ushr (rA s) 1) 0xFF) s in
  setZN (rA s) s.

Definition LSR (a : Z) (s : cpu) : cpu :=
  let v := read s a in
  let s := set_fC (Z.land v 1) s in
  let v := Z.land (ushr v 1) 0xFF in
  let s := write a v s in
  setZN v s.

Definition ROL_A (s : cpu) : cpu :=
  let oldC := fC s in
  let s := set_fC (Z.land (Z.shiftr (rA s) 7) 1) s in
  let s := set_rA (Z.land (Z.lor (Z.shiftl (rA s) 1) oldC) 0xFF) s in
  setZN (rA s) s.

Definition ROL (a : Z) (s : cpu) : cpu :=
  let v := read s a in
  let oldC := fC s in
  let s := set_fC (Z.land (Z.shiftr v 7) 1) s in
  let v := Z.land (Z.lor (Z.shiftl v 1) oldC) 0xFF in
  let s := write a v s in
  setZN v s.

Definition ROR_A (s : cpu) : cpu :=
  let oldC := fC s in
  let s := set_fC (Z.land (rA s) 1) s in
  let s := set_rA (Z.land (Z.lor (ushr (rA s) 1) (Z.shiftl oldC 7)) 0xFF) s in
  setZN (rA s) s.

Definition ROR (a : Z) (s : cpu) : cpu :=
  let v := read s a in
  let oldC := fC s in
  let s := set_fC (Z.land v 1) s in
  let v := Z.land (Z.lor (ushr v 1) (Z.shiftl oldC 7)) 0xFF in
  let s := write a v s in
  setZN v s.

(** ** Undocumented instructions *)

Definition LAX (v : Z) (s : cpu) : cpu :=
  let w := Z.land v 0xFF in
  let s := set_rX w s in
  let s := set_rA w s in
  setZN (rA s) s.
Definition SAX (a : Z) (s : cpu) : cpu := write a (Z.land (rA s) (rX s)) s.
Definition DCP (a : Z) (s : cpu) : cpu := let s := DEC a s in CMP (read s a) s.
Definition ISC (a : Z) (s : cpu) : cpu := let s := INC a s in SBC (read s a) s.
Definition SLO (a : Z) (s : cpu) : cpu := let s := ASL a s in ORA (read s a) s.
Definition RLA (a : Z) (s : cpu) : cpu := let s := ROL a s in AND (read s a) s.
Definition SRE (a : Z) (s : cpu) : cpu := let s := LSR a s in EOR (read s a) s.
Definition RRA (a : Z) (s : cpu) : cpu := let s := ROR a s in ADC (read s a) s.
Definition ANC (v : Z) (s : cpu) : cpu := let s := AND v s in set_fC (fN s) s.
Definition ALR (v : Z) (s : cpu) : cpu := let s := AND v s in LSR_A s.
Definition ARR (v : Z) (s : cpu) : cpu :=
  let s := AND v s in
  let s := ROR_A s in
  let s := set_fC (Z.land (Z.shiftr (rA s) 6) 1) s in
  set_fV (Z.land (Z.lxor (Z.shiftr (rA s) 6) (Z.shiftr (rA s) 5)) 1) s.
Definition XAA (v : Z) (s : cpu) : cpu :=
  let s := set_rA (Z.land (rX s) (Z.land v 0xFF)) s in setZN (rA s) s.
Definition AXS (v : Z) (s : cpu) : cpu :=
  let temp := Z.land (Z.land (rA s) (rX s)) 0xFF in
  let result := temp - Z.land v 0xFF in
  let s := set_rX (Z.land result 0xFF) s in
  let s := set_fC (b2z (result >=? 0)) s in
  setZN (rX s) s.
Definition SHY (a : Z) (s : cpu) : cpu :=
  let val := Z.land (rY s) (Z.land (ushr a 8 + 1) 0xFF) in write a val s.
Definition SHX (a : Z) (s : cpu) : cpu :=
  let val := Z.land (rX s) (Z.land (ushr a 8 + 1) 0xFF) in write a val s.

(** ** Cycle timing table *)

Definition cycleTable : list Z := [
  7;6;2;8;3;3;5;5;3;2;2;2;4;4;6;6;2;5;2;8;4;4;6;6;2;4;2;7;4;4;7;7;
  6;6;2;8;3;3;5;5;4;2;2;2;4;4;6;6;2;5;2;8;4;4;6;6;2;4;2;7;4;4;7;7;
  6;6;2;8;3;3;5;5;3;2;2;2;3;4;6;6;2;5;2;8;4;4;6;6;2;4;2;7;4;4;7;7;
  6;6;2;8;3;3;5;5;4;2;2;2;5;4;6;6;2;5;2;8;4;4;6;6;2;4;2;7;4;4;7;7;
  2;6;2;6;3;3;3;3;2;2;2;2;4;4;4;4;2;6;2;6;4;4;4;4;2;5;2;5;5;5;5;5;
  2;6;2;6;3;3;3;3;2;2;2;2;4;4;4;4;2;5;2;5;4;4;4;4;2;4;2;4;4;4;4;4;
  2;6;2;8;3;3;5;5;2;2;2;2;4;4;6;6;2;5;2;8;4;4;6;6;2;4;2;7;4;4;7;7;
  2;6;2;8;3;3;5;5;2;2;2;2;4;4;6;6;2;5;2;8;4;4;6;6;2;4;2;7;4;4;7;7
].

(** [this.cycleTable[op] || 2] *)
Definition baseCycles (op : Z) : Z :=
  match (if op <? 0 then None else cycleTable !! Z.to_nat op) with
  | Some c => if c =? 0 then 2 else c
  | None => 2
  end.

(** ** Instruction map

    The closures stored in [instructionMap] come in six shapes; [exec]
    gives each shape its body. *)
Inductive instr : Type :=
| KIL
    (* console.warn(...); this.PC = (this.PC - 1) & 0xFFFF *)
| Implied (f : cpu -> cpu)
    (* () => this.F() *)
| OnValue (m : mode) (penalty : bool) (f : Z -> cpu -> cpu)
    (* const m = this.M(); [if (m.pageCrossed) this.cycles++;] this.F(m.value) *)
| OnAddress (m : mode) (f : Z -> cpu -> cpu)
    (* const m = this.M(); this.F(m.address) *)
| Skip (m : mode) (penalty : bool).
    (* [const m =] this.M(); [if (m.pageCrossed) this.cycles++;] this.NOP() *)

Definition pageCrossPenalty (penalty : bool) (o : operand) (s : cpu) : cpu :=
  if penalty && pageCrossed o then set_cycles (cycles s + 1) s else s.

Definition exec (i : instr) (s : cpu) : cpu :=
  match i with
  | KIL => set_rPC (Z.land (rPC s - 1) 0xFFFF) s
  | Implied f => f s
  | OnValue m penalty f =>
      let '(o, s) := m s in
      let s := pageCrossPenalty penalty o s in
      f (value o) s
  | OnAddress m f =>
      let '(o, s) := m s in
      f (address o) s
  | Skip m penalty =>
      let '(o, s) := m s in
      let s := pageCrossPenalty penalty o s in
      NOP s
  end.

(** The assignments of [setupInstructions], in source order. *)
Definition assignments : list (Z * instr) := [
    (0x00, Implied BRK);
    (0xEA, Implied NOP);
    (0xA9, OnValue imm false LDA);
    (0xA5, OnValue zp false LDA);
    (0xB5, OnValue zpx false LDA);
    (0xAD, OnValue abs false LDA);
    (0xBD, OnValue absx true LDA);
    (0xB9, OnValue absy true LDA);
    (0xA1, OnValue indx false LDA);
    (0xB1, OnValue indy true LDA);
    (0x85, OnAddress zp STA);
    (0x95, OnAddress zpx STA);
    (0x8D, OnAddress abs STA);
    (0x9D, OnAddress absx STA);
    (0x99, OnAddress absy STA);
    (0x81, OnAddress indx STA);
    (0x91, OnAddress indy STA);
    (0xA2, OnValue imm false LDX);
    (0xA6, OnValue zp false LDX);
    (0xB6, OnValue zpy false LDX);
    (0xAE, OnValue abs false LDX);
    (0xBE, OnValue absy true LDX);
    (0xA0, OnValue imm false LDY);
    (0xA4, OnValue zp false LDY);
    (0xB4, OnValue zpx false LDY);
    (0xAC, OnValue abs false LDY);
    (0xBC, OnValue absx true LDY);
    (0x86, OnAddress zp STX);
    (0x96, OnAddress zpy STX);
    (0x8E, OnAddress abs STX);
    (0x84, OnAddress zp STY);
    (0x94, OnAddress zpx STY);
    (0x8C, OnAddress abs STY);
    (0xAA, Implied TAX);
    (0x8A, Implied TXA);
    (0xA8, Implied TAY);
    (0x98, Implied TYA);
    (0xBA, Implied TSX);
    (0x9A, Implied TXS);
    (0x48, Implied PHA);
    (0x68, Implied PLA);
    (0x08, Implied PHP);
    (0x28, Implied PLP);
    (0xE8, Implied INX);
    (0xCA, Implied DEX);
    (0xC8, Implied INY);
    (0x88, Implied DEY);
    (0xE6, OnAddress zp INC);
    (0xF6, OnAddress zpx INC);
    (0xEE, OnAddress abs INC);
    (0xFE, OnAddress absx INC);
    (0xC6, OnAddress zp DEC);
    (0xD6, OnAddress zpx DEC);
    (0xCE, OnAddress abs DEC);
    (0xDE, OnAddress absx DEC);
    (0x69, OnValue imm false ADC);
    (0x65, OnValue zp false ADC);
    (0x75, OnValue zpx false ADC);
    (0x6D, OnValue abs false ADC);
    (0x7D, OnValue absx true ADC);
    (0x79, OnValue absy true ADC);
    (0x61, OnValue indx false ADC);
    (0x71, OnValue indy true ADC);
    (0xE9, OnValue imm false SBC);
    (0xE5, OnValue zp false SBC);
    (0xF5, OnValue zpx false SBC);
    (0xED, OnValue abs false SBC);
    (0xFD, OnValue absx true SBC);
    (0xF9, OnValue absy true SBC);
    (0xE1, OnValue indx false SBC);
    (0xF1, OnValue indy true SBC);
    (0x29, OnValue imm false AND);
    (0x25, OnValue zp false AND);
    (0x35, OnValue zpx false AND);
    (0x2D, OnValue abs false AND);
    (0x3D, OnValue absx true AND);
    (0x39, OnValue absy true AND);
    (0x21, OnValue indx false AND);
    (0x31, OnValue indy true AND);
    (0x09, OnValue imm false ORA);
    (0x05, OnValue zp false ORA);
    (0x15, OnValue zpx false ORA);
    (0x0D, OnValue abs false ORA);
    (0x1D, OnValue absx true ORA);
    (0x19, OnValue absy true ORA);
    (0x01, OnValue indx false ORA);
    (0x11, OnValue indy true ORA);
    (0x49, OnValue imm false EOR);
    (0x45, OnValue zp false EOR);
    (0x55, OnValue zpx false EOR);
    (0x4D, OnValue abs false EOR);
    (0x5D, OnValue absx true EOR);
    (0x59, OnValue absy true EOR);
    (0x41, OnValue indx false EOR);
    (0x51, OnValue indy true EOR);
    (0xC9, OnValue imm false CMP);
    (0xC5, OnValue zp false CMP);
    (0xD5, OnValue zpx false CMP);
    (0xCD, OnValue abs false CMP);
    (0xDD, OnValue absx true CMP);
    (0xD9, OnValue absy true CMP);
    (0xC1, OnValue indx false CMP);
    (0xD1, OnValue indy true CMP);
    (0xE0, OnValue imm false CPX);
    (0xE4, OnValue zp false CPX);
    (0xEC, OnValue abs false CPX);
    (0xC0, OnValue imm false CPY);
    (0xC4, OnValue zp false CPY);
    (0xCC, OnValue abs false CPY);
    (0x24, OnValue zp false BIT);
    (0x2C, OnValue abs false BIT);
    (0x0A, Implied ASL_A);
    (0x06, OnAddress zp ASL);
    (0x16, OnAddress zpx ASL);
    (0x0E, OnAddress abs ASL);
    (0x1E, OnAddress absx ASL);
    (0x4A, Implied LSR_A);
    (0x46, OnAddress zp LSR);
    (0x56, OnAddress zpx LSR);
    (0x4E, OnAddress abs LSR);
    (0x5E, OnAddress absx LSR);
    (0x2A, Implied ROL_A);
    (0x26, OnAddress zp ROL);
    (0x36, OnAddress zpx ROL);
    (0x2E, OnAddress abs ROL);
    (0x3E, OnAddress absx ROL);
    (0x6A, Implied ROR_A);
    (0x66, OnAddress zp ROR);
    (0x76, OnAddress zpx ROR);
    (0x6E, OnAddress abs ROR);
    (0x7E, OnAddress absx ROR);
    (0x90, OnAddress rel BCC);
    (0xB0, OnAddress rel BCS);
    (0xF0, OnAddress rel BEQ);
    (0x30, OnAddress rel BMI);
    (0xD0, OnAddress rel BNE);
    (0x10, OnAddress rel BPL);
    (0x50, OnAddress rel BVC);
    (0x70, OnAddress rel BVS);
    (0x4C, OnAddress abs JMP);
    (0x6C, OnAddress ind JMP);
    (0x20, OnAddress abs JSR);
    (0x60, Implied RTS);
    (0x40, Implied RTI);
    (0x18, Implied CLC);
    (0x38, Implied SEC);
    (0x58, Implied CLI);
    (0x78, Implied SEI);
    (0xB8, Implied CLV);
    (0xD8, Implied CLD);
    (0xF8, Implied SED);
    (0xA7, OnValue zp false LAX);
    (0xB7, OnValue zpy false LAX);
    (0xAF, OnValue abs false LAX);
    (0xBF, OnValue absy true LAX);
    (0xA3, OnValue indx false LAX);
    (0xB3, OnValue indy true LAX);
    (0x87, OnAddress zp SAX);
    (0x97, OnAddress zpy SAX);
    (0x8F, OnAddress abs SAX);
    (0x83, OnAddress indx SAX);
    (0xC7, OnAddress zp DCP);
    (0xD7, OnAddress zpx DCP);
    (0xCF, OnAddress abs DCP);
    (0xDF, OnAddress absx DCP);
    (0xDB, OnAddress absy DCP);
    (0xC3, OnAddress indx DCP);
    (0xD3, OnAddress indy DCP);
    (0xE7, OnAddress zp ISC);
    (0xF7, OnAddress zpx ISC);
    (0xEF, OnAddress abs ISC);
    (0xFF, OnAddress absx ISC);
    (0xFB, OnAddress absy ISC);
    (0xE3, OnAddress indx ISC);
    (0xF3, OnAddress indy ISC);
    (0x07, OnAddress zp SLO);
    (0x17, OnAddress zpx SLO);
    (0x0F, OnAddress abs SLO);
    (0x1F, OnAddress absx SLO);
    (0x1B, OnAddress absy SLO);
    (0x03, OnAddress indx SLO);
    (0x13, OnAddress indy SLO);
    (0x27, OnAddress zp RLA);
    (0x37, OnAddress zpx RLA);
    (0x2F, OnAddress abs RLA);
    (0x3F, OnAddress absx RLA);
    (0x3B, OnAddress absy RLA);
    (0x23, OnAddress indx RLA);
    (0x33, OnAddress indy RLA);
    (0x47, OnAddress zp SRE);
    (0x57, OnAddress zpx SRE);
    (0x4F, OnAddress abs SRE);
    (0x5F, OnAddress absx SRE);
    (0x5B, OnAddress absy SRE);
    (0x43, OnAddress indx SRE);
    (0x53, OnAddress indy SRE);
    (0x67, OnAddress zp RRA);
    (0x77, OnAddress zpx RRA);
    (0x6F, OnAddress abs RRA);
    (0x7F, OnAddress absx RRA);
    (0x7B, OnAddress absy RRA);
    (0x63, OnAddress indx RRA);
    (0x73, OnAddress indy RRA);
    (0x0B, OnValue imm false ANC);
    (0x2B, OnValue imm false ANC);
    (0x4B, OnValue imm false ALR);
    (0x6B, OnValue imm false ARR);
    (0x8B, OnValue imm false XAA);
    (0xCB, OnValue imm false AXS);
    (0x9C, OnAddress absx SHY);
    (0x9E, OnAddress absy SHX);
    (0x1A, Implied NOP);
    (0x3A, Implied NOP);
    (0x5A, Implied NOP);
    (0x7A, Implied NOP);
    (0xDA, Implied NOP);
    (0xFA, Implied NOP);
    (0x04, Skip zp false);
    (0x44, Skip zp false);
    (0x64, Skip zp false);
    (0x14, Skip zpx false);
    (0x34, Skip zpx false);
    (0x54, Skip zpx false);
    (0x74, Skip zpx false);
    (0xD4, Skip zpx false);
    (0xF4, Skip zpx false);
    (0x0C, Skip abs false);
    (0x1C, Skip absx true);
    (0x3C, Skip absx true);
    (0x5C, Skip absx true);
    (0x7C, Skip absx true);
    (0xDC, Skip absx true);
    (0xFC, Skip absx true);
    (0x80, Skip imm false);
    (0x82, Skip imm false);
    (0x89, Skip imm false);
    (0xC2, Skip imm false);
    (0xE2, Skip imm false)
].

(** The entry an opcode ends up with: the last assignment to it. *)
Fixpoint assigned (op : Z) (l : list (Z * instr)) : option instr :=
  match l with
  | [] => None
  | (k, i) :: l' =>
      match assigned op l' with
      | Some j => Some j
      | None => if k =? op then Some i else None
      end
  end.

(** [this.instructionMap[op]]: every key 0..255 starts as KIL and is then
    overwritten by its assignment; other keys are undefined. *)
Definition instructionMap (op : Z) : option instr :=
  if (0 <=? op) && (op <? 256)
  then Some (default KIL (assigned op assignments))
  else None.

(** ** Execute one instruction *)

(** The part of [step] after the two early returns. *)
Definition fetchExecute (s : cpu) : Z * cpu :=
  let '(op, s) := fetch s in
  let s := set_opcode op s in
  let s := set_cycles (baseCycles (opcode s)) s in
  let s :=
    match instructionMap (Z.land (opcode s) 0xFF) with
    | Some instr => exec instr s
    | None => s                       (* console.warn("Unimplemented ...") *)
    end in
  let s := set_totalCycles (totalCycles s + cycles s) s in
  (cycles s, s).

Definition step (s : cpu) : Z * cpu :=
  if _breakFlag s then
    let s := set_breakFlag false s in
    (cycles s, s)
  else
    let '(serviced, s) := handleNMI s in
    if serviced then (cycles s, s)
    else fetchExecute s.

(** ** Run for a number of cycles

    The [while] loop, with the number of iterations it may take bounded by
    [fuel]; [None] when the bound is reached first. *)
Fixpoint runLoop (fuel : nat) (goal : Z) (s : cpu) : option cpu :=
  if totalCycles s <? goal then
    match fuel with
    | O => None
    | S fuel' => runLoop fuel' goal (snd (step s))
    end
  else Some s.

Definition runCycles (fuel : nat) (target : Z) (s : cpu) : option (Z * cpu) :=
  let start := totalCycles s in
  let goal := start + target in
  match runLoop fuel goal s with
  | Some s' => Some (totalCycles s' - start, s')
  | None => None
  end.

(** ** Reset *)

Definition reset (s : cpu) : cpu :=
  let s := set_rY 0 s in
  let s := set_rX 0 s in
  let s := set_rA 0 s in
  let s := set_rS 0xFF s in
  let s := set_fN 0 s in
  let s := set_fV 0 s in
  let s := set_fB 0 s in
  let s := set_fD 0 s in
  let s := set_fI 0 s in
  let s := set_fZ 0 s in
  let s := set_fC 0 s in
  let s := set_fI 1 s in
  let s := set_fB 0 s in
  let lo := read s 0xFFFC in
  let hi := read s 0xFFFD in
  let s := set_rPC (word lo hi) s in
  let s := set_cycles 7 s in
  let s := set_totalCycles (totalCycles s + 7) s in
  let s := set_breakFlag false s in
  let s := set_nmiPending false s in
  set_nmiEdge false s.

Definition triggerBreak (s : cpu) : cpu := set_breakFlag true s.


(** ** Host calls

    The three calls a host makes between observations, and a sequence of
    them run in order. *)
Inductive call : Type := Step | Reset | TriggerNMI.

Definition perform (c : call) (s : cpu) : cpu :=
  match c with
  | Step => snd (step s)
  | Reset => reset s
  | TriggerNMI => triggerNMI s
  end.

Definition run (cs : list call) (s : cpu) : cpu :=
  fold_left (fun s c => perform c s) cs s.

(** The state in which the closure of the fetched opcode runs: PC past the
    opcode, [opcode] and the base cost set. *)
Definition fetched (s : cpu) : cpu :=
  set_cycles (baseCycles (read s (rPC s)))
    (set_opcode (read s (rPC s)) (set_rPC (rPC s + 1) s)).

(** ** Predicates of the statements *)

Definition flags_ok (s : cpu) : Prop :=
  flag_ok (fC s) /\ flag_ok (fZ s) /\ flag_ok (fI s) /\ flag_ok (fD s) /\
  flag_ok (fB s) /\ flag_ok (fV s) /\ flag_ok (fN s).

(** Registers and flags within their widths, PC not negative. *)
Definition regs_ok (s : cpu) : Prop :=
  byte_ok (rA s) /\ byte_ok (rX s) /\ byte_ok (rY s) /\ byte_ok (rS s) /\
  flags_ok s /\ 0 <= rPC s.

(** The declared widths of all registers: [regs_ok] with PC a 16-bit value. *)
Definition in_width (s : cpu) : Prop := regs_ok s /\ rPC s <= 0xFFFF.

(** What the body of an instruction leaves alone: the latches, the
    configuration, [totalCycles], [opcode], the size of the RAM; [cycles]
    may only grow. *)
Definition steady (s s' : cpu) : Prop :=
  _breakFlag s' = _breakFlag s /\ _nmiPending s' = _nmiPending s /\
  _nmiEdge s' = _nmiEdge s /\
  emulateIndirectJMPBug s' = emulateIndirectJMPBug s /\
  totalCycles s' = totalCycles s /\ opcode s' = opcode s /\
  length (ram s') = length (ram s) /\ cycles s <= cycles s'.

(** [steady], widths preserved, and with [keepS] the stack pointer kept. *)
Definition good (keepS : bool) (s s' : cpu) : Prop :=
  steady s s' /\ (regs_ok s -> regs_ok s') /\ (keepS = true -> rS s' = rS s).

(** Opcodes of the instructions that move the stack pointer:
    BRK, PHP, JSR, PLP, RTI, PHA, RTS, PLA, TXS. *)
Definition stackOpcodes : list Z :=
  [0x00; 0x08; 0x20; 0x28; 0x40; 0x48; 0x60; 0x68; 0x9A].

Definition stackOpcode (op : Z) : bool := existsb (Z.eqb op) stackOpcodes.

Definition isKIL (i : option instr) : bool :=
  match i with Some KIL => true | _ => false end.

(** A byte whose two nibbles are decimal digits. *)
Definition validBCD (x : Z) : bool :=
  (Z.land x 0x0F <=? 9) && (Z.shiftr x 4 <=? 9).

(** ** States used in the examples *)

(** [bytes] stored from [base] on. *)
Definition load (base : Z) (bs : list Z) (s : cpu) : cpu :=
  snd (fold_left (fun '(a, s) b => (a + 1, write a b s)) bs (base, s)).


(** LDA $02FF,X and STA $02FF,X with X = 1: the index crosses into page 3. *)
Definition ldaCrossing : cpu :=
  set_rX 1 (set_rPC 0x0600 (load 0x0600 [0xBD; 0xFF; 0x02] (mose 4))).
Definition staCrossing : cpu :=
  set_rX 1 (set_rPC 0x0600 (load 0x0600 [0x9D; 0xFF; 0x02] (mose 4))).

(** A machine about to fetch the jam opcode 0x02. *)
Definition jammed : cpu := set_rPC 0x0600 (load 0x0600 [0x02] (mose 4)).

(** A machine in decimal mode holding 9, as after SED; LDA #$09. *)
Definition decimalNine : cpu := set_fD 1 (set_rA 0x09 (mose 4)).

(** A 64 KB machine about to fetch a NOP from the last address. *)
Definition pcAtTop : cpu := set_rPC 0xFFFF (write 0xFFFF 0xEA (mose 64)).


(** The conditional branches: opcode, the flag tested, and the value the
    flag must have for the branch to be taken (BPL, BMI, BVC, BVS, BCC, BCS,
    BNE, BEQ). *)
Definition branchOpcodes : list (Z * (cpu -> Z) * Z) :=
  [(0x10, fN, 0); (0x30, fN, 1); (0x50, fV, 0); (0x70, fV, 1);
   (0x90, fC, 0); (0xB0, fC, 1); (0xD0, fZ, 0); (0xF0, fZ, 1)].




End Mose.

(** * Release r211225.235 (class [MOSE])

    The earlier release of the core.  It has no RAM-size table, no decimal
    mode, no NMI or break latch and no switch for the indirect-JMP defect;
    addressing methods return a value or an address and record a page
    crossing in the field [pageCrossed], which [step] consults together with
    [needsPageCrossPenalty]. *)
Module MoseR235.

Record cpu : Type := mkCpu {
  memory : list Z;                 (* Uint8Array *)
  rA : Z; rX : Z; rY : Z; rPC : Z; rS : Z;
  fC : Z; fZ : Z; fI : Z; fD : Z; fB : Z; fV : Z; fN : Z;
  opcode : Z; cycles : Z; totalCycles : Z;
  pageCrossed : bool
}.

Definition set_memory (v : list Z) (s : cpu) : cpu :=
  mkCpu v (rA s) (rX s) (rY s) (rPC s) (rS s) (fC s) (fZ s) (fI s)
        (fD s) (fB s) (fV s) (fN s) (opcode s) (cycles s) (totalCycles s) (pageCrossed s).
Definition set_rA (v : Z) (s : cpu) : cpu :=
  mkCpu (memory s) v (rX s) (rY s) (rPC s) (rS s) (fC s) (fZ s) (fI s)
        (fD s) (fB s) (fV s) (fN s) (opcode s) (cycles s) (totalCycles s) (pageCrossed s).
Definition set_rX (v : Z) (s : cpu) : cpu :=
  mkCpu (memory s) (rA s) v (rY s) (rPC s) (rS s) (fC s) (fZ s) (fI s)
        (fD s) (fB s) (fV s) (fN s) (opcode s) (cycles s) (totalCycles s) (pageCrossed s).
Definition set_rY (v : Z) (s : cpu) : cpu :=
  mkCpu (memory s) (rA s) (rX s) v (rPC s) (rS s) (fC s) (fZ s) (fI s)
        (fD s) (fB s) (fV s) (fN s) (opcode s) (cycles s) (totalCycles s) (pageCrossed s).
Definition set_rPC (v : Z) (s : cpu) : cpu :=
  mkCpu (memory s) (rA s) (rX s) (rY s) v (rS s) (fC s) (fZ s) (fI s)
        (fD s) (fB s) (fV s) (fN s) (opcode s) (cycles s) (totalCycles s) (pageCrossed s).
Definition set_rS (v : Z) (s : cpu) : cpu :=
  mkCpu (memory s) (rA s) (rX s) (rY s) (rPC s) v (fC s) (fZ s) (fI s)
        (fD s) (fB s) (fV s) (fN s) (opcode s) (cycles s) (totalCycles s) (pageCrossed s).
Definition set_fC (v : Z) (s : cpu) : cpu :=
  mkCpu (memory s) (rA s) (rX s) (rY s) (rPC s) (rS s) v (fZ s) (fI s)
        (fD s) (fB s) (fV s) (fN s) (opcode s) (cycles s) (totalCycles s) (pageCrossed s).
Definition set_fZ (v : Z) (s : cpu) : cpu :=
  mkCpu (memory s) (rA s) (rX s) (rY s) (rPC s) (rS s) (fC s) v (fI s)
        (fD s) (fB s) (fV s) (fN s) (opcode s) (cycles s) (totalCycles s) (pageCrossed s).
Definition set_fI (v : Z) (s : cpu) : cpu :=
  mkCpu (memory s) (rA s) (rX s) (rY s) (rPC s) (rS s) (fC s) (fZ s) v
        (fD s) (fB s) (fV s) (fN s) (opcode s) (cycles s) (totalCycles s) (pageCrossed s).
Definition set_fD (v : Z) (s : cpu) : cpu :=
  mkCpu (memory s) (rA s) (rX s) (rY s) (rPC s) (rS s) (fC s) (fZ s) (fI s)
        v (fB s) (fV s) (fN s) (opcode s) (cycles s) (totalCycles s) (pageCrossed s).
Definition set_fB (v : Z) (s : cpu) : cpu :=
  mkCpu (memory s) (rA s) (rX s) (rY s) (rPC s) (rS s) (fC s) (fZ s) (fI s)
        (fD s) v (fV s) (fN s) (opcode s) (cycles s) (totalCycles s) (pageCrossed s).
Definition set_fV (v : Z) (s : cpu) : cpu :=
  mkCpu (memory s) (rA s) (rX s) (rY s) (rPC s) (rS s) (fC s) (fZ s) (fI s)
        (fD s) (fB s) v (fN s) (opcode s) (cycles s) (totalCycles s) (pageCrossed s).
Definition set_fN (v : Z) (s : cpu) : cpu :=
  mkCpu (memory s) (rA s) (rX s) (rY s) (rPC s) (rS s) (fC s) (fZ s) (fI s)
        (fD s) (fB s) (fV s) v (opcode s) (cycles s) (totalCycles s) (pageCrossed s).
Definition set_opcode (v : Z) (s : cpu) : cpu :=
  mkCpu (memory s) (rA s) (rX s) (rY s) (rPC s) (rS s) (fC s) (fZ s) (fI s)
        (fD s) (fB s) (fV s) (fN s) v (cycles s) (totalCycles s) (pageCrossed s).
Definition set_cycles (v : Z) (s : cpu) : cpu :=
  mkCpu (memory s) (rA s) (rX s) (rY s) (rPC s) (rS s) (fC s) (fZ s) (fI s)
        (fD s) (fB s) (fV s) (fN s) (opcode s) v (totalCycles s) (pageCrossed s).
Definition set_totalCycles (v : Z) (s : cpu) : cpu :=
  mkCpu (memory s) (rA s) (rX s) (rY s) (rPC s) (rS s) (fC s) (fZ s) (fI s)
        (fD s) (fB s) (fV s) (fN s) (opcode s) (cycles s) v (pageCrossed s).
Definition set_pageCrossed (v : bool) (s : cpu) : cpu :=
  mkCpu (memory s) (rA s) (rX s) (rY s) (rPC s) (rS s) (fC s) (fZ s) (fI s)
        (fD s) (fB s) (fV s) (fN s) (opcode s) (cycles s) (totalCycles s) v.

(** [new MOSE(memorySize)] *)
Definition MOSE (memorySize : Z) : cpu :=
  {| memory := replicate (Z.to_nat memorySize) 0;
     rA := 0; rX := 0; rY := 0; rPC := 0; rS := 0xFF;
     fC := 0; fZ := 0; fI := 0; fD := 0; fB := 0; fV := 0; fN := 0;
     opcode := 0; cycles := 0; totalCycles := 0;
     pageCrossed := false |}.

(** ** Memory access

    There is no bounds test: an index past the end of the typed array reads
    [undefined], and [undefined & 0xFF] is 0; a store past the end is
    dropped. *)
Definition read (s : cpu) (addr : Z) : Z :=
  Z.land (default 0 (memory s !! Z.to_nat (Z.land addr 0xFFFF))) 0xFF.

Definition write (addr val : Z) (s : cpu) : cpu :=
  set_memory (<[Z.to_nat (Z.land addr 0xFFFF) := Z.land val 0xFF]> (memory s)) s.

(** ** Stack operations *)

Definition push (v : Z) (s : cpu) : cpu :=
  let s := write (0x100 + Z.land (rS s) 0xFF) (Z.land v 0xFF) s in
  set_rS (Z.land (rS s - 1) 0xFF) s.

Definition pop (s : cpu) : Z * cpu :=
  let s := set_rS (Z.land (rS s + 1) 0xFF) s in
  (read s (0x100 + Z.land (rS s) 0xFF), s).

(** ** Status register *)

Definition setZN (v : Z) (s : cpu) : cpu :=
  let v := Z.land v 0xFF in
  let s := set_fZ (b2z (v =? 0)) s in
  set_fN (b2z (truthy (Z.land v 0x80))) s.

Definition getStatus (s : cpu) : Z :=
  Z.lor (Z.lor (Z.lor (Z.lor (Z.lor (Z.lor (Z.lor
    (Z.shiftl (fN s) 7) (Z.shiftl (fV s) 6)) (Z.shiftl 1 5)) (Z.shiftl (fB s) 4))
    (Z.shiftl (fD s) 3)) (Z.shiftl (fI s) 2)) (Z.shiftl (fZ s) 1)) (fC s).

Definition setStatus (v : Z) (s : cpu) : cpu :=
  let s := set_fN (Z.land (Z.shiftr v 7) 1) s in
  let s := set_fV (Z.land (Z.shiftr v 6) 1) s in
  let s := set_fB (Z.land (Z.shiftr v 4) 1) s in
  let s := set_fD (Z.land (Z.shiftr v 3) 1) s in
  let s := set_fI (Z.land (Z.shiftr v 2) 1) s in
  let s := set_fZ (Z.land (Z.shiftr v 1) 1) s in
  set_fC (Z.land v 1) s.

(** ** Addressing modes *)

Definition checkPageCross (a b : Z) : bool :=
  negb (Z.land a 0xFF00 =? Z.land b 0xFF00).

(** What an operand expression of a closure yields: a number, with the state
    it leaves. *)
Definition arg : Type := cpu -> Z * cpu.

(** [this.PC++] as an expression. *)
Definition pcPostInc (s : cpu) : Z * cpu := (rPC s, set_rPC (rPC s + 1) s).

(** [this.read(this.PC++)] *)
Definition fetch (s : cpu) : Z * cpu :=
  let '(a, s) := pcPostInc s in (read s a, s).

Definition imm : arg := fetch.

Definition zp : arg := fun s =>
  let '(a, s) := fetch s in (read s a, s).

Definition zpx : arg := fun s =>
  let '(b, s) := fetch s in (read s (Z.land (b + rX s) 0xFF), s).

Definition zpy : arg := fun s =>
  let '(b, s) := fetch s in (read s (Z.land (b + rY s) 0xFF), s).

Definition abs : arg := fun s =>
  let '(lo, s) := fetch s in
  let '(hi, s) := fetch s in
  (read s (Z.lor (Z.shiftl hi 8) lo), s).

Definition absAddr : arg := fun s =>
  let '(lo, s) := fetch s in
  let '(hi, s) := fetch s in
  (word lo hi, s).

Definition absXAddr : arg := fun s =>
  let '(base, s) := absAddr s in
  let addr := Z.land (base + rX s) 0xFFFF in
  let s := set_pageCrossed (checkPageCross base addr) s in
  (addr, s).

Definition absYAddr : arg := fun s =>
  let '(base, s) := absAddr s in
  let addr := Z.land (base + rY s) 0xFFFF in
  let s := set_pageCrossed (checkPageCross base addr) s in
  (addr, s).

Definition ind : arg := fun s =>
  let '(lo, s) := fetch s in
  let '(hi, s) := fetch s in
  let ptr := word lo hi in
  let low := read s ptr in
  let high := read s (Z.lor (Z.land ptr 0xFF00) (Z.land (ptr + 1) 0xFF)) in
  (word low high, s).

Definition indx : arg := fun s =>
  let '(b, s) := fetch s in
  let z := Z.land (b + rX s) 0xFF in
  let lo := read s (Z.land z 0xFF) in
  let hi := read s (Z.land (z + 1) 0xFF) in
  (word lo hi, s).

Definition indy : arg := fun s =>
  let '(b, s) := fetch s in
  let z := Z.land b 0xFF in
  let lo := read s z in
  let hi := read s (Z.land (z + 1) 0xFF) in
  let base := word lo hi in
  let addr := Z.land (base + rY s) 0xFFFF in
  let s := set_pageCrossed (checkPageCross base addr) s in
  (addr, s).

Definition rel : arg := fun s =>
  let '(off, s) := fetch s in
  let target :=
    if truthy (Z.land off 0x80)
    then Z.land (rPC s + off - 0x100) 0xFFFF
    else Z.land (rPC s + off) 0xFFFF in
  let s := set_pageCrossed (checkPageCross (rPC s) target) s in
  (target, s).

(** Operand expressions that the closures write out in place. *)

(** [this.read(this.M())] for an address method [M] *)
Definition readAt (m : arg) : arg := fun s =>
  let '(a, s) := m s in (read s a, s).

(** [this.read(this.PC++) & 0xFF] *)
Definition zpAddrMasked : arg := fun s =>
  let '(b, s) := fetch s in (Z.land b 0xFF, s).

(** [(this.read(this.PC++) + this.X) & 0xFF] *)
Definition zpxAddr : arg := fun s =>
  let '(b, s) := fetch s in (Z.land (b + rX s) 0xFF, s).

(** [(this.read(this.PC++) + this.Y) & 0xFF] *)
Definition zpyAddr : arg := fun s =>
  let '(b, s) := fetch s in (Z.land (b + rY s) 0xFF, s).

(** [this.PC += 2] *)
Definition pcAdd2 : arg := fun s =>
  let s := set_rPC (rPC s + 2) s in (rPC s, s).

(** ** Load / store *)

Definition LDA (v : Z) (s : cpu) : cpu :=
  let s := set_rA (Z.land v 0xFF) s in setZN (rA s) s.
Definition LDX (v : Z) (s : cpu) : cpu :=
  let s := set_rX (Z.land v 0xFF) s in setZN (rX s) s.
Definition LDY (v : Z) (s : cpu) : cpu :=
  let s := set_rY (Z.land v 0xFF) s in setZN (rY s) s.
Definition STA (a : Z) (s : cpu) : cpu := write a (rA s) s.
Definition STX (a : Z) (s : cpu) : cpu := write a (rX s) s.
Definition STY (a : Z) (s : cpu) : cpu := write a (rY s) s.

(** ** Transfers *)

Definition TAX (s : cpu) : cpu :=
  let s := set_rX (Z.land (rA s) 0xFF) s in setZN (rX s) s.
Definition TXA (s : cpu) : cpu :=
  let s := set_rA (Z.land (rX s) 0xFF) s in setZN (rA s) s.
Definition TAY (s : cpu) : cpu :=
  let s := set_rY (Z.land (rA s) 0xFF) s in setZN (rY s) s.
Definition TYA (s : cpu) : cpu :=
  let s := set_rA (Z.land (rY s) 0xFF) s in setZN (rA s) s.
Definition TSX (s : cpu) : cpu :=
  let s := set_rX (Z.land (rS s) 0xFF) s in setZN (rX s) s.
Definition TXS (s : cpu) : cpu := set_rS (Z.land (rX s) 0xFF) s.

(** ** Stack instructions *)

Definition PHA (s : cpu) : cpu := push (rA s) s.
Definition PLA (s : cpu) : cpu :=
  let '(v, s) := pop s in
  let s := set_rA v s in setZN (rA s) s.
Definition PHP (s : cpu) : cpu := push (Z.lor (getStatus s) 0x10) s.
Definition PLP (s : cpu) : cpu :=
  let '(v, s) := pop s in setStatus v s.

(** ** Increment / decrement *)

Definition INX (s : cpu) : cpu :=
  let s := set_rX (Z.land (rX s + 1) 0xFF) s in setZN (rX s) s.
Definition DEX (s : cpu) : cpu :=
  let s := set_rX (Z.land (rX s - 1) 0xFF) s in setZN (rX s) s.
Definition INY (s : cpu) : cpu :=
  let s := set_rY (Z.land (rY s + 1) 0xFF) s in setZN (rY s) s.
Definition DEY (s : cpu) : cpu :=
  let s := set_rY (Z.land (rY s - 1) 0xFF) s in setZN (rY s) s.
Definition INC (a : Z) (s : cpu) : cpu :=
  let v := Z.land (read s a + 1) 0xFF in
  let s := write a v s in
  setZN v s.
Definition DEC (a : Z) (s : cpu) : cpu :=
  let v := Z.land (read s a - 1) 0xFF in
  let s := write a v s in
  setZN v s.

(** ** Flag instructions *)

Definition CLC (s : cpu) : cpu := set_fC 0 s.
Definition SEC (s : cpu) : cpu := set_fC 1 s.
Definition CLI (s : cpu) : cpu := set_fI 0 s.
Definition SEI (s : cpu) : cpu := set_fI 1 s.
Definition CLV (s : cpu) : cpu := set_fV 0 s.
Definition CLD (s : cpu) : cpu := set_fD 0 s.
Definition SED (s : cpu) : cpu := set_fD 1 s.
Definition NOP (s : cpu) : cpu := s.

(** ** Control flow *)

Definition JMP (a : Z) (s : cpu) : cpu := set_rPC (Z.land a 0xFFFF) s.
Definition JSR (a : Z) (s : cpu) : cpu :=
  let ret := Z.land (rPC s - 1) 0xFFFF in
  let s := push (Z.land (Z.shiftr ret 8) 0xFF) s in
  let s := push (Z.land ret 0xFF) s in
  set_rPC (Z.land a 0xFFFF) s.
Definition RTS (s : cpu) : cpu :=
  let '(lo, s) := pop s in
  let '(hi, s) := pop s in
  set_rPC (Z.land (Z.lor (Z.shiftl hi 8) lo + 1) 0xFFFF) s.
Definition BRK (s : cpu) : cpu :=
  let s := set_fB 1 s in
  let s := set_rPC (Z.land (rPC s + 1) 0xFFFF) s in
  let s := push (Z.land (Z.shiftr (rPC s) 8) 0xFF) s in
  let s := push (Z.land (rPC s) 0xFF) s in
  let s := push (Z.lor (getStatus s) 0x10) s in
  let s := set_fI 1 s in
  let lo := read s 0xFFFE in
  let hi := read s 0xFFFF in
  set_rPC (word lo hi) s.
Definition RTI (s : cpu) : cpu :=
  let '(p, s) := pop s in
  let s := setStatus p s in
  let '(lo, s) := pop s in
  let '(hi, s) := pop s in
  set_rPC (word lo hi) s.

(** ** Arithmetic (binary only) *)

Definition addOverflow (a v r : Z) : Z :=
  b2z (truthy (Z.land (Z.land (Z.lnot (Z.lxor a v)) (Z.lxor a r)) 0x80)).

Definition ADC (v : Z) (s : cpu) : cpu :=
  let v := Z.land v 0xFF in
  let sum := rA s + v + b2z (truthy (fC s)) in
  let s := set_fC (b2z (sum >? 0xFF)) s in
  let s := set_fV (addOverflow (rA s) v sum) s in
  let s := set_rA (Z.land sum 0xFF) s in
  setZN (rA s) s.

Definition SBC (v : Z) (s : cpu) : cpu :=
  let v := Z.land v 0xFF in
  let inv := Z.land (Z.lxor v 0xFF) 0xFF in
  ADC inv s.

(** ** Logic *)

Definition AND (v : Z) (s : cpu) : cpu :=
  let s := set_rA (Z.land (rA s) (Z.land v 0xFF)) s in setZN (rA s) s.
Definition ORA (v : Z) (s : cpu) : cpu :=
  let s := set_rA (Z.lor (rA s) (Z.land v 0xFF)) s in setZN (rA s) s.
Definition EOR (v : Z) (s : cpu) : cpu :=
  let s := set_rA (Z.lxor (rA s) (Z.land v 0xFF)) s in setZN (rA s) s.

(** ** Comparison *)

Definition compare (r0 v : Z) (s : cpu) : cpu :=
  let r := Z.land (r0 - Z.land v 0xFF) 0x1FF in
  let s := set_fC (b2z (r <? 0x100)) s in
  setZN (Z.land r 0xFF) s.
Definition CMP (v : Z) (s : cpu) : cpu := compare (rA s) v s.
Definition CPX (v : Z) (s : cpu) : cpu := compare (rX s) v s.
Definition CPY (v : Z) (s : cpu) : cpu := compare (rY s) v s.
Definition BIT (v : Z) (s : cpu) : cpu :=
  let v := Z.land v 0xFF in
  let s := set_fZ (if truthy (Z.land (rA s) v) then 0 else 1) s in
  let s := set_fN (b2z (truthy (Z.land v 0x80))) s in
  set_fV (b2z (truthy (Z.land v 0x40))) s.

(** ** Shifts and rotates *)

Definition ASL_A (s : cpu) : cpu :=
  let s := set_fC (Z.land (Z.shiftr (rA s) 7) 1) s in
  let s := set_rA (Z.land (Z.shiftl (rA s) 1) 0xFF) s in
  setZN (rA s) s.
Definition ASL (a : Z) (s : cpu) : cpu :=
  let v := read s a in
  let s := set_fC (Z.land (Z.shiftr v 7) 1) s in
  let v := Z.land (Z.shiftl v 1) 0xFF in
  let s := write a v s in
  setZN v s.
Definition LSR_A (s : cpu) : cpu :=
  let s := set_fC (Z.land (rA s) 1) s in
  let s := set_rA (Z.land (ushr (rA s) 1) 0xFF) s in
  setZN (rA s) s.
Definition LSR (a : Z) (s : cpu) : cpu :=
  let v := read s a in
  let s := set_fC (Z.land v 1) s in
  let v := Z.land (ushr v 1) 0xFF in
  let s := write a v s in
  setZN v s.
Definition ROL_A (s : cpu) : cpu :=
  let oldC := fC s in
  let s := set_fC (Z.land (Z.shiftr (rA s) 7) 1) s in
  let s := set_rA (Z.land (Z.lor (Z.shiftl (rA s) 1) oldC) 0xFF) s in
  setZN (rA s) s.
Definition ROL (a : Z) (s : cpu) : cpu :=
  let v := read s a in
  let oldC := fC s in
  let s := set_fC (Z.land (Z.shiftr v 7) 1) s in
  let v := Z.land (Z.lor (Z.shiftl v 1) oldC) 0xFF in
  let s := write a v s in
  setZN v s.
Definition ROR_A (s : cpu) : cpu :=
  let oldC := fC s in
  let s := set_fC (Z.land (rA s) 1) s in
  let s := set_rA (Z.land (Z.lor (ushr (rA s) 1) (Z.shiftl oldC 7)) 0xFF) s in
  setZN (rA s) s.
Definition ROR (a : Z) (s : cpu) : cpu :=
  let v := read s a in
  let oldC := fC s in
  let s := set_fC (Z.land v 1) s in
  let v := Z.land (Z.lor (ushr v 1) (Z.shiftl oldC 7)) 0xFF in
  let s := write a v s in
  setZN v s.

(** ** Branches

    The shared body of the eight branch methods; the page crossing is the
    one [rel] recorded. *)
Definition takeBranch (addr : Z) (s : cpu) : cpu :=
  let s := set_rPC addr s in
  let s := set_cycles (cycles s + 1) s in
  if pageCrossed s then set_cycles (cycles s + 1) s else s.

Definition BCC (addr : Z) (s : cpu) : cpu :=
  if fC s =? 0 then takeBranch addr s else s.
Definition BCS (addr : Z) (s : cpu) : cpu :=
  if fC s =? 1 then takeBranch addr s else s.
Definition BEQ (addr : Z) (s : cpu) : cpu :=
  if fZ s =? 1 then takeBranch addr s else s.
Definition BNE (addr : Z) (s : cpu) : cpu :=
  if fZ s =? 0 then takeBranch addr s else s.
Definition BPL (addr : Z) (s : cpu) : cpu :=
  if fN s =? 0 then takeBranch addr s else s.
Definition BMI (addr : Z) (s : cpu) : cpu :=
  if fN s =? 1 then takeBranch addr s else s.
Definition BVC (addr : Z) (s : cpu) : cpu :=
  if fV s =? 0 then takeBranch addr s else s.
Definition BVS (addr : Z) (s : cpu) : cpu :=
  if fV s =? 1 then takeBranch addr s else s.

(** ** Undocumented opcodes *)

Definition LAX (v : Z) (s : cpu) : cpu :=
  let w := Z.land v 0xFF in
  let s := set_rX w s in
  let s := set_rA w s in
  setZN (rA s) s.
Definition SAX (a : Z) (s : cpu) : cpu := write a (Z.land (rA s) (rX s)) s.
Definition DCP (a : Z) (s : cpu) : cpu := let s := DEC a s in CMP (read s a) s.
Definition ISC (a : Z) (s : cpu) : cpu := let s := INC a s in SBC (read s a) s.
Definition SLO (a : Z) (s : cpu) : cpu := let s := ASL a s in ORA (read s a) s.
Definition RLA (a : Z) (s : cpu) : cpu := let s := ROL a s in AND (read s a) s.
Definition SRE (a : Z) (s : cpu) : cpu := let s := LSR a s in EOR (read s a) s.
Definition RRA (a : Z) (s : cpu) : cpu := let s := ROR a s in ADC (read s a) s.

(** ** Cycle timing table *)

Definition cycleTable : list Z := [
  7;6;2;8;3;3;5;5;3;2;2;2;4;4;6;6;2;5;2;8;4;4;6;6;2;4;2;7;4;4;7;7;
  6;6;2;8;3;3;5;5;4;2;2;2;4;4;6;6;2;5;2;8;4;4;6;6;2;4;2;7;4;4;7;7;
  6;6;2;8;3;3;5;5;3;2;2;2;3;4;6;6;2;5;2;8;4;4;6;6;2;4;2;7;4;4;7;7;
  6;6;2;8;3;3;5;5;4;2;2;2;5;4;6;6;2;5;2;8;4;4;6;6;2;4;2;7;4;4;7;7;
  2;6;2;6;3;3;3;3;2;2;2;2;4;4;4;4;2;6;2;6;4;4;4;4;2;5;2;5;5;5;5;5;
  2;6;2;6;3;3;3;3;2;2;2;2;4;4;4;4;2;5;2;5;4;4;4;4;2;4;2;4;4;4;4;4;
  2;6;2;8;3;3;5;5;2;2;2;2;4;4;6;6;2;5;2;8;4;4;6;6;2;4;2;7;4;4;7;7;
  2;6;2;8;3;3;5;5;2;2;2;2;4;4;6;6;2;5;2;8;4;4;6;6;2;4;2;7;4;4;7;7
].

(** [this.cycleTable[op] || 2] *)
Definition baseCycles (op : Z) : Z :=
  match (if op <? 0 then None else cycleTable !! Z.to_nat op) with
  | Some c => if c =? 0 then 2 else c
  | None => 2
  end.

(** ** Instruction map *)
Inductive instr : Type :=
| KIL
    (* console.warn(...); this.PC = (this.PC - 1) & 0xFFFF *)
| Implied (f : cpu -> cpu)
    (* () => this.F() *)
| With (e : arg) (f : Z -> cpu -> cpu)
    (* () => this.F(e) *)
| Skip (e : arg).
    (* () => { e; this.NOP(); } *)

Definition exec (i : instr) (s : cpu) : cpu :=
  match i with
  | KIL => set_rPC (Z.land (rPC s - 1) 0xFFFF) s
  | Implied f => f s
  | With e f => let '(x, s) := e s in f x s
  | Skip e => let '(_, s) := e s in NOP s
  end.

(** The assignments of [setupInstructions], in source order. *)
Definition assignments : list (Z * instr) := [
    (0x00, Implied BRK);
    (0xEA, Implied NOP);
    (0xA9, With imm LDA);
    (0xA5, With zp LDA);
    (0xB5, With zpx LDA);
    (0xAD, With abs LDA);
    (0xBD, With (readAt absXAddr) LDA);
    (0xB9, With (readAt absYAddr) LDA);
    (0xA1, With (readAt indx) LDA);
    (0xB1, With (readAt indy) LDA);
    (0x85, With zpAddrMasked STA);
    (0x95, With zpxAddr STA);
    (0x8D, With absAddr STA);
    (0x9D, With absXAddr STA);
    (0x99, With absYAddr STA);
    (0x81, With indx STA);
    (0x91, With indy STA);
    (0xA2, With imm LDX);
    (0xA6, With zp LDX);
    (0xB6, With zpy LDX);
    (0xAE, With abs LDX);
    (0xBE, With (readAt absYAddr) LDX);
    (0x86, With fetch STX);
    (0x96, With zpyAddr STX);
    (0x8E, With absAddr STX);
    (0xA0, With imm LDY);
    (0xA4, With zp LDY);
    (0xB4, With zpx LDY);
    (0xAC, With abs LDY);
    (0xBC, With (readAt absXAddr) LDY);
    (0x84, With fetch STY);
    (0x94, With zpxAddr STY);
    (0x8C, With absAddr STY);
    (0xAA, Implied TAX);
    (0x8A, Implied TXA);
    (0xA8, Implied TAY);
    (0x98, Implied TYA);
    (0xBA, Implied TSX);
    (0x9A, Implied TXS);
    (0x48, Implied PHA);
    (0x68, Implied PLA);
    (0x08, Implied PHP);
    (0x28, Implied PLP);
    (0xE8, Implied INX);
    (0xCA, Implied DEX);
    (0xC8, Implied INY);
    (0x88, Implied DEY);
    (0xE6, With fetch INC);
    (0xF6, With zpxAddr INC);
    (0xEE, With absAddr INC);
    (0xFE, With absXAddr INC);
    (0xC6, With fetch DEC);
    (0xD6, With zpxAddr DEC);
    (0xCE, With absAddr DEC);
    (0xDE, With absXAddr DEC);
    (0x69, With imm ADC);
    (0x65, With zp ADC);
    (0x75, With zpx ADC);
    (0x6D, With abs ADC);
    (0x7D, With (readAt absXAddr) ADC);
    (0x79, With (readAt absYAddr) ADC);
    (0x61, With (readAt indx) ADC);
    (0x71, With (readAt indy) ADC);
    (0xE9, With imm SBC);
    (0xE5, With zp SBC);
    (0xF5, With zpx SBC);
    (0xED, With abs SBC);
    (0xFD, With (readAt absXAddr) SBC);
    (0xF9, With (readAt absYAddr) SBC);
    (0xE1, With (readAt indx) SBC);
    (0xF1, With (readAt indy) SBC);
    (0x29, With imm AND);
    (0x25, With zp AND);
    (0x35, With zpx AND);
    (0x2D, With abs AND);
    (0x3D, With (readAt absXAddr) AND);
    (0x39, With (readAt absYAddr) AND);
    (0x21, With (readAt indx) AND);
    (0x31, With (readAt indy) AND);
    (0x09, With imm ORA);
    (0x05, With zp ORA);
    (0x15, With zpx ORA);
    (0x0D, With abs ORA);
    (0x1D, With (readAt absXAddr) ORA);
    (0x19, With (readAt absYAddr) ORA);
    (0x01, With (readAt indx) ORA);
    (0x11, With (readAt indy) ORA);
    (0x49, With imm EOR);
    (0x45, With zp EOR);
    (0x55, With zpx EOR);
    (0x4D, With abs EOR);
    (0x5D, With (readAt absXAddr) EOR);
    (0x59, With (readAt absYAddr) EOR);
    (0x41, With (readAt indx) EOR);
    (0x51, With (readAt indy) EOR);
    (0xC9, With imm CMP);
    (0xC5, With zp CMP);
    (0xD5, With zpx CMP);
    (0xCD, With abs CMP);
    (0xDD, With (readAt absXAddr) CMP);
    (0xD9, With (readAt absYAddr) CMP);
    (0xC1, With (readAt indx) CMP);
    (0xD1, With (readAt indy) CMP);
    (0xE0, With imm CPX);
    (0xE4, With zp CPX);
    (0xEC, With abs CPX);
    (0xC0, With imm CPY);
    (0xC4, With zp CPY);
    (0xCC, With abs CPY);
    (0x24, With zp BIT);
    (0x2C, With abs BIT);
    (0x0A, Implied ASL_A);
    (0x06, With fetch ASL);
    (0x16, With zpxAddr ASL);
    (0x0E, With absAddr ASL);
    (0x1E, With absXAddr ASL);
    (0x4A, Implied LSR_A);
    (0x46, With fetch LSR);
    (0x56, With zpxAddr LSR);
    (0x4E, With absAddr LSR);
    (0x5E, With absXAddr LSR);
    (0x2A, Implied ROL_A);
    (0x26, With fetch ROL);
    (0x36, With zpxAddr ROL);
    (0x2E, With absAddr ROL);
    (0x3E, With absXAddr ROL);
    (0x6A, Implied ROR_A);
    (0x66, With fetch ROR);
    (0x76, With zpxAddr ROR);
    (0x6E, With absAddr ROR);
    (0x7E, With absXAddr ROR);
    (0x90, With rel BCC);
    (0xB0, With rel BCS);
    (0xF0, With rel BEQ);
    (0x30, With rel BMI);
    (0xD0, With rel BNE);
    (0x10, With rel BPL);
    (0x50, With rel BVC);
    (0x70, With rel BVS);
    (0x4C, With absAddr JMP);
    (0x6C, With ind JMP);
    (0x20, With absAddr JSR);
    (0x60, Implied RTS);
    (0x40, Implied RTI);
    (0x18, Implied CLC);
    (0x38, Implied SEC);
    (0x58, Implied CLI);
    (0x78, Implied SEI);
    (0xB8, Implied CLV);
    (0xD8, Implied CLD);
    (0xF8, Implied SED);
    (0xA7, With zp LAX);
    (0xB7, With zpy LAX);
    (0xAF, With abs LAX);
    (0xBF, With (readAt absYAddr) LAX);
    (0xA3, With (readAt indx) LAX);
    (0xB3, With (readAt indy) LAX);
    (0x87, With fetch SAX);
    (0x97, With zpyAddr SAX);
    (0x8F, With absAddr SAX);
    (0x83, With indx SAX);
    (0xC7, With fetch DCP);
    (0xD7, With zpxAddr DCP);
    (0xCF, With absAddr DCP);
    (0xDF, With absXAddr DCP);
    (0xDB, With absYAddr DCP);
    (0xC3, With indx DCP);
    (0xD3, With indy DCP);
    (0xE7, With fetch ISC);
    (0xF7, With zpxAddr ISC);
    (0xEF, With absAddr ISC);
    (0xFF, With absXAddr ISC);
    (0xFB, With absYAddr ISC);
    (0xE3, With indx ISC);
    (0xF3, With indy ISC);
    (0x07, With fetch SLO);
    (0x17, With zpxAddr SLO);
    (0x0F, With absAddr SLO);
    (0x1F, With absXAddr SLO);
    (0x1B, With absYAddr SLO);
    (0x03, With indx SLO);
    (0x13, With indy SLO);
    (0x27, With fetch RLA);
    (0x37, With zpxAddr RLA);
    (0x2F, With absAddr RLA);
    (0x3F, With absXAddr RLA);
    (0x3B, With absYAddr RLA);
    (0x23, With indx RLA);
    (0x33, With indy RLA);
    (0x47, With fetch SRE);
    (0x57, With zpxAddr SRE);
    (0x4F, With absAddr SRE);
    (0x5F, With absXAddr SRE);
    (0x5B, With absYAddr SRE);
    (0x43, With indx SRE);
    (0x53, With indy SRE);
    (0x67, With fetch RRA);
    (0x77, With zpxAddr RRA);
    (0x6F, With absAddr RRA);
    (0x7F, With absXAddr RRA);
    (0x7B, With absYAddr RRA);
    (0x63, With indx RRA);
    (0x73, With indy RRA);
    (0x1A, Implied NOP);
    (0x3A, Implied NOP);
    (0x5A, Implied NOP);
    (0x7A, Implied NOP);
    (0xDA, Implied NOP);
    (0xFA, Implied NOP);
    (0x04, Skip pcPostInc);
    (0x44, Skip pcPostInc);
    (0x64, Skip pcPostInc);
    (0x14, Skip pcPostInc);
    (0x34, Skip pcPostInc);
    (0x54, Skip pcPostInc);
    (0x74, Skip pcPostInc);
    (0xD4, Skip pcPostInc);
    (0xF4, Skip pcPostInc);
    (0x0C, Skip pcAdd2);
    (0x1C, Skip absXAddr);
    (0x3C, Skip absXAddr);
    (0x5C, Skip absXAddr);
    (0x7C, Skip absXAddr);
    (0xDC, Skip absXAddr);
    (0xFC, Skip absXAddr);
    (0x80, Skip pcPostInc);
    (0x82, Skip pcPostInc);
    (0x89, Skip pcPostInc);
    (0xC2, Skip pcPostInc);
    (0xE2, Skip pcPostInc)
].

(** The entry an opcode ends up with: the last assignment to it. *)
Fixpoint assigned (op : Z) (l : list (Z * instr)) : option instr :=
  match l with
  | [] => None
  | (k, i) :: l' =>
      match assigned op l' with
      | Some j => Some j
      | None => if k =? op then Some i else None
      end
  end.

Definition instructionMap (op : Z) : option instr :=
  if (0 <=? op) && (op <? 256)
  then Some (default KIL (assigned op assignments))
  else None.

(** ** Reset *)

Definition reset (s : cpu) : cpu :=
  let s := set_rY 0 s in
  let s := set_rX 0 s in
  let s := set_rA 0 s in
  let s := set_rS 0xFF s in
  let s := set_fN 0 s in
  let s := set_fV 0 s in
  let s := set_fB 0 s in
  let s := set_fD 0 s in
  let s := set_fI 0 s in
  let s := set_fZ 0 s in
  let s := set_fC 0 s in
  let s := set_fI 1 s in
  let s := set_fB 0 s in
  let lo := read s 0xFFFC in
  let hi := read s 0xFFFD in
  let s := set_rPC (word lo hi) s in
  let s := set_cycles 7 s in
  set_totalCycles (totalCycles s + 7) s.

(** ** Execute one instruction *)

Definition needsPageCrossPenalty (op : Z) : bool :=
  existsb (Z.eqb op)
    [0x1D; 0x19; 0x39; 0x3D; 0x59; 0x5D; 0x79; 0x7D;
     0xB1; 0xB9; 0xBD; 0xBE; 0xBC; 0xD1; 0xD9; 0xDD;
     0xF1; 0xF9; 0xFD; 0x1C; 0x3C; 0x5C; 0x7C; 0xDC;
     0xFC; 0xBF; 0xB3; 0x1B; 0x3B; 0x5B; 0x7B; 0xDB;
     0xFB; 0xDF; 0xFF; 0x9C; 0x9E].

Definition step (s : cpu) : Z * cpu :=
  let '(op, s) := fetch s in
  let s := set_opcode op s in
  let s := set_pageCrossed false s in
  let s := set_cycles (baseCycles (opcode s)) s in
  let s :=
    match instructionMap (Z.land (opcode s) 0xFF) with
    | Some instr => exec instr s
    | None => s                       (* console.warn("Unimplemented ...") *)
    end in
  let s :=
    if pageCrossed s && needsPageCrossPenalty (opcode s)
    then set_cycles (cycles s + 1) s else s in
  let s := set_totalCycles (totalCycles s + cycles s) s in
  (cycles s, s).

(** ** Run for a number of cycles

    The [while] loop, bounded by [fuel] as in the later release. *)
Fixpoint runLoop (fuel : nat) (start target : Z) (s : cpu) : option cpu :=
  if totalCycles s - start <? target then
    match fuel with
    | O => None
    | S fuel' => runLoop fuel' start target (snd (step s))
    end
  else Some s.

Definition runCycles (fuel : nat) (target : Z) (s : cpu) : option (Z * cpu) :=
  let start := totalCycles s in
  match runLoop fuel start target s with
  | Some s' => Some (totalCycles s' - start, s')
  | None => None
  end.


(** The state in which the closure of the fetched opcode runs. *)
Definition fetched (s : cpu) : cpu :=
  set_cycles (baseCycles (read s (rPC s)))
    (set_pageCrossed false
       (set_opcode (read s (rPC s)) (set_rPC (rPC s + 1) s))).

(** The page-cross penalty [step] adds after the closure has run. *)
Definition penalized (s : cpu) : cpu :=
  if pageCrossed s && needsPageCrossPenalty (opcode s)
  then set_cycles (cycles s + 1) s else s.

(** ** Predicates of the statements *)

Definition flags_ok (s : cpu) : Prop :=
  flag_ok (fC s) /\ flag_ok (fZ s) /\ flag_ok (fI s) /\ flag_ok (fD s) /\
  flag_ok (fB s) /\ flag_ok (fV s) /\ flag_ok (fN s).

(** The declared widths of all registers. *)
Definition in_width (s : cpu) : Prop :=
  byte_ok (rA s) /\ byte_ok (rX s) /\ byte_ok (rY s) /\ byte_ok (rS s) /\
  flags_ok s /\ 0 <= rPC s <= 0xFFFF.

(** What the body of an instruction leaves alone: [totalCycles] and
    [opcode]; [cycles] may only grow. *)
Definition steady (s s' : cpu) : Prop :=
  totalCycles s' = totalCycles s /\ opcode s' = opcode s /\
  cycles s <= cycles s'.

Definition isKIL (i : option instr) : bool :=
  match i with Some KIL => true | _ => false end.

(** ** States used in the examples *)

(** [bytes] stored from [base] on. *)
Definition load (base : Z) (bs : list Z) (s : cpu) : cpu :=
  snd (fold_left (fun '(a, s) b => (a + 1, write a b s)) bs (base, s)).

(** A 64 KB machine about to fetch a NOP from the last address. *)
Definition pcAtTop : cpu := set_rPC 0xFFFF (write 0xFFFF 0xEA (MOSE 0x10000)).

(** LDA $02FF,X and STA $02FF,X with X = 1: the index crosses into page 3. *)
Definition ldaCrossing : cpu :=
  set_rX 1 (set_rPC 0x0600 (load 0x0600 [0xBD; 0xFF; 0x02] (MOSE 0x1000))).
Definition staCrossing : cpu :=
  set_rX 1 (set_rPC 0x0600 (load 0x0600 [0x9D; 0xFF; 0x02] (MOSE 0x1000))).

(** A machine in decimal mode holding 9, as after SED; LDA #$09. *)
Definition decimalNine : cpu := set_fD 1 (set_rA 0x09 (MOSE 0x1000)).

End MoseR235.

(** * The test harness of release 010426.330

    [runTest] and [runTestSuite], the two methods of class [mose] that
    drive the core from a test description.  A test is a JavaScript object;
    its optional numeric properties are [option Z] here, [None] standing for
    a property that is [undefined].  What the methods print with
    [console.log] is not part of the model. *)

From Stdlib Require String Ascii.

Module MoseTests.
Import Mose.
Import Ascii String.

(** [x || d] on a number that may be undefined: 0 is falsy too. *)
Definition orElse (o : option Z) (d : Z) : Z :=
  match o with
  | Some v => if v =? 0 then d else v
  | None => d
  end.

(** [test.initial] and [test.final] *)
Record testState : Type := mkTestState {
  tA : option Z; tX : option Z; tY : option Z; tS : option Z;
  tPC : option Z; tP : option Z;
  tram : option (list (Z * Z))
}.

Record test : Type := mkTest {
  initial : testState;
  final : testState;
  tcycles : option Z;
  tname : option String.string
}.

(** [{ passed, errors, name }] *)
Record testResult : Type := mkTestResult {
  passed : bool;
  errors : list String.string;
  name : String.string
}.

(** ** Numbers in messages

    [n.toString(radix)] for an integer [n], radix 10 or 16. *)
Definition digitChar (d : Z) : Ascii.ascii :=
  nth (Z.to_nat d)
      ["0"%char; "1"%char; "2"%char; "3"%char; "4"%char; "5"%char; "6"%char;
       "7"%char; "8"%char; "9"%char; "a"%char; "b"%char; "c"%char; "d"%char;
       "e"%char; "f"%char] "0"%char.

Fixpoint digits (fuel : nat) (radix n : Z) (acc : String.string) : String.string :=
  match fuel with
  | O => acc
  | S fuel' =>
      let acc := String.String (digitChar (n mod radix)) acc in
      if n / radix =? 0 then acc else digits fuel' radix (n / radix) acc
  end.

Definition toString (radix n : Z) : String.string :=
  if n <? 0
  then String.String "-"%char
         (digits (S (Z.to_nat (Z.log2 (- n)))) radix (- n) String.EmptyString)
  else digits (S (Z.to_nat (Z.log2 n))) radix n String.EmptyString.

(** ** [runTest] *)

(** Set the initial state and load the memory. *)
Definition prepare (t : test) (s : cpu) : cpu :=
  let s := set_rA (orElse (tA (initial t)) 0) s in
  let s := set_rX (orElse (tX (initial t)) 0) s in
  let s := set_rY (orElse (tY (initial t)) 0) s in
  let s := set_rS (orElse (tS (initial t)) 0xFF) s in
  let s := set_rPC (orElse (tPC (initial t)) 0) s in
  let s := setStatus (orElse (tP (initial t)) 0) s in
  match tram (initial t) with
  | Some l => fold_left (fun s e => write (fst e) (snd e) s) l s
  | None => s
  end.

(** One comparison of the final state: no message when the expectation is
    absent or met. *)
Definition expect (label : String.string) (radix : Z) (expected : option Z) (got : Z)
    : list String.string :=
  match expected with
  | Some e =>
      if e =? got then []
      else [String.append label
              (String.append ": expected "%string
                 (String.append (toString radix e)
                    (String.append ", got "%string (toString radix got))))]
  | None => []
  end.

Definition expectRam (s : cpu) (e : Z * Z) : list String.string :=
  let actual := read s (fst e) in
  if actual =? snd e then []
  else [String.append "RAM[0x"%string
          (String.append (toString 16 (fst e))
             (String.append "]: expected "%string
                (String.append (toString 10 (snd e))
                   (String.append ", got "%string (toString 10 actual)))))].

Definition expectCycles (expected : option Z) (got : Z) : list String.string :=
  match expected with
  | Some c =>
      if (c =? 0) || (c =? got) then []
      else [String.append "Cycles: expected "%string
              (String.append (toString 10 c)
                 (String.append ", got "%string (toString 10 got)))]
  | None => []
  end.

(** The checks of the final state, in the order of the source. *)
Definition verdict (t : test) (s : cpu) : list String.string :=
  expect "A"%string 10 (tA (final t)) (rA s) ++
  expect "X"%string 10 (tX (final t)) (rX s) ++
  expect "Y"%string 10 (tY (final t)) (rY s) ++
  expect "S"%string 10 (tS (final t)) (rS s) ++
  expect "PC"%string 10 (tPC (final t)) (rPC s) ++
  expect "P"%string 16 (tP (final t)) (getStatus s) ++
  match tram (final t) with
  | Some l => flat_map (expectRam s) l
  | None => []
  end ++
  expectCycles (tcycles t) (cycles s).

Definition runTest (t : test) (s : cpu) : testResult * cpu :=
  let s := prepare t s in
  let s := snd (step s) in
  let errs := verdict t s in
  (mkTestResult (match errs with [] => true | _ => false end) errs
     (match tname t with
      | Some n => if String.eqb n String.EmptyString then "unnamed test"%string else n
      | None => "unnamed test"%string
      end),
   s).

(** ** [runTestSuite]

    The tests run one after the other on the same machine. *)
Fixpoint runTests (tests : list test) (s : cpu) : list testResult * cpu :=
  match tests with
  | [] => ([], s)
  | t :: rest =>
      let '(r, s) := runTest t s in
      let '(rs, s) := runTests rest s in
      (r :: rs, s)
  end.

(** [{ passed, failed, results }] *)
Record suiteResult : Type := mkSuiteResult {
  suitePassed : Z;
  suiteFailed : Z;
  results : list testResult
}.

Definition runTestSuite (tests : list test) (s : cpu) : suiteResult * cpu :=
  let '(rs, s) := runTests tests s in
  (mkSuiteResult (Z.of_nat (List.length (List.filter passed rs)))
     (Z.of_nat (List.length (List.filter (fun r => negb (passed r)) rs)))
     rs,
   s).

End MoseTests.

(** * Bytes and bit operations *)

Lemma in_bytes (z : Z) : byte_ok z -> In z bytes.
Proof.
  unfold byte_ok, bytes. intros H.
  replace z with (Z.of_nat (Z.to_nat z)) by lia.
  apply in_map, in_seq. lia.
Qed.

Lemma all_bytes (f : Z -> bool) :
  forallb f bytes = true -> forall z, byte_ok z -> f z = true.
Proof.
  intros H z Hz. rewrite forallb_forall in H. apply H, in_bytes, Hz.
Qed.

Lemma all_bytes2 (f : Z -> Z -> bool) :
  forallb (fun a => forallb (f a) bytes) bytes = true ->
  forall a v, byte_ok a -> byte_ok v -> f a v = true.
Proof.
  intros H a v Ha Hv.
  apply (all_bytes (f a)); [ | exact Hv ].
  apply (all_bytes (fun a => forallb (f a) bytes)); assumption.
Qed.

Lemma all_bytes2b (f : Z -> Z -> bool -> bool) :
  forallb (fun a => forallb (fun v => f a v true && f a v false) bytes) bytes = true ->
  forall a v b, byte_ok a -> byte_ok v -> f a v b = true.
Proof.
  intros H a v b Ha Hv.
  pose proof (all_bytes2 (fun a v => f a v true && f a v false) H a v Ha Hv) as E.
  apply andb_true_iff in E. destruct b; tauto.
Qed.

Lemma byte_ok_land (x : Z) : byte_ok (Z.land x 0xFF).
Proof.
  unfold byte_ok. change (Z.land x 0xFF) with (Z.land x (Z.ones 8)).
  rewrite Z.land_ones by lia.
  change (2 ^ 8) with 256. pose proof (Z.mod_pos_bound x 256). lia.
Qed.

Lemma land_byte_id (v : Z) : byte_ok v -> Z.land v 0xFF = v.
Proof.
  intros H. change (Z.land v 0xFF) with (Z.land v (Z.ones 8)).
  rewrite Z.land_ones by lia. apply Z.mod_small. unfold byte_ok in H.
  change (2 ^ 8) with 256. lia.
Qed.

Lemma byte_ok_land_mask (x m : Z) : byte_ok m -> byte_ok (Z.land x m).
Proof.
  intros H. rewrite <- (land_byte_id m H), Z.land_assoc. apply byte_ok_land.
Qed.

Lemma byte_ok_lor (a b : Z) : byte_ok a -> byte_ok b -> byte_ok (Z.lor a b).
Proof.
  intros Ha Hb. rewrite <- (land_byte_id a Ha), <- (land_byte_id b Hb).
  rewrite <- Z.land_lor_distr_l. apply byte_ok_land.
Qed.

Lemma byte_ok_lxor (a b : Z) : byte_ok a -> byte_ok b -> byte_ok (Z.lxor a b).
Proof.
  intros Ha Hb. rewrite <- (land_byte_id a Ha), <- (land_byte_id b Hb).
  replace (Z.lxor (Z.land a 255) (Z.land b 255)) with (Z.land (Z.lxor a b) 255);
    [ apply byte_ok_land | ].
  apply Z.bits_inj'. intros n _.
  rewrite Z.lxor_spec, !Z.land_spec, Z.lxor_spec.
  destruct (Z.testbit a n), (Z.testbit b n), (Z.testbit 255 n); reflexivity.
Qed.

Lemma byte_ok_0 : byte_ok 0.
Proof. unfold byte_ok; lia. Qed.

Lemma byte_ok_255 : byte_ok 0xFF.
Proof. unfold byte_ok; lia. Qed.

Lemma flag_ok_land (x : Z) : flag_ok (Z.land x 1).
Proof.
  unfold flag_ok. change (Z.land x 1) with (Z.land x (Z.ones 1)).
  rewrite Z.land_ones by lia.
  change (2 ^ 1) with 2. pose proof (Z.mod_pos_bound x 2). lia.
Qed.

Lemma flag_ok_b2z (b : bool) : flag_ok (b2z b).
Proof. destruct b; [right | left]; reflexivity. Qed.

Lemma flag_ok_0 : flag_ok 0.
Proof. left; reflexivity. Qed.

Lemma flag_ok_1 : flag_ok 1.
Proof. right; reflexivity. Qed.

Lemma flag_ok_if (b : bool) : flag_ok (if b then 0 else 1).
Proof. destruct b; [left | right]; reflexivity. Qed.

Lemma land16_nonneg (x : Z) : 0 <= Z.land x 0xFFFF.
Proof. apply Z.land_nonneg. right. lia. Qed.

Lemma land16_range (x : Z) : 0 <= Z.land x 0xFFFF <= 0xFFFF.
Proof.
  change (Z.land x 0xFFFF) with (Z.land x (Z.ones 16)).
  rewrite Z.land_ones by lia.
  change (2 ^ 16) with 65536. pose proof (Z.mod_pos_bound x 65536). lia.
Qed.

Lemma land16_id (x : Z) : 0 <= x <= 0xFFFF -> Z.land x 0xFFFF = x.
Proof.
  intros H. change (Z.land x 0xFFFF) with (Z.land x (Z.ones 16)).
  rewrite Z.land_ones by lia. apply Z.mod_small.
  change (2 ^ 16) with 65536. lia.
Qed.

Lemma word_nonneg (lo hi : Z) : 0 <= word lo hi.
Proof. apply land16_nonneg. Qed.

Lemma word_range (lo hi : Z) : 0 <= word lo hi <= 0xFFFF.
Proof. apply land16_range. Qed.

(** A word assembled from two bytes is the little-endian number they spell. *)
Lemma word_little_endian (lo hi : Z) :
  byte_ok lo -> byte_ok hi -> word lo hi = lo + 256 * hi.
Proof.
  intros Hlo Hhi. apply Z.eqb_eq. revert lo hi Hlo Hhi.
  refine (all_bytes2 _ _). vm_compute. reflexivity.
Qed.

Create HintDb ranges discriminated.
#[local] Hint Resolve byte_ok_land flag_ok_land flag_ok_b2z flag_ok_0 flag_ok_1
  flag_ok_if land16_nonneg word_nonneg byte_ok_0 byte_ok_255 byte_ok_land_mask : ranges.

(** * Release 010426.330: frame and width lemmas *)

Section R330.
Import Mose.

Lemma byte_ok_read (s : cpu) (a : Z) : byte_ok (read s a).
Proof.
  unfold read. destruct (_ <? _); [ apply byte_ok_land | apply byte_ok_255 ].
Qed.

Lemma flag_ok_addOverflow (a v r : Z) : flag_ok (addOverflow a v r).
Proof. apply flag_ok_b2z. Qed.

#[local] Hint Resolve byte_ok_read flag_ok_addOverflow : ranges.

(** [read] looks at the RAM only. *)
Lemma read_ram (s t : cpu) (a : Z) : ram s = ram t -> read s a = read t a.
Proof. intros E. unfold read, ramLength. rewrite E. reflexivity. Qed.

Lemma good_refl k s : good k s s.
Proof. unfold good, steady. intuition lia. Qed.

Lemma good_trans k s t u : good k s t -> good k t u -> good k s u.
Proof.
  unfold good, steady.
  intros [(a1&a2&a3&a4&a5&a6&a7&a8) [Hr Hs]] [(b1&b2&b3&b4&b5&b6&b7&b8) [Hr' Hs']].
  split; [ | split; [ auto | intros K; rewrite Hs', Hs; auto ] ].
  repeat apply conj; try congruence; lia.
Qed.

Lemma good_weaken k s t : good true s t -> good k s t.
Proof.
  unfold good. intros (H1 & H2 & H3).
  split; [ exact H1 | split; [ exact H2 | intros _; apply H3; reflexivity ] ].
Qed.

Ltac setter_good :=
  intros; unfold good, steady, regs_ok, flags_ok; cbn;
  split; [ repeat apply conj; reflexivity || lia | split; [ tauto | reflexivity ] ].

Lemma good_set_rA k v s : byte_ok v -> good k s (set_rA v s).
Proof. setter_good. Qed.
Lemma good_set_rX k v s : byte_ok v -> good k s (set_rX v s).
Proof. setter_good. Qed.
Lemma good_set_rY k v s : byte_ok v -> good k s (set_rY v s).
Proof. setter_good. Qed.
Lemma good_set_rS v s : byte_ok v -> good false s (set_rS v s).
Proof.
  intros; unfold good, steady, regs_ok, flags_ok; cbn;
  split; [ repeat apply conj; reflexivity || lia | split; [ tauto | discriminate ] ].
Qed.
Lemma good_set_rPC k v s : 0 <= v -> good k s (set_rPC v s).
Proof. setter_good. Qed.
Lemma good_set_fC k v s : flag_ok v -> good k s (set_fC v s).
Proof. setter_good. Qed.
Lemma good_set_fZ k v s : flag_ok v -> good k s (set_fZ v s).
Proof. setter_good. Qed.
Lemma good_set_fI k v s : flag_ok v -> good k s (set_fI v s).
Proof. setter_good. Qed.
Lemma good_set_fD k v s : flag_ok v -> good k s (set_fD v s).
Proof. setter_good. Qed.
Lemma good_set_fB k v s : flag_ok v -> good k s (set_fB v s).
Proof. setter_good. Qed.
Lemma good_set_fV k v s : flag_ok v -> good k s (set_fV v s).
Proof. setter_good. Qed.
Lemma good_set_fN k v s : flag_ok v -> good k s (set_fN v s).
Proof. setter_good. Qed.

(** Updates whose new value is read off the state itself. *)
Lemma good_pc_inc k s : good k s (set_rPC (rPC s + 1) s).
Proof.
  unfold good, steady, regs_ok, flags_ok; cbn.
  split; [ repeat apply conj; reflexivity || lia | split; [ intuition lia | reflexivity ] ].
Qed.

Lemma good_cycles_inc k s : good k s (set_cycles (cycles s + 1) s).
Proof. setter_good. Qed.

Lemma good_fC_fN k s : good k s (set_fC (fN s) s).
Proof. setter_good. Qed.

Lemma good_ora k w s : byte_ok w -> good k s (set_rA (Z.lor (rA s) w) s).
Proof.
  intros Hw. unfold good, steady, regs_ok, flags_ok; cbn.
  split; [ repeat apply conj; reflexivity || lia | split; [ | reflexivity ] ].
  intros (HA & H). split; [ apply byte_ok_lor; assumption | exact H ].
Qed.

Lemma good_eor k w s : byte_ok w -> good k s (set_rA (Z.lxor (rA s) w) s).
Proof.
  intros Hw. unfold good, steady, regs_ok, flags_ok; cbn.
  split; [ repeat apply conj; reflexivity || lia | split; [ | reflexivity ] ].
  intros (HA & H). split; [ apply byte_ok_lxor; assumption | exact H ].
Qed.

Lemma good_write k a v s : good k s (write a v s).
Proof.
  unfold write. destruct (_ <? _) eqn:E; [ | apply good_refl ].
  unfold good, steady, regs_ok, flags_ok; cbn.
  split; [ repeat apply conj; try reflexivity; try lia | split; [ tauto | reflexivity ] ].
  apply length_insert.
Qed.

Create HintDb good discriminated.
#[local] Hint Constants Opaque : good.
#[local] Hint Resolve good_set_rA good_set_rX good_set_rY good_set_rS good_set_rPC
  good_set_fC good_set_fZ good_set_fI good_set_fD good_set_fB good_set_fV good_set_fN
  good_pc_inc good_cycles_inc good_fC_fN good_write good_ora good_eor : good.

(** One step of a frame proof: split off the outermost update of the state,
    or take a branch of a conditional. *)
Ltac peel :=
  lazymatch goal with
  | |- good _ ?s ?s => apply good_refl
  | |- good _ ?s (if ?c then _ else _) => destruct c
  | |- good _ ?s (match (if ?c then _ else _) with | pair _ _ => _ end) => destruct c
  | |- good ?k ?s (?f ?v ?t) =>
      apply (good_trans k s t); [ | solve [ auto with good ranges ] ]
  | |- good ?k ?s (?f ?t) =>
      apply (good_trans k s t); [ | solve [ auto with good ranges ] ]
  end.

Tactic Notation "op_good" constr(f) :=
  intros; cbv beta iota zeta delta [f pop pcPostInc fetch fst snd]; repeat peel.

Lemma good_setZN k v s : good k s (setZN v s).
Proof. op_good setZN. Qed.
#[local] Hint Resolve good_setZN : good.
Lemma good_setStatus k v s : good k s (setStatus v s).
Proof. op_good setStatus. Qed.
Lemma good_push v s : good false s (push v s).
Proof. op_good push. Qed.
Lemma good_compare k r v s : good k s (compare r v s).
Proof. op_good compare. Qed.
Lemma good_takeBranch k a s : 0 <= a -> good k s (takeBranch a s).
Proof. op_good takeBranch. Qed.
#[local] Hint Resolve good_setStatus good_push good_compare good_takeBranch : good.

(** The operations, one lemma each. *)
Lemma good_BRK s : good false s (BRK s).
Proof. op_good BRK. Qed.
#[local] Hint Resolve good_BRK : good.
Lemma good_NOP k s : good k s (NOP s).
Proof. op_good NOP. Qed.
#[local] Hint Resolve good_NOP : good.
Lemma good_TAX k s : good k s (TAX s).
Proof. op_good TAX. Qed.
#[local] Hint Resolve good_TAX : good.
Lemma good_TXA k s : good k s (TXA s).
Proof. op_good TXA. Qed.
#[local] Hint Resolve good_TXA : good.
Lemma good_TAY k s : good k s (TAY s).
Proof. op_good TAY. Qed.
#[local] Hint Resolve good_TAY : good.
Lemma good_TYA k s : good k s (TYA s).
Proof. op_good TYA. Qed.
#[local] Hint Resolve good_TYA : good.
Lemma good_TSX k s : good k s (TSX s).
Proof. op_good TSX. Qed.
#[local] Hint Resolve good_TSX : good.
Lemma good_TXS s : good false s (TXS s).
Proof. op_good TXS. Qed.
#[local] Hint Resolve good_TXS : good.
Lemma good_PHA s : good false s (PHA s).
Proof. op_good PHA. Qed.
#[local] Hint Resolve good_PHA : good.
Lemma good_PLA s : good false s (PLA s).
Proof. op_good PLA. Qed.
#[local] Hint Resolve good_PLA : good.
Lemma good_PHP s : good false s (PHP s).
Proof. op_good PHP. Qed.
#[local] Hint Resolve good_PHP : good.
Lemma good_PLP s : good false s (PLP s).
Proof. op_good PLP. Qed.
#[local] Hint Resolve good_PLP : good.
Lemma good_INX k s : good k s (INX s).
Proof. op_good INX. Qed.
#[local] Hint Resolve good_INX : good.
Lemma good_DEX k s : good k s (DEX s).
Proof. op_good DEX. Qed.
#[local] Hint Resolve good_DEX : good.
Lemma good_INY k s : good k s (INY s).
Proof. op_good INY. Qed.
#[local] Hint Resolve good_INY : good.
Lemma good_DEY k s : good k s (DEY s).
Proof. op_good DEY. Qed.
#[local] Hint Resolve good_DEY : good.
Lemma good_CLC k s : good k s (CLC s).
Proof. op_good CLC. Qed.
#[local] Hint Resolve good_CLC : good.
Lemma good_SEC k s : good k s (SEC s).
Proof. op_good SEC. Qed.
#[local] Hint Resolve good_SEC : good.
Lemma good_CLI k s : good k s (CLI s).
Proof. op_good CLI. Qed.
#[local] Hint Resolve good_CLI : good.
Lemma good_SEI k s : good k s (SEI s).
Proof. op_good SEI. Qed.
#[local] Hint Resolve good_SEI : good.
Lemma good_CLV k s : good k s (CLV s).
Proof. op_good CLV. Qed.
#[local] Hint Resolve good_CLV : good.
Lemma good_CLD k s : good k s (CLD s).
Proof. op_good CLD. Qed.
#[local] Hint Resolve good_CLD : good.
Lemma good_SED k s : good k s (SED s).
Proof. op_good SED. Qed.
#[local] Hint Resolve good_SED : good.
Lemma good_RTS s : good false s (RTS s).
Proof. op_good RTS. Qed.
#[local] Hint Resolve good_RTS : good.
Lemma good_RTI s : good false s (RTI s).
Proof. op_good RTI. Qed.
#[local] Hint Resolve good_RTI : good.
Lemma good_ASL_A k s : good k s (ASL_A s).
Proof. op_good ASL_A. Qed.
#[local] Hint Resolve good_ASL_A : good.
Lemma good_LSR_A k s : good k s (LSR_A s).
Proof. op_good LSR_A. Qed.
#[local] Hint Resolve good_LSR_A : good.
Lemma good_ROL_A k s : good k s (ROL_A s).
Proof. op_good ROL_A. Qed.
#[local] Hint Resolve good_ROL_A : good.
Lemma good_ROR_A k s : good k s (ROR_A s).
Proof. op_good ROR_A. Qed.
#[local] Hint Resolve good_ROR_A : good.
Lemma good_LDA k v s : good k s (LDA v s).
Proof. op_good LDA. Qed.
#[local] Hint Resolve good_LDA : good.
Lemma good_STA k v s : good k s (STA v s).
Proof. op_good STA. Qed.
#[local] Hint Resolve good_STA : good.
Lemma good_LDX k v s : good k s (LDX v s).
Proof. op_good LDX. Qed.
#[local] Hint Resolve good_LDX : good.
Lemma good_STX k v s : good k s (STX v s).
Proof. op_good STX. Qed.
#[local] Hint Resolve good_STX : good.
Lemma good_LDY k v s : good k s (LDY v s).
Proof. op_good LDY. Qed.
#[local] Hint Resolve good_LDY : good.
Lemma good_STY k v s : good k s (STY v s).
Proof. op_good STY. Qed.
#[local] Hint Resolve good_STY : good.
Lemma good_INC k v s : good k s (INC v s).
Proof. op_good INC. Qed.
#[local] Hint Resolve good_INC : good.
Lemma good_DEC k v s : good k s (DEC v s).
Proof. op_good DEC. Qed.
#[local] Hint Resolve good_DEC : good.
Lemma good_JMP k v s : good k s (JMP v s).
Proof. op_good JMP. Qed.
#[local] Hint Resolve good_JMP : good.
Lemma good_JSR v s : good false s (JSR v s).
Proof. op_good JSR. Qed.
#[local] Hint Resolve good_JSR : good.
Lemma good_ADC k v s : good k s (ADC v s).
Proof. op_good ADC. Qed.
#[local] Hint Resolve good_ADC : good.
Lemma good_SBC k v s : good k s (SBC v s).
Proof. op_good SBC. Qed.
#[local] Hint Resolve good_SBC : good.
Lemma good_AND k v s : good k s (AND v s).
Proof. op_good AND. Qed.
#[local] Hint Resolve good_AND : good.
Lemma good_ORA k v s : good k s (ORA v s).
Proof. op_good ORA. Qed.
#[local] Hint Resolve good_ORA : good.
Lemma good_EOR k v s : good k s (EOR v s).
Proof. op_good EOR. Qed.
#[local] Hint Resolve good_EOR : good.
Lemma good_CMP k v s : good k s (CMP v s).
Proof. op_good CMP. Qed.
#[local] Hint Resolve good_CMP : good.
Lemma good_CPX k v s : good k s (CPX v s).
Proof. op_good CPX. Qed.
#[local] Hint Resolve good_CPX : good.
Lemma good_CPY k v s : good k s (CPY v s).
Proof. op_good CPY. Qed.
#[local] Hint Resolve good_CPY : good.
Lemma good_BIT k v s : good k s (BIT v s).
Proof. op_good BIT. Qed.
#[local] Hint Resolve good_BIT : good.
Lemma good_ASL k v s : good k s (ASL v s).
Proof. op_good ASL. Qed.
#[local] Hint Resolve good_ASL : good.
Lemma good_LSR k v s : good k s (LSR v s).
Proof. op_good LSR. Qed.
#[local] Hint Resolve good_LSR : good.
Lemma good_ROL k v s : good k s (ROL v s).
Proof. op_good ROL. Qed.
#[local] Hint Resolve good_ROL : good.
Lemma good_ROR k v s : good k s (ROR v s).
Proof. op_good ROR. Qed.
#[local] Hint Resolve good_ROR : good.
Lemma good_LAX k v s : good k s (LAX v s).
Proof. op_good LAX. Qed.
#[local] Hint Resolve good_LAX : good.
Lemma good_SAX k v s : good k s (SAX v s).
Proof. op_good SAX. Qed.
#[local] Hint Resolve good_SAX : good.
Lemma good_DCP k v s : good k s (DCP v s).
Proof. op_good DCP. Qed.
#[local] Hint Resolve good_DCP : good.
Lemma good_ISC k v s : good k s (ISC v s).
Proof. op_good ISC. Qed.
#[local] Hint Resolve good_ISC : good.
Lemma good_SLO k v s : good k s (SLO v s).
Proof. op_good SLO. Qed.
#[local] Hint Resolve good_SLO : good.
Lemma good_RLA k v s : good k s (RLA v s).
Proof. op_good RLA. Qed.
#[local] Hint Resolve good_RLA : good.
Lemma good_SRE k v s : good k s (SRE v s).
Proof. op_good SRE. Qed.
#[local] Hint Resolve good_SRE : good.
Lemma good_RRA k v s : good k s (RRA v s).
Proof. op_good RRA. Qed.
#[local] Hint Resolve good_RRA : good.
Lemma good_ANC k v s : good k s (ANC v s).
Proof. op_good ANC. Qed.
#[local] Hint Resolve good_ANC : good.
Lemma good_ALR k v s : good k s (ALR v s).
Proof. op_good ALR. Qed.
#[local] Hint Resolve good_ALR : good.
Lemma good_ARR k v s : good k s (ARR v s).
Proof. op_good ARR. Qed.
#[local] Hint Resolve good_ARR : good.
Lemma good_XAA k v s : good k s (XAA v s).
Proof. op_good XAA. Qed.
#[local] Hint Resolve good_XAA : good.
Lemma good_AXS k v s : good k s (AXS v s).
Proof. op_good AXS. Qed.
#[local] Hint Resolve good_AXS : good.
Lemma good_SHY k v s : good k s (SHY v s).
Proof. op_good SHY. Qed.
#[local] Hint Resolve good_SHY : good.
Lemma good_SHX k v s : good k s (SHX v s).
Proof. op_good SHX. Qed.
#[local] Hint Resolve good_SHX : good.
Lemma good_BCC k a s : 0 <= a -> good k s (BCC a s).
Proof. op_good BCC. Qed.
#[local] Hint Resolve good_BCC : good.
Lemma good_BCS k a s : 0 <= a -> good k s (BCS a s).
Proof. op_good BCS. Qed.
#[local] Hint Resolve good_BCS : good.
Lemma good_BEQ k a s : 0 <= a -> good k s (BEQ a s).
Proof. op_good BEQ. Qed.
#[local] Hint Resolve good_BEQ : good.
Lemma good_BNE k a s : 0 <= a -> good k s (BNE a s).
Proof. op_good BNE. Qed.
#[local] Hint Resolve good_BNE : good.
Lemma good_BPL k a s : 0 <= a -> good k s (BPL a s).
Proof. op_good BPL. Qed.
#[local] Hint Resolve good_BPL : good.
Lemma good_BMI k a s : 0 <= a -> good k s (BMI a s).
Proof. op_good BMI. Qed.
#[local] Hint Resolve good_BMI : good.
Lemma good_BVC k a s : 0 <= a -> good k s (BVC a s).
Proof. op_good BVC. Qed.
#[local] Hint Resolve good_BVC : good.
Lemma good_BVS k a s : 0 <= a -> good k s (BVS a s).
Proof. op_good BVS. Qed.
#[local] Hint Resolve good_BVS : good.

(** The addressing modes touch PC only. *)
Tactic Notation "mode_good" constr(m) :=
  intros; cbv beta iota zeta delta [m pcPostInc fetch fst snd]; repeat peel.

Lemma good_imm k s : good k s (snd (imm s)).
Proof. mode_good imm. Qed.
Lemma good_zp k s : good k s (snd (zp s)).
Proof. mode_good zp. Qed.
Lemma good_zpx k s : good k s (snd (zpx s)).
Proof. mode_good zpx. Qed.
Lemma good_zpy k s : good k s (snd (zpy s)).
Proof. mode_good zpy. Qed.
Lemma good_abs k s : good k s (snd (abs s)).
Proof. mode_good abs. Qed.
Lemma good_absx k s : good k s (snd (absx s)).
Proof. mode_good absx. Qed.
Lemma good_absy k s : good k s (snd (absy s)).
Proof. mode_good absy. Qed.
Lemma good_ind k s : good k s (snd (ind s)).
Proof.
  intros; cbv beta iota zeta delta [ind pcPostInc fetch fst snd].
  destruct (_ && _); cbv beta iota; repeat peel.
Qed.
Lemma good_indx k s : good k s (snd (indx s)).
Proof. mode_good indx. Qed.
Lemma good_indy k s : good k s (snd (indy s)).
Proof. mode_good indy. Qed.
Lemma good_rel k s : good k s (snd (rel s)).
Proof. mode_good rel. Qed.
#[local] Hint Resolve good_imm good_zp good_zpx good_zpy good_abs good_absx good_absy
  good_ind good_indx good_indy good_rel : good.

Lemma rel_address_nonneg s : 0 <= address (fst (rel s)).
Proof.
  cbv beta iota zeta delta [rel pcPostInc fetch fst snd address].
  destruct (truthy _); apply land16_nonneg.
Qed.

Lemma good_pageCrossPenalty k p o s : good k s (pageCrossPenalty p o s).
Proof. op_good pageCrossPenalty. Qed.

(** ** The shapes of closures *)

Lemma exec_KIL_good k s : good k s (exec KIL s).
Proof. op_good exec. Qed.

Lemma exec_Implied_good k f :
  (forall s, good k s (f s)) -> forall s, good k s (exec (Implied f) s).
Proof. intros H s. apply H. Qed.

Lemma exec_OnValue_good k m p f :
  (forall s, good k s (snd (m s))) -> (forall v s, good k s (f v s)) ->
  forall s, good k s (exec (OnValue m p f) s).
Proof.
  intros Hm Hf s. unfold exec. specialize (Hm s).
  destruct (m s) as [o s1]. cbn [snd] in Hm.
  eapply good_trans; [ exact Hm | ].
  eapply good_trans; [ apply good_pageCrossPenalty | apply Hf ].
Qed.

Lemma exec_OnAddress_good k m f :
  (forall s, good k s (snd (m s))) -> (forall a s, good k s (f a s)) ->
  forall s, good k s (exec (OnAddress m f) s).
Proof.
  intros Hm Hf s. unfold exec. specialize (Hm s).
  destruct (m s) as [o s1]. cbn [snd] in Hm.
  eapply good_trans; [ exact Hm | apply Hf ].
Qed.

Lemma exec_branch_good k f :
  (forall a s, 0 <= a -> good k s (f a s)) ->
  forall s, good k s (exec (OnAddress rel f) s).
Proof.
  intros Hf s. unfold exec.
  pose proof (good_rel k s) as Hm. pose proof (rel_address_nonneg s) as Ha.
  destruct (rel s) as [o s1]. cbn [fst snd] in Hm, Ha.
  eapply good_trans; [ exact Hm | apply Hf, Ha ].
Qed.

Lemma exec_Skip_good k m p :
  (forall s, good k s (snd (m s))) -> forall s, good k s (exec (Skip m p) s).
Proof.
  intros Hm s. unfold exec, NOP. specialize (Hm s).
  destruct (m s) as [o s1]. cbn [snd] in Hm.
  eapply good_trans; [ exact Hm | apply good_pageCrossPenalty ].
Qed.

Ltac entry_good :=
  lazymatch goal with
  | |- forall s, good _ s (exec (Implied _) s) => apply exec_Implied_good
  | |- forall s, good _ s (exec (OnValue _ _ _) s) => apply exec_OnValue_good
  | |- forall s, good _ s (exec (OnAddress rel _) s) => apply exec_branch_good
  | |- forall s, good _ s (exec (OnAddress _ _) s) => apply exec_OnAddress_good
  | |- forall s, good _ s (exec (Skip _ _) s) => apply exec_Skip_good
  end;
  intros; solve [ auto with good ].

(** Every assigned closure keeps the frame and the widths ... *)
Lemma assignments_good :
  Forall (fun e => forall s, good false s (exec (snd e) s)) assignments.
Proof.
  unfold assignments.
  repeat (apply List.Forall_cons; [ cbn [snd]; entry_good | ]).
  apply List.Forall_nil.
Qed.

(** ... and, unless it is a stack instruction, the stack pointer. *)
Lemma assignments_keep_stack_pointer :
  Forall (fun e => stackOpcode (fst e) = false ->
                   forall s, good true s (exec (snd e) s)) assignments.
Proof.
  unfold assignments.
  repeat (apply List.Forall_cons;
          [ cbn [fst snd]; intros Hop;
            first [ discriminate Hop | clear Hop; entry_good ] | ]).
  apply List.Forall_nil.
Qed.

Lemma assigned_Forall (P : Z * instr -> Prop) (l : list (Z * instr)) op i :
  Forall P l -> assigned op l = Some i -> P (op, i).
Proof.
  induction 1 as [ | [k j] l Hx Hl IH ]; cbn; [ discriminate | ].
  destruct (assigned op l) as [j' | ].
  - intros E. injection E as <-. apply IH. reflexivity.
  - destruct (k =? op) eqn:Ek; [ | discriminate ].
    intros E. injection E as <-. apply Z.eqb_eq in Ek. subst k. exact Hx.
Qed.

Lemma instructionMap_good op i :
  instructionMap op = Some i -> forall s, good false s (exec i s).
Proof.
  unfold instructionMap. destruct (_ && _); [ | discriminate ].
  destruct (assigned op assignments) as [j | ] eqn:Ea;
    intros E; injection E as <-.
  - apply (assigned_Forall _ _ _ _ assignments_good Ea).
  - apply exec_KIL_good.
Qed.

Lemma instructionMap_keeps_stack_pointer op i :
  instructionMap op = Some i -> stackOpcode op = false ->
  forall s, good true s (exec i s).
Proof.
  unfold instructionMap. destruct (_ && _); [ | discriminate ].
  destruct (assigned op assignments) as [j | ] eqn:Ea;
    intros E Hop; injection E as <-.
  - apply (assigned_Forall _ _ _ _ assignments_keep_stack_pointer Ea Hop).
  - apply exec_KIL_good.
Qed.


(** ** The cycle table *)

Lemma cycleTable_entries :
  length cycleTable = 256%nat /\ Forall (fun c => 2 <= c) cycleTable.
Proof.
  split; [ reflexivity | ].
  apply Forall_forall. intros c Hc. apply list_elem_of_In in Hc.
  assert (H : forallb (fun c => 2 <=? c) cycleTable = true) by reflexivity.
  rewrite forallb_forall in H. apply Z.leb_le, H, Hc.
Qed.

Lemma baseCycles_ge_2 (op : Z) : 2 <= baseCycles op.
Proof.
  unfold baseCycles. destruct (op <? 0); [ lia | ].
  destruct (cycleTable !! Z.to_nat op) as [c | ] eqn:E; [ | lia ].
  destruct (c =? 0); [ lia | ].
  destruct cycleTable_entries as [_ H].
  rewrite Forall_forall in H. apply H. eapply list_elem_of_lookup_2, E.
Qed.

(** ** One step *)

Lemma instructionMap_byte (b : Z) : byte_ok b -> exists i, instructionMap b = Some i.
Proof.
  unfold byte_ok, instructionMap. intros H.
  replace ((0 <=? b) && (b <? 256)) with true by (symmetry; apply andb_true_iff; lia).
  eexists. reflexivity.
Qed.

Lemma fetchExecute_unfold (s : cpu) :
  exists i, instructionMap (read s (rPC s)) = Some i /\
    fetchExecute s =
      (cycles (exec i (fetched s)),
       set_totalCycles (totalCycles (exec i (fetched s)) + cycles (exec i (fetched s)))
         (exec i (fetched s))).
Proof.
  destruct (instructionMap_byte _ (byte_ok_read s (rPC s))) as [i Hi].
  exists i. split; [ exact Hi | ].
  unfold fetchExecute, fetch, pcPostInc. cbv beta iota zeta.
  change (opcode (set_opcode ?v ?t)) with v.
  change (read (set_rPC (rPC s + 1) s) (rPC s)) with (read s (rPC s)).
  change (opcode (set_cycles ?c (set_opcode ?v ?t))) with v.
  rewrite (land_byte_id _ (byte_ok_read s (rPC s))), Hi.
  reflexivity.
Qed.

Lemma fetchExecute_spec (s : cpu) :
  let r := fetchExecute s in
  fst r = cycles (snd r) /\
  totalCycles (snd r) = totalCycles s + fst r /\
  baseCycles (read s (rPC s)) <= fst r /\
  opcode (snd r) = read s (rPC s) /\
  _breakFlag (snd r) = _breakFlag s /\
  _nmiEdge (snd r) = _nmiEdge s /\
  (regs_ok s -> regs_ok (snd r)).
Proof.
  destruct (fetchExecute_unfold s) as (i & Hi & E). rewrite E. cbn [fst snd].
  destruct (instructionMap_good _ _ Hi (fetched s))
    as ((b1 & b2 & b3 & b4 & b5 & b6 & b7 & b8) & Hr & _).
  set (t := exec i (fetched s)) in *.
  unfold fetched in b1, b2, b3, b4, b5, b6, b7, b8. cbn in b1, b3, b5, b6, b8.
  repeat apply conj; try assumption; try (cbn; congruence || lia).
  intros Hs. cut (regs_ok t); [ unfold regs_ok, flags_ok; cbn; tauto | ].
  apply Hr. revert Hs. unfold fetched, regs_ok, flags_ok; cbn. intuition lia.
Qed.

(** ** What [write] and [push] leave alone *)

(** Projections of setters, and nothing else. *)
Ltac fields :=
  cbn [ram rA rX rY rPC rS fC fZ fI fD fB fV fN opcode cycles totalCycles emulateIndirectJMPBug _breakFlag _nmiPending _nmiEdge
       set_ram set_rA set_rX set_rY set_rPC set_rS set_fC set_fZ set_fI set_fD
       set_fB set_fV set_fN set_opcode set_cycles set_totalCycles set_emulateIndirectJMPBug set_breakFlag set_nmiPending set_nmiEdge
       fst snd].


Lemma ram_write (a v : Z) (s : cpu) :
  ram (write a v s) =
  if Z.land a 0xFFFF <? ramLength s
  then <[Z.to_nat (Z.land a 0xFFFF) := Z.land v 0xFF]> (ram s)
  else ram s.
Proof. unfold write. destruct (_ <? _); reflexivity. Qed.

Ltac write_field := intros; unfold write; destruct (_ <? _); reflexivity.

Lemma write_rA a v s : rA (write a v s) = rA s.
Proof. write_field. Qed.
Lemma write_rX a v s : rX (write a v s) = rX s.
Proof. write_field. Qed.
Lemma write_rY a v s : rY (write a v s) = rY s.
Proof. write_field. Qed.
Lemma write_rPC a v s : rPC (write a v s) = rPC s.
Proof. write_field. Qed.
Lemma write_rS a v s : rS (write a v s) = rS s.
Proof. write_field. Qed.
Lemma write_fC a v s : fC (write a v s) = fC s.
Proof. write_field. Qed.
Lemma write_fZ a v s : fZ (write a v s) = fZ s.
Proof. write_field. Qed.
Lemma write_fI a v s : fI (write a v s) = fI s.
Proof. write_field. Qed.
Lemma write_fD a v s : fD (write a v s) = fD s.
Proof. write_field. Qed.
Lemma write_fB a v s : fB (write a v s) = fB s.
Proof. write_field. Qed.
Lemma write_fV a v s : fV (write a v s) = fV s.
Proof. write_field. Qed.
Lemma write_fN a v s : fN (write a v s) = fN s.
Proof. write_field. Qed.
Lemma write_opcode a v s : opcode (write a v s) = opcode s.
Proof. write_field. Qed.
Lemma write_cycles a v s : cycles (write a v s) = cycles s.
Proof. write_field. Qed.
Lemma write_totalCycles a v s : totalCycles (write a v s) = totalCycles s.
Proof. write_field. Qed.
Lemma write_emulateIndirectJMPBug a v s : emulateIndirectJMPBug (write a v s) = emulateIndirectJMPBug s.
Proof. write_field. Qed.
Lemma write_breakFlag a v s : _breakFlag (write a v s) = _breakFlag s.
Proof. write_field. Qed.
Lemma write_nmiPending a v s : _nmiPending (write a v s) = _nmiPending s.
Proof. write_field. Qed.
Lemma write_nmiEdge a v s : _nmiEdge (write a v s) = _nmiEdge s.
Proof. write_field. Qed.

Lemma ramLength_write a v s : ramLength (write a v s) = ramLength s.
Proof.
  unfold ramLength. rewrite ram_write. destruct (_ <? _); [ rewrite length_insert | ]; reflexivity.
Qed.

Ltac push_field := intros; unfold push; cbv zeta; cbn; rewrite ?write_rA, ?write_rX; write_field.
Lemma push_rA v s : rA (push v s) = rA s.
Proof. intros; unfold push; cbv zeta; cbn; apply write_rA. Qed.
Lemma push_rX v s : rX (push v s) = rX s.
Proof. intros; unfold push; cbv zeta; cbn; apply write_rX. Qed.
Lemma push_rY v s : rY (push v s) = rY s.
Proof. intros; unfold push; cbv zeta; cbn; apply write_rY. Qed.
Lemma push_rPC v s : rPC (push v s) = rPC s.
Proof. intros; unfold push; cbv zeta; cbn; apply write_rPC. Qed.
Lemma push_fC v s : fC (push v s) = fC s.
Proof. intros; unfold push; cbv zeta; cbn; apply write_fC. Qed.
Lemma push_fZ v s : fZ (push v s) = fZ s.
Proof. intros; unfold push; cbv zeta; cbn; apply write_fZ. Qed.
Lemma push_fI v s : fI (push v s) = fI s.
Proof. intros; unfold push; cbv zeta; cbn; apply write_fI. Qed.
Lemma push_fD v s : fD (push v s) = fD s.
Proof. intros; unfold push; cbv zeta; cbn; apply write_fD. Qed.
Lemma push_fB v s : fB (push v s) = fB s.
Proof. intros; unfold push; cbv zeta; cbn; apply write_fB. Qed.
Lemma push_fV v s : fV (push v s) = fV s.
Proof. intros; unfold push; cbv zeta; cbn; apply write_fV. Qed.
Lemma push_fN v s : fN (push v s) = fN s.
Proof. intros; unfold push; cbv zeta; cbn; apply write_fN. Qed.
Lemma push_opcode v s : opcode (push v s) = opcode s.
Proof. intros; unfold push; cbv zeta; cbn; apply write_opcode. Qed.
Lemma push_cycles v s : cycles (push v s) = cycles s.
Proof. intros; unfold push; cbv zeta; cbn; apply write_cycles. Qed.
Lemma push_totalCycles v s : totalCycles (push v s) = totalCycles s.
Proof. intros; unfold push; cbv zeta; cbn; apply write_totalCycles. Qed.
Lemma push_emulateIndirectJMPBug v s : emulateIndirectJMPBug (push v s) = emulateIndirectJMPBug s.
Proof. intros; unfold push; cbv zeta; cbn; apply write_emulateIndirectJMPBug. Qed.
Lemma push_breakFlag v s : _breakFlag (push v s) = _breakFlag s.
Proof. intros; unfold push; cbv zeta; cbn; apply write_breakFlag. Qed.
Lemma push_nmiPending v s : _nmiPending (push v s) = _nmiPending s.
Proof. intros; unfold push; cbv zeta; cbn; apply write_nmiPending. Qed.
Lemma push_nmiEdge v s : _nmiEdge (push v s) = _nmiEdge s.
Proof. intros; unfold push; cbv zeta; cbn; apply write_nmiEdge. Qed.

Lemma push_rS v s : rS (push v s) = Z.land (rS s - 1) 0xFF.
Proof. unfold push; cbv zeta; cbn. rewrite write_rS. reflexivity. Qed.

Lemma ram_push v s :
  ram (push v s) = ram (write (0x100 + Z.land (rS s) 0xFF) (Z.land v 0xFF) s).
Proof. reflexivity. Qed.

Lemma getStatus_push v s : getStatus (push v s) = getStatus s.
Proof.
  unfold getStatus.
  rewrite push_fN, push_fV, push_fB, push_fD, push_fI, push_fZ, push_fC. reflexivity.
Qed.

(** The stack a push leaves depends on the RAM and the stack pointer only. *)
Lemma push_cong v s t :
  ram s = ram t -> rS s = rS t ->
  ram (push v s) = ram (push v t) /\ rS (push v s) = rS (push v t).
Proof.
  intros Er Es. rewrite !push_rS, !ram_push, !ram_write. unfold ramLength.
  rewrite Er, Es. split; reflexivity.
Qed.

Create Rewrite HintDb frame.
#[local] Hint Rewrite write_rA write_rX write_rY write_rPC write_rS write_fC write_fZ write_fI write_fD write_fB write_fV write_fN write_opcode write_cycles write_totalCycles write_emulateIndirectJMPBug write_breakFlag write_nmiPending write_nmiEdge push_rA push_rX push_rY push_rPC push_fC push_fZ push_fI push_fD push_fB push_fV push_fN push_opcode push_cycles push_totalCycles push_emulateIndirectJMPBug push_breakFlag push_nmiPending push_nmiEdge
  push_rS getStatus_push : frame.

Lemma rS_set_totalCycles v t : rS (set_totalCycles v t) = rS t.
Proof. reflexivity. Qed.
Lemma rPC_set_totalCycles v t : rPC (set_totalCycles v t) = rPC t.
Proof. reflexivity. Qed.

(** Pushing leaves everything outside the stack page as it was. *)
Lemma read_write_other (s : cpu) (a b v : Z) :
  Z.land a 0xFFFF <> Z.land b 0xFFFF -> read (write a v s) b = read s b.
Proof.
  intros Hne. unfold read, write, ramLength.
  destruct (Z.land a 65535 <? _) eqn:Ea; [ | reflexivity ].
  cbn [ram set_ram]. rewrite length_insert.
  destruct (Z.land b 65535 <? _); [ | reflexivity ].
  rewrite list_lookup_insert_ne; [ reflexivity | ].
  pose proof (land16_nonneg a). pose proof (land16_nonneg b). lia.
Qed.

Lemma stack_address (x : Z) :
  Z.land (0x100 + Z.land x 0xFF) 0xFFFF = 0x100 + Z.land x 0xFF.
Proof.
  pose proof (byte_ok_land x) as H. unfold byte_ok in H.
  apply land16_id. lia.
Qed.

Lemma read_push_other (s : cpu) (v b : Z) :
  0x200 <= Z.land b 0xFFFF -> read (push v s) b = read s b.
Proof.
  intros Hb. unfold push. cbv zeta.
  rewrite (read_ram _ (write (256 + Z.land (rS s) 255) (Z.land v 255) s)) by reflexivity.
  apply read_write_other. rewrite stack_address.
  pose proof (byte_ok_land (rS s)) as H. unfold byte_ok in H. lia.
Qed.

Lemma handleNMI_idle (s : cpu) :
  _nmiEdge s = false -> handleNMI s = (false, s).
Proof. intros E. unfold handleNMI. rewrite E. reflexivity. Qed.

Lemma step_pending_break (s : cpu) :
  _breakFlag s = true -> step s = (cycles s, set_breakFlag false s).
Proof. intros E. unfold step. rewrite E. reflexivity. Qed.

Lemma step_nmi (s : cpu) :
  _breakFlag s = false -> _nmiEdge s = true ->
  step s = (cycles (snd (handleNMI s)), snd (handleNMI s)).
Proof.
  intros Eb En. unfold step. rewrite Eb.
  unfold handleNMI. rewrite En. reflexivity.
Qed.

Lemma step_fetch (s : cpu) :
  _breakFlag s = false -> _nmiEdge s = false -> step s = fetchExecute s.
Proof.
  intros Eb En. unfold step. rewrite Eb, (handleNMI_idle s En). reflexivity.
Qed.

(** * Interrupt entry (claims C1 and C10) *)

(** Clearing bit 4 of a status byte touches no other bit. *)
Lemma status_B_cleared (p : Z) :
  Z.testbit (Z.land p (Z.lnot 0x10)) 4 = false /\
  forall n, 0 <= n -> n <> 4 ->
    Z.testbit (Z.land p (Z.lnot 0x10)) n = Z.testbit p n.
Proof.
  split.
  - rewrite Z.land_spec, Z.lnot_spec by lia.
    change (Z.testbit 16 4) with true. apply andb_false_r.
  - intros n Hn Hne. rewrite Z.land_spec, Z.lnot_spec by lia.
    change 16 with (2 ^ 4). rewrite Z.pow2_bits_false by lia. apply andb_true_r.
Qed.

Lemma read_set_fI (v : Z) (s : cpu) (a : Z) : read (set_fI v s) a = read s a.
Proof. reflexivity. Qed.

Lemma handleNMI_fields (s : cpu) :
  _nmiEdge s = true ->
  let pch := Z.land (Z.shiftr (rPC s) 8) 0xFF in
  let pcl := Z.land (rPC s) 0xFF in
  let p := Z.land (getStatus s) (Z.lnot 0x10) in
  let stacked := push p (push pcl (push pch s)) in
  let t := snd (handleNMI s) in
  fst (handleNMI s) = true /\
  (ram t = ram stacked /\ rS t = rS stacked) /\
  fI t = 1 /\
  rPC t = word (read s 0xFFFA) (read s 0xFFFB) /\
  (cycles t = 7 /\ totalCycles t = totalCycles s + 7) /\
  (opcode t = opcode s /\ rA t = rA s /\ rX t = rX s /\ rY t = rY s) /\
  (fC t = fC s /\ fZ t = fZ s /\ fD t = fD s /\ fB t = fB s /\ fV t = fV s /\
   fN t = fN s) /\
  (_nmiEdge t = false /\ _breakFlag t = _breakFlag s).
Proof.
  intros En. unfold handleNMI. rewrite En. cbv zeta.
  remember (set_nmiPending false (set_nmiEdge false s)) as s0 eqn:E0.
  remember (push (Z.land (Z.shiftr (rPC s0) 8) 255) s0) as s1 eqn:E1.
  remember (push (Z.land (rPC s1) 255) s1) as s2 eqn:E2.
  remember (push (Z.land (getStatus s2) (Z.lnot 16)) s2) as s3 eqn:E3.
  fields.
  assert (F0 : ram s0 = ram s /\ rS s0 = rS s /\ rPC s0 = rPC s /\
               getStatus s0 = getStatus s /\ totalCycles s0 = totalCycles s)
    by (rewrite E0; repeat split; reflexivity).
  destruct F0 as (F0r & F0s & F0p & F0g & F0t).
  assert (F1 : rPC s1 = rPC s /\ getStatus s1 = getStatus s)
    by (rewrite E1, push_rPC, getStatus_push; split; assumption).
  destruct F1 as (F1p & F1g).
  assert (F2 : getStatus s2 = getStatus s)
    by (rewrite E2, getStatus_push; assumption).
  split; [ reflexivity | ].
  split.
  { rewrite E3, F2, E2, F1p, E1, F0p.
    destruct (push_cong (Z.land (Z.shiftr (rPC s) 8) 255) s0 s F0r F0s) as [H1r H1s].
    destruct (push_cong (Z.land (rPC s) 255) _ _ H1r H1s) as [H2r H2s].
    exact (push_cong _ _ _ H2r H2s). }
  split; [ reflexivity | ].
  split.
  { rewrite !read_set_fI, E3, E2, E1.
    rewrite !read_push_other by (vm_compute; discriminate).
    rewrite E0. reflexivity. }
  split.
  { split; [ reflexivity | ].
    rewrite E3, E2, E1. autorewrite with frame. rewrite F0t. reflexivity. }
  split.
  { rewrite E3, E2, E1. autorewrite with frame. rewrite E0. repeat split. }
  split.
  { rewrite E3, E2, E1. autorewrite with frame. rewrite E0. repeat split. }
  rewrite E3, E2, E1. autorewrite with frame. rewrite E0. split; reflexivity.
Qed.

(** C1 (as amended).  With no break request pending, [triggerNMI] followed
    by one [step] enters the NMI handler before any opcode is fetched: the
    step pushes the high byte of PC, the low byte of PC and the status byte
    with bit 4 cleared, sets I, loads PC from the little-endian vector at
    0xFFFA/0xFFFB and charges exactly 7 cycles, leaving [opcode] and the
    other registers and flags alone; the latch is then clear, so a second
    [step] is an ordinary fetch and execute. *)
Theorem C1_nmi_serviced_before_fetch (s : cpu) :
  _breakFlag s = false ->
  let pch := Z.land (Z.shiftr (rPC s) 8) 0xFF in
  let pcl := Z.land (rPC s) 0xFF in
  let p := Z.land (getStatus s) (Z.lnot 0x10) in
  let stacked := push p (push pcl (push pch s)) in
  let s1 := snd (step (triggerNMI s)) in
  (ram s1 = ram stacked /\ rS s1 = rS stacked) /\
  (Z.testbit p 4 = false /\
   forall n, 0 <= n -> n <> 4 -> Z.testbit p n = Z.testbit (getStatus s) n) /\
  fI s1 = 1 /\
  rPC s1 = word (read s 0xFFFA) (read s 0xFFFB) /\
  (fst (step (triggerNMI s)) = 7 /\ cycles s1 = 7 /\
   totalCycles s1 = totalCycles s + 7) /\
  (opcode s1 = opcode s /\ rA s1 = rA s /\ rX s1 = rX s /\ rY s1 = rY s) /\
  (fC s1 = fC s /\ fZ s1 = fZ s /\ fD s1 = fD s /\ fB s1 = fB s /\ fV s1 = fV s /\
   fN s1 = fN s) /\
  _nmiEdge s1 = false /\
  step s1 = fetchExecute s1.
Proof.
  intros Eb. cbv zeta.
  assert (En : _nmiEdge (triggerNMI s) = true) by reflexivity.
  assert (Eb' : _breakFlag (triggerNMI s) = false) by exact Eb.
  rewrite (step_nmi _ Eb' En). cbn [fst snd].
  destruct (handleNMI_fields _ En)
    as (_ & (Hram & HS) & HI & HPC & (Hc & Ht) & Hregs & Hflags & Hedge & Hbrk).
  cbv zeta in *.
  change (rPC (triggerNMI s)) with (rPC s) in *.
  change (getStatus (triggerNMI s)) with (getStatus s) in *.
  split.
  { rewrite Hram, HS.
    assert (H1 := push_cong (Z.land (Z.shiftr (rPC s) 8) 255) (triggerNMI s) s eq_refl eq_refl).
    destruct H1 as [H1r H1s].
    assert (H2 := push_cong (Z.land (rPC s) 255) _ _ H1r H1s).
    destruct H2 as [H2r H2s].
    exact (push_cong _ _ _ H2r H2s). }
  split; [ apply status_B_cleared | ].
  split; [ exact HI | ].
  split; [ rewrite HPC; apply f_equal2; apply read_ram; reflexivity | ].
  split; [ rewrite Hc; repeat split; exact Ht | ].
  split; [ exact Hregs | ].
  split; [ exact Hflags | ].
  split; [ exact Hedge | ].
  apply step_fetch; [ rewrite Hbrk; exact Eb | exact Hedge ].
Qed.

Lemma reset_fields (s : cpu) :
  let t := reset s in
  _nmiEdge t = false /\ _breakFlag t = false /\
  rPC t = word (read s 0xFFFC) (read s 0xFFFD) /\ rS t = 0xFF /\ ram t = ram s /\
  (rA t = 0 /\ rX t = 0 /\ rY t = 0) /\
  (fC t = 0 /\ fZ t = 0 /\ fI t = 1 /\ fD t = 0 /\ fB t = 0 /\ fV t = 0 /\ fN t = 0) /\
  cycles t = 7 /\ totalCycles t = totalCycles s + 7.
Proof. cbv zeta. unfold reset. repeat split. Qed.

Lemma fetchExecute_keeps_stack_pointer (s : cpu) :
  stackOpcode (read s (rPC s)) = false -> rS (snd (fetchExecute s)) = rS s.
Proof.
  intros Hnot.
  destruct (fetchExecute_unfold s) as (i & Hi & E). rewrite E. cbn [snd].
  destruct (instructionMap_keeps_stack_pointer _ _ Hi Hnot (fetched s))
    as (_ & _ & Hk).
  rewrite rS_set_totalCycles, (Hk eq_refl). reflexivity.
Qed.


(** * Indirect JMP (claim C3) *)

Lemma ind_address (s : cpu) :
  let ptr := word (read s (rPC s)) (read s (rPC s + 1)) in
  address (fst (ind s)) =
    if emulateIndirectJMPBug s && (Z.land ptr 0xFF =? 0xFF)
    then word (read s ptr) (read s (Z.land ptr 0xFF00))
    else word (read s ptr) (read s (Z.land (ptr + 1) 0xFFFF)).
Proof.
  cbv zeta. unfold ind, fetch, pcPostInc. cbv zeta. fields.
  change (read (set_rPC ?v ?t) ?a) with (read t a).
  change (emulateIndirectJMPBug (set_rPC ?v ?t)) with (emulateIndirectJMPBug t).
  destruct (_ && _); reflexivity.
Qed.



(** * Page-cross penalty (claim C4) *)





(** * Jam opcodes (claim C8) *)

(** The opcodes left without an operation by [setupInstructions]. *)
Lemma kil_opcodes :
  List.filter (fun op => isKIL (instructionMap op)) bytes =
  [0x02; 0x12; 0x22; 0x32; 0x42; 0x52; 0x62; 0x72; 0x92; 0x93; 0x9B; 0x9F;
   0xAB; 0xB2; 0xBB; 0xD2; 0xEB; 0xF2].
Proof. vm_compute. reflexivity. Qed.

(** C8.  A step on an opcode that has no operation fetches it, puts PC
    back on it and charges the table cost: of the whole state only
    [opcode], [cycles] and [totalCycles] change, and the step returns
    normally. *)
Theorem C8_kil_rewinds_pc (s : cpu) (op : Z) :
  _breakFlag s = false -> _nmiEdge s = false ->
  0 <= rPC s <= 0xFFFF ->
  read s (rPC s) = op -> instructionMap op = Some KIL ->
  step s =
    (baseCycles op,
     set_totalCycles (totalCycles s + baseCycles op)
       (set_cycles (baseCycles op) (set_opcode op s))).
Proof.
  intros Eb En Hpc Hop Hk. rewrite (step_fetch s Eb En).
  destruct (fetchExecute_unfold s) as (i & Hi & E).
  rewrite Hop, Hk in Hi. injection Hi as <-.
  rewrite E. unfold exec, fetched. rewrite Hop. fields.
  replace (rPC s + 1 - 1) with (rPC s) by lia.
  rewrite (land16_id _ Hpc).
  reflexivity.
Qed.

(** * Status byte (claim C6) *)


(** * Memory outside the backing array (claim C5) *)

Lemma outside_backing_330 (s : cpu) (addr : Z) :
  ramLength s <= Z.land addr 0xFFFF ->
  read s addr = 0xFF /\ forall val, write addr val s = s.
Proof.
  intros H. unfold read, write.
  assert (E : (Z.land addr 0xFFFF <? ramLength s) = false) by (apply Z.ltb_ge; exact H).
  rewrite E. split; [ reflexivity | intros; reflexivity ].
Qed.

Lemma ramLength_mose (ramSizeKB : Z) : ramLength (mose ramSizeKB) = ramSizeMap ramSizeKB.
Proof.
  unfold ramLength, mose. cbn [ram]. rewrite length_replicate.
  apply Z2Nat.id.
  unfold ramSizeMap.
  repeat match goal with |- context [match ?x with _ => _ end] => destruct x end; lia.
Qed.

(** * Cycle accounting and [runCycles] (claim C9) *)

(** What one [step] does to the counter and the break latch. *)
Lemma step_accounting (s : cpu) :
  _breakFlag (snd (step s)) = false /\
  (_breakFlag s = true -> totalCycles (snd (step s)) = totalCycles s) /\
  (_breakFlag s = false ->
     totalCycles (snd (step s)) = totalCycles s + fst (step s) /\
     2 <= fst (step s)).
Proof.
  destruct (_breakFlag s) eqn:Eb.
  - rewrite (step_pending_break s Eb).
    split; [ reflexivity | split; [ reflexivity | discriminate ] ].
  - destruct (_nmiEdge s) eqn:En.
    + rewrite (step_nmi s Eb En).
      destruct (handleNMI_fields s En) as (_ & _ & _ & _ & (Hc & Ht) & _ & _ & _ & Hb).
      cbv zeta in *. cbn [fst snd].
      split; [ congruence | split; [ discriminate | intros _; lia ] ].
    + rewrite (step_fetch s Eb En).
      destruct (fetchExecute_spec s) as (_ & Ht & Hc & _ & Hb & _).
      pose proof (baseCycles_ge_2 (read s (rPC s))).
      split; [ congruence | split; [ discriminate | intros _; lia ] ].
Qed.

(** The loop stops before [fuel] runs out when [fuel] covers the cycles
    still to go, plus one step for a pending break request. *)
Lemma runLoop_terminates (fuel : nat) (goal : Z) (s : cpu) :
  goal - totalCycles s + (if _breakFlag s then 1 else 0) <= Z.of_nat fuel ->
  exists s', runLoop fuel goal s = Some s'.
Proof.
  revert s. induction fuel as [ | fuel IH ]; intros s Hf; cbn [runLoop].
  - destruct (totalCycles s <? goal) eqn:E; [ | eexists; reflexivity ].
    apply Z.ltb_lt in E. destruct (_breakFlag s); lia.
  - destruct (totalCycles s <? goal) eqn:E; [ | eexists; reflexivity ].
    apply Z.ltb_lt in E. apply IH.
    destruct (step_accounting s) as (Hb & Hbrk & Hrun). rewrite Hb.
    destruct (_breakFlag s).
    + rewrite (Hbrk eq_refl). lia.
    + destruct (Hrun eq_refl) as [Ht Hc]. lia.
Qed.

Lemma runLoop_done (fuel : nat) (goal : Z) (s : cpu) :
  (totalCycles s <? goal) = false -> runLoop fuel goal s = Some s.
Proof. intros E. destruct fuel; cbn [runLoop]; rewrite E; reflexivity. Qed.

(** When the loop has run at all, its result is the state after a last step
    taken below the goal. *)
Lemma runLoop_last_step (fuel : nat) (goal : Z) (s s' : cpu) :
  runLoop fuel goal s = Some s' -> totalCycles s < goal ->
  goal <= totalCycles s' /\
  exists n, let last := Nat.iter n (fun t => snd (step t)) s in
    totalCycles last < goal /\ s' = snd (step last).
Proof.
  revert s. induction fuel as [ | fuel IH ]; intros s; cbn [runLoop];
    destruct (totalCycles s <? goal) eqn:E; try discriminate;
    try (apply Z.ltb_ge in E; intros; lia).
  intros Hr Hlt.
  remember (snd (step s)) as t eqn:Et.
  destruct (totalCycles t <? goal) eqn:E1.
  - apply Z.ltb_lt in E1. destruct (IH _ Hr E1) as (Hg & n & Hn).
    split; [ exact Hg | ]. exists (S n). cbv zeta in *.
    rewrite Nat.iter_succ_r, <- Et. exact Hn.
  - rewrite (runLoop_done _ _ _ E1) in Hr.
    apply (inj Some) in Hr. subst s'.
    apply Z.ltb_ge in E1.
    split; [ exact E1 | ]. exists 0%nat. cbn [Nat.iter].
    split; [ exact Hlt | exact Et ].
Qed.

(** C9 (as amended).  For a positive target [runCycles] returns once its
    fuel covers [target + 1] iterations: the result [r] is the growth of
    [totalCycles], it is at least [target], and it exceeds [target] by less
    than the cost of the last step taken.  Every entry of the 256-entry
    cycle table is at least 2, and every step other than the one that
    consumes a pending break request adds at least 2 cycles. *)
Theorem C9_runCycles_terminates (s : cpu) (target : Z) (fuel : nat) :
  0 < target -> (Z.to_nat target + 1 <= fuel)%nat ->
  (exists r s',
     runCycles fuel target s = Some (r, s') /\
     r = totalCycles s' - totalCycles s /\
     target <= r /\
     exists n, let last := Nat.iter n (fun t => snd (step t)) s in
       s' = snd (step last) /\
       totalCycles last < totalCycles s + target /\
       r - target < fst (step last)) /\
  (length cycleTable = 256%nat /\ Forall (fun c => 2 <= c) cycleTable) /\
  (forall t, _breakFlag t = false ->
     totalCycles t + 2 <= totalCycles (snd (step t))).
Proof.
  intros Hpos Hfuel.
  split; [ | split; [ exact cycleTable_entries | ] ].
  - destruct (runLoop_terminates fuel (totalCycles s + target) s) as [s' Hs'].
    { destruct (_breakFlag s); lia. }
    destruct (runLoop_last_step _ _ _ _ Hs') as (Hg & n & Hlast & Es); [ lia | ].
    cbv zeta in *.
    exists (totalCycles s' - totalCycles s), s'.
    unfold runCycles. rewrite Hs'.
    split; [ reflexivity | split; [ reflexivity | split; [ lia | ] ] ].
    exists n. split; [ exact Es | split; [ exact Hlast | ] ].
    destruct (step_accounting (Nat.iter n (fun t => snd (step t)) s))
      as (_ & Hbrk & Hrun).
    rewrite <- Es in Hbrk, Hrun.
    destruct (_breakFlag (Nat.iter n (fun t => snd (step t)) s)).
    + specialize (Hbrk eq_refl). lia.
    + destruct (Hrun eq_refl) as [Ht _]. lia.
  - intros t Hb. destruct (step_accounting t) as (_ & _ & Hrun).
    destruct (Hrun Hb). lia.
Qed.

(** * Register widths (claim C7) *)

Lemma reset_regs_ok (s : cpu) : regs_ok (reset s).
Proof.
  destruct (reset_fields s) as (_ & _ & Hpc & HS & _ & (Ha & Hx & Hy) & F & _).
  cbv zeta in *. destruct F as (F1 & F2 & F3 & F4 & F5 & F6 & F7).
  unfold regs_ok, flags_ok.
  rewrite Hpc, HS, Ha, Hx, Hy, F1, F2, F3, F4, F5, F6, F7.
  repeat match goal with |- _ /\ _ => split end;
    auto using byte_ok_0, byte_ok_255, flag_ok_0, flag_ok_1, word_nonneg.
Qed.

Lemma nmi_entry_regs_ok (s : cpu) :
  _nmiEdge s = true -> regs_ok s -> regs_ok (snd (handleNMI s)).
Proof.
  intros En Hs.
  destruct (handleNMI_fields s En)
    as (_ & (_ & HS) & HI & Hpc & _ & (_ & Ha & Hx & Hy) &
        (F1 & F2 & F4 & F5 & F6 & F7) & _).
  cbv zeta in *.
  unfold regs_ok, flags_ok in *.
  rewrite HS, HI, Hpc, Ha, Hx, Hy, F1, F2, F4, F5, F6, F7, push_rS.
  destruct Hs as (Ga & Gx & Gy & GS & (G1 & G2 & G3 & G4 & G5 & G6 & G7) & Gpc).
  repeat match goal with |- _ /\ _ => split end; try assumption;
    try apply byte_ok_land; try apply flag_ok_1; apply word_nonneg.
Qed.

Lemma step_regs_ok (s : cpu) : regs_ok s -> regs_ok (snd (step s)).
Proof.
  intros Hs. destruct (_breakFlag s) eqn:Eb.
  - rewrite (step_pending_break s Eb). exact Hs.
  - destruct (_nmiEdge s) eqn:En.
    + rewrite (step_nmi s Eb En). apply nmi_entry_regs_ok; assumption.
    + rewrite (step_fetch s Eb En).
      destruct (fetchExecute_spec s) as (_ & _ & _ & _ & _ & _ & Hr). auto.
Qed.

(** X21.  What does hold of the widths: after any sequence of [step], [reset] and
    [triggerNMI], A, X, Y and S are bytes, every flag is 0 or 1, and PC is
    not negative. *)
Theorem registers_stay_in_width (cs : list call) (s : cpu) :
  regs_ok s -> regs_ok (run cs s).
Proof.
  revert s. unfold run.
  induction cs as [ | c cs IH ]; intros s Hs; cbn [fold_left]; [ exact Hs | ].
  apply IH. destruct c; cbn [perform].
  - apply step_regs_ok, Hs.
  - apply reset_regs_ok.
  - exact Hs.
Qed.

(** * Decimal-mode ADC (claim C2) *)

Lemma if_pair {A B : Type} (c : bool) (x1 x2 : A) (y1 y2 : B) :
  (if c then (x1, y1) else (x2, y2)) = (if c then x1 else x2, if c then y1 else y2).
Proof. destruct c; reflexivity. Qed.

(** The fields decimal-mode ADC leaves, as functions of A, the operand and
    the carry. *)
Lemma ADC_decimal_fields (s : cpu) (v : Z) :
  fD s <> 0 ->
  let a := rA s in
  let v := Z.land v 0xFF in
  let c := b2z (truthy (fC s)) in
  let al := Z.land a 0x0F + Z.land v 0x0F + c in
  let ah := Z.shiftr a 4 + Z.shiftr v 4 in
  let al' := if al >? 9 then al + 6 else al in
  let ah' := if al >? 9 then ah + 1 else ah in
  let ah'' := if ah' >? 9 then ah' + 6 else ah' in
  let s' := ADC v s in
  rA s' = Z.land (Z.lor (Z.shiftl ah'' 4) (Z.land al' 0x0F)) 0xFF /\
  fC s' = b2z (ah'' >? 15) /\
  fZ s' = b2z (Z.land (Z.land (a + v + c) 0xFF) 0xFF =? 0) /\
  fN s' = b2z (truthy (Z.land (Z.land (Z.land (a + v + c) 0xFF) 0xFF) 0x80)).
Proof.
  intros HD. cbv zeta. unfold ADC.
  rewrite (land_byte_id _ (byte_ok_land v)).
  destruct (fD s =? 0) eqn:E; [ apply Z.eqb_eq in E; contradiction | clear E ].
  rewrite if_pair. cbv beta iota zeta. unfold setZN. cbv zeta. fields.
  repeat split.
Qed.

Lemma decimal_arithmetic (a v : Z) (b : bool) :
  byte_ok a -> byte_ok v ->
  let c := b2z b in
  let lo := a mod 16 + v mod 16 + c in
  let lo' := if lo >? 9 then lo + 6 else lo in
  let hi := a / 16 + v / 16 + (if lo >? 9 then 1 else 0) in
  let hi' := if hi >? 9 then hi + 6 else hi in
  let bin := (a + v + c) mod 256 in
  let al := Z.land a 0x0F + Z.land v 0x0F + c in
  let ah := Z.shiftr a 4 + Z.shiftr v 4 in
  let al' := if al >? 9 then al + 6 else al in
  let ah' := if al >? 9 then ah + 1 else ah in
  let ah'' := if ah' >? 9 then ah' + 6 else ah' in
  Z.land (Z.lor (Z.shiftl ah'' 4) (Z.land al' 0x0F)) 0xFF = (hi' mod 16) * 16 + lo' mod 16 /\
  b2z (ah'' >? 15) = b2z (hi' >? 15) /\
  b2z (Z.land (Z.land (a + v + c) 0xFF) 0xFF =? 0) = b2z (bin =? 0) /\
  b2z (truthy (Z.land (Z.land (Z.land (a + v + c) 0xFF) 0xFF) 0x80)) = b2z (128 <=? bin) /\
  (validBCD a = true -> validBCD v = true ->
   bcdToBinary (Z.land (Z.lor (Z.shiftl ah'' 4) (Z.land al' 0x0F)) 0xFF)
     + 100 * b2z (ah'' >? 15)
   = bcdToBinary a + bcdToBinary v + c).
Proof.
  intros Ha Hv. cbv zeta.
  rewrite <- !Z.eqb_eq.
  match goal with
  | |- ?e1 = true /\ ?e2 = true /\ ?e3 = true /\ ?e4 = true /\
       (?p = true -> ?q = true -> ?e5 = true) =>
      cut (e1 && e2 && e3 && e4 && implb (p && q) e5 = true);
      [ intros H; repeat (apply andb_true_iff in H; destruct H as [H ?]);
        repeat split; try assumption;
        intros Hp Hq; rewrite Hp, Hq in *; assumption | ]
  end.
  revert a v b Ha Hv. refine (all_bytes2b _ _). vm_compute. reflexivity.
Qed.

(** Decimal-mode ADC in release 010426.330. *)
Lemma adc_decimal_330 (s : cpu) (v : Z) :
  fD s <> 0 -> byte_ok (rA s) -> byte_ok v ->
  let c := b2z (truthy (fC s)) in
  let lo := rA s mod 16 + v mod 16 + c in
  let lo' := if lo >? 9 then lo + 6 else lo in
  let hi := rA s / 16 + v / 16 + (if lo >? 9 then 1 else 0) in
  let hi' := if hi >? 9 then hi + 6 else hi in
  let bin := (rA s + v + c) mod 256 in
  let s' := ADC v s in
  (rA s' = (hi' mod 16) * 16 + lo' mod 16 /\
   fC s' = b2z (hi' >? 15) /\
   fZ s' = b2z (bin =? 0) /\
   fN s' = b2z (128 <=? bin)) /\
  (validBCD (rA s) = true -> validBCD v = true ->
   bcdToBinary (rA s') + 100 * fC s' = bcdToBinary (rA s) + bcdToBinary v + c).
Proof.
  intros HD Ha Hv. cbv zeta.
  destruct (ADC_decimal_fields s v HD) as (FA & FC & FZ & FN).
  cbv zeta in *. rewrite (land_byte_id v Hv) in *.
  destruct (decimal_arithmetic (rA s) v (truthy (fC s)) Ha Hv)
    as (GA & GC & GZ & GN & GB).
  cbv zeta in *.
  rewrite FA, FC, FZ, FN, GA, GC, GZ, GN.
  split; [ repeat split | ].
  intros Va Vv. rewrite <- GA, <- GC. exact (GB Va Vv).
Qed.

(** * Concrete runs *)

(** Evaluates a closed statement about a concrete machine. *)
Ltac run_it :=
  repeat match goal with |- _ /\ _ => split end;
  lazymatch goal with
  | |- _ <= _ => apply Z.leb_le; vm_compute; reflexivity
  | |- _ < _ => apply Z.ltb_lt; vm_compute; reflexivity
  | |- _ <> _ => apply Z.eqb_neq; vm_compute; reflexivity
  | |- (_ <= _)%nat => apply Nat.leb_le; vm_compute; reflexivity
  | |- _ = _ => vm_compute; reflexivity
  end.

(** C7 fails on the code: fetching from the last address of the address
    space leaves PC at 0x10000.  [pcAtTop] has every register in its width
    and a NOP at 0xFFFF; one [step] later PC is outside 0..65535. *)
Theorem C7_pc_leaves_16_bits :
  in_width pcAtTop /\
  rPC (run [Step] pcAtTop) = 0x10000 /\
  ~ in_width (run [Step] pcAtTop).
Proof.
  split; [ | split ].
  - unfold in_width, regs_ok, flags_ok, byte_ok, flag_ok.
    repeat match goal with |- _ /\ _ => split end;
      try (left; vm_compute; reflexivity); run_it.
  - vm_compute. reflexivity.
  - intros [_ H]. apply Z.leb_le in H. vm_compute in H. discriminate H.
Qed.

(** C1 fails as stated: with a break request pending, the step after
    [triggerNMI] only consumes the request; nothing is pushed, PC is not
    loaded from the vector, no cycles are charged and the NMI stays
    latched. *)
Lemma C1_pending_break_defers_nmi :
  let s := triggerBreak (mose 4) in
  let r := step (triggerNMI s) in
  fst r <> 7 /\ rS (snd r) = rS s /\ ram (snd r) = ram s /\
  rPC (snd r) <> word (read s 0xFFFA) (read s 0xFFFB) /\
  totalCycles (snd r) = totalCycles s /\ _nmiEdge (snd r) = true.
Proof. cbv zeta. run_it. Qed.

Lemma C1_nmi_serviced_before_fetch_witness :
  _breakFlag (mose 4) = false /\
  fst (step (triggerNMI (mose 4))) = 7 /\
  rPC (snd (step (triggerNMI (mose 4)))) = 0xFFFF /\
  fI (snd (step (triggerNMI (mose 4)))) = 1.
Proof.
  split; [ reflexivity | ].
  destruct (C1_nmi_serviced_before_fetch (mose 4) eq_refl)
    as (_ & _ & HI & Hpc & (Hc & _) & _).
  split; [ exact Hc | split; [ | exact HI ] ].
  etransitivity; [ exact Hpc | vm_compute; reflexivity ].
Defined.






Lemma C8_kil_rewinds_pc_witness :
  (_breakFlag jammed = false /\ _nmiEdge jammed = false /\
   0 <= rPC jammed <= 0xFFFF /\ read jammed (rPC jammed) = 0x02 /\
   instructionMap 0x02 = Some KIL) /\
  rPC (snd (step jammed)) = rPC jammed /\ fst (step jammed) = 2.
Proof.
  assert (Hpc : 0 <= rPC jammed <= 0xFFFF) by (split; run_it).
  assert (Hop : read jammed (rPC jammed) = 0x02) by (vm_compute; reflexivity).
  assert (Hk : instructionMap 0x02 = Some KIL) by reflexivity.
  split; [ repeat split; reflexivity || assumption || apply Hpc | ].
  rewrite (C8_kil_rewinds_pc jammed 0x02 eq_refl eq_refl Hpc Hop Hk).
  split; reflexivity.
Defined.

Lemma C9_runCycles_terminates_witness :
  0 < 10 /\ (Z.to_nat 10 + 1 <= 11)%nat /\
  exists r s', runCycles 11 10 (mose 4) = Some (r, s') /\ 10 <= r.
Proof.
  assert (H1 : 0 < 10) by reflexivity.
  assert (H2 : (Z.to_nat 10 + 1 <= 11)%nat) by (apply Nat.leb_le; reflexivity).
  split; [ exact H1 | split; [ exact H2 | ] ].
  destruct (C9_runCycles_terminates (mose 4) 10 11 H1 H2)
    as ((r & s' & Hr & _ & Hge & _) & _).
  exists r, s'. split; assumption.
Defined.

(** C9's aside fails as stated: the step that consumes a pending break
    request returns at once and adds no cycles; the loop of [runCycles]
    still ends, the request being cleared by that step. *)
Lemma C9_break_step_adds_no_cycles :
  let s := triggerBreak (mose 4) in
  _breakFlag s = true /\ fst (step s) = 0 /\
  totalCycles (snd (step s)) = totalCycles s /\
  ~ (totalCycles s < totalCycles (snd (step s))) /\
  _breakFlag (snd (step s)) = false.
Proof.
  cbv zeta.
  repeat match goal with |- _ /\ _ => split end; try (vm_compute; reflexivity).
  intros H. apply Z.ltb_lt in H. vm_compute in H. discriminate H.
Qed.

(** * Further properties of release 010426.330 *)

(** ** Memory *)

Lemma read_write_same (s : cpu) (a v : Z) :
  Z.land a 0xFFFF < ramLength s -> read (write a v s) a = Z.land v 0xFF.
Proof.
  intros H. pose proof (land16_nonneg a) as Hn.
  unfold read. cbv zeta. rewrite ramLength_write, ram_write.
  apply Z.ltb_lt in H. rewrite H. apply Z.ltb_lt in H.
  rewrite list_lookup_insert_eq by (unfold ramLength in H; lia).
  cbn [default]. apply land_byte_id, byte_ok_land.
Qed.

(** X1.  A byte stored inside the backing array is read back reduced to 8 bits,
    every other address reads as before, and the array keeps its size. *)
Theorem write_then_read (s : cpu) (a v : Z) :
  Z.land a 0xFFFF < ramLength s ->
  read (write a v s) a = Z.land v 0xFF /\
  (forall b, Z.land b 0xFFFF <> Z.land a 0xFFFF -> read (write a v s) b = read s b) /\
  ramLength (write a v s) = ramLength s.
Proof.
  intros H. split; [ exact (read_write_same s a v H) | split ].
  - intros b Hb. apply read_write_other. congruence.
  - apply ramLength_write.
Qed.

Lemma write_then_read_witness :
  Z.land 0x0200 0xFFFF < ramLength (mose 4) /\
  read (write 0x0200 0x1AB (mose 4)) 0x0200 = 0xAB /\
  read (write 0x0200 0x1AB (mose 4)) 0x0201 = 0.
Proof.
  assert (H : Z.land 0x0200 0xFFFF < ramLength (mose 4)) by run_it.
  destruct (write_then_read (mose 4) 0x0200 0x1AB H) as (E1 & E2 & _).
  split; [ exact H | split; [ exact E1 | ] ].
  rewrite (E2 0x0201) by run_it. run_it.
Defined.

(** ** The stack *)

Lemma stack_step_back (x : Z) :
  byte_ok x -> Z.land (Z.land (x - 1) 0xFF + 1) 0xFF = x.
Proof.
  intros H. apply Z.eqb_eq. revert x H. refine (all_bytes _ _).
  vm_compute. reflexivity.
Qed.

Lemma stack_slots_differ (x : Z) :
  byte_ok x -> Z.land (x - 1) 0xFF <> x.
Proof.
  intros H. apply Z.eqb_neq.
  assert (E : negb (Z.land (x - 1) 0xFF =? x) = true).
  { revert x H. refine (all_bytes _ _). vm_compute. reflexivity. }
  apply negb_true_iff in E. exact E.
Qed.

Lemma pop_fields (s : cpu) :
  let sp := Z.land (rS s + 1) 0xFF in
  fst (pop s) = read s (0x100 + sp) /\ rS (snd (pop s)) = sp /\
  ram (snd (pop s)) = ram s /\ rPC (snd (pop s)) = rPC s /\
  rA (snd (pop s)) = rA s /\ rX (snd (pop s)) = rX s /\ rY (snd (pop s)) = rY s /\
  getStatus (snd (pop s)) = getStatus s.
Proof.
  cbv zeta. unfold pop. cbv zeta. cbn [fst snd]. fields.
  rewrite (land_byte_id _ (byte_ok_land _)).
  repeat match goal with |- _ /\ _ => split end; reflexivity.
Qed.

Lemma read_push_slot (s : cpu) (v : Z) :
  0x100 + Z.land (rS s) 0xFF < ramLength s ->
  read (push v s) (0x100 + Z.land (rS s) 0xFF) = Z.land v 0xFF.
Proof.
  intros H. unfold push. cbv zeta.
  change (read (set_rS ?x ?t)) with (read t).
  rewrite read_write_same by (rewrite stack_address; exact H).
  apply land_byte_id, byte_ok_land.
Qed.

Lemma read_push_elsewhere (s : cpu) (v b : Z) :
  Z.land b 0xFFFF <> 0x100 + Z.land (rS s) 0xFF ->
  read (push v s) b = read s b.
Proof.
  intros H. unfold push. cbv zeta.
  change (read (set_rS ?x ?t)) with (read t).
  apply read_write_other. rewrite stack_address. congruence.
Qed.

(** X2.  What is pushed is what is popped: the byte comes back reduced to 8
    bits, the stack pointer returns to where it was, also around the wrap
    from 0x00 to 0xFF, and only the one stack slot has changed. *)
Theorem pop_after_push (s : cpu) (v : Z) :
  byte_ok (rS s) -> 0x100 + rS s < ramLength s ->
  fst (pop (push v s)) = Z.land v 0xFF /\
  rS (snd (pop (push v s))) = rS s /\
  (forall b, Z.land b 0xFFFF <> 0x100 + rS s ->
     read (snd (pop (push v s))) b = read s b).
Proof.
  intros HS Hin.
  destruct (pop_fields (push v s)) as (Ev & Es & Er & _). cbv zeta in Ev, Es.
  rewrite push_rS, (stack_step_back _ HS) in Ev, Es.
  pose proof (land_byte_id _ HS) as EL.
  split; [ | split; [ exact Es | ] ].
  - rewrite Ev. rewrite <- EL at 1. apply read_push_slot. rewrite EL. exact Hin.
  - intros b Hb.
    transitivity (read (push v s) b).
    + unfold read. rewrite Er. unfold ramLength. rewrite Er. reflexivity.
    + apply read_push_elsewhere. rewrite EL. exact Hb.
Qed.

Lemma pop_after_push_witness :
  (byte_ok (rS (set_rS 0 (mose 4))) /\
   0x100 + rS (set_rS 0 (mose 4)) < ramLength (set_rS 0 (mose 4))) /\
  rS (push 0x42 (set_rS 0 (mose 4))) = 0xFF /\
  fst (pop (push 0x42 (set_rS 0 (mose 4)))) = 0x42 /\
  rS (snd (pop (push 0x42 (set_rS 0 (mose 4))))) = 0.
Proof.
  assert (H1 : byte_ok (rS (set_rS 0 (mose 4)))) by (split; run_it).
  assert (H2 : 0x100 + rS (set_rS 0 (mose 4)) < ramLength (set_rS 0 (mose 4)))
    by run_it.
  destruct (pop_after_push (set_rS 0 (mose 4)) 0x42 H1 H2) as (E1 & E2 & _).
  split; [ split; assumption | ].
  split; [ run_it | split; [ exact E1 | exact E2 ] ].
Defined.

(** ** Pushes followed by pops *)

Lemma ramLength_push (v : Z) (s : cpu) : ramLength (push v s) = ramLength s.
Proof. unfold ramLength. rewrite ram_push, ram_write. destruct (_ <? _); [ rewrite length_insert | ]; reflexivity. Qed.

Lemma read_land16 (s : cpu) (b : Z) : read s b = read s (Z.land b 0xFFFF).
Proof.
  unfold read. cbv zeta. rewrite <- Z.land_assoc, Z.land_diag. reflexivity.
Qed.

Lemma read_push (s : cpu) (v b : Z) :
  0x200 <= ramLength s ->
  read (push v s) b =
  if Z.land b 0xFFFF =? 0x100 + Z.land (rS s) 0xFF then Z.land v 0xFF else read s b.
Proof.
  intros H. pose proof (byte_ok_land (rS s)) as HB. unfold byte_ok in HB.
  destruct (Z.land b 0xFFFF =? 0x100 + Z.land (rS s) 0xFF) eqn:E.
  - apply Z.eqb_eq in E. rewrite read_land16, E.
    apply read_push_slot. lia.
  - apply Z.eqb_neq in E. apply read_push_elsewhere. exact E.
Qed.

(** The slots below a stack pointer [x]: one and two bytes down, with the
    wrap inside page one. *)
Lemma stack_arith (x : Z) :
  byte_ok x ->
  let x1 := Z.land (x - 1) 0xFF in
  let x2 := Z.land (x1 - 1) 0xFF in
  let x3 := Z.land (x2 - 1) 0xFF in
  (Z.land (x1 + 1) 0xFF = x /\ Z.land (x2 + 1) 0xFF = x1 /\ Z.land (x3 + 1) 0xFF = x2) /\
  (x1 <> x /\ x2 <> x /\ x2 <> x1) /\
  (Z.land x1 0xFF = x1 /\ Z.land x2 0xFF = x2 /\ Z.land x 0xFF = x).
Proof.
  intros H. cbv zeta.
  assert (E : (Z.land (Z.land (x - 1) 0xFF + 1) 0xFF =? x) &&
              (Z.land (Z.land (Z.land (x - 1) 0xFF - 1) 0xFF + 1) 0xFF =? Z.land (x - 1) 0xFF) &&
              (Z.land (Z.land (Z.land (Z.land (x - 1) 0xFF - 1) 0xFF - 1) 0xFF + 1) 0xFF
                 =? Z.land (Z.land (x - 1) 0xFF - 1) 0xFF) &&
              negb (Z.land (x - 1) 0xFF =? x) &&
              negb (Z.land (Z.land (x - 1) 0xFF - 1) 0xFF =? x) &&
              negb (Z.land (Z.land (x - 1) 0xFF - 1) 0xFF =? Z.land (x - 1) 0xFF) = true).
  { revert x H. refine (all_bytes _ _). vm_compute. reflexivity. }
  repeat (apply andb_true_iff in E; destruct E as [E ?]).
  repeat match goal with
         | H : negb _ = true |- _ => apply negb_true_iff, Z.eqb_neq in H
         | H : (_ =? _) = true |- _ => apply Z.eqb_eq in H
         end.
  rewrite !(land_byte_id _ (byte_ok_land _)), (land_byte_id _ H).
  repeat match goal with |- _ /\ _ => split end; assumption || reflexivity.
Qed.

(** What three pops read, and where they leave the stack pointer. *)
Lemma pops_fields (t : cpu) :
  let a1 := Z.land (rS t + 1) 0xFF in
  let a2 := Z.land (a1 + 1) 0xFF in
  let a3 := Z.land (a2 + 1) 0xFF in
  let t1 := snd (pop t) in
  let t2 := snd (pop t1) in
  (fst (pop t) = read t (0x100 + a1) /\ rS t1 = a1 /\ ram t1 = ram t) /\
  (fst (pop t1) = read t (0x100 + a2) /\ rS t2 = a2 /\ ram t2 = ram t) /\
  (fst (pop t2) = read t (0x100 + a3) /\ rS (snd (pop t2)) = a3 /\
   ram (snd (pop t2)) = ram t).
Proof.
  cbv zeta.
  destruct (pop_fields t) as (V1 & S1 & R1 & _). cbv zeta in V1, S1.
  destruct (pop_fields (snd (pop t))) as (V2 & S2 & R2 & _). cbv zeta in V2, S2.
  destruct (pop_fields (snd (pop (snd (pop t))))) as (V3 & S3 & R3 & _).
  cbv zeta in V3, S3.
  rewrite S2 in V3, S3. rewrite S1 in V2, S2, V3, S3.
  rewrite R2 in R3. rewrite R1 in R2, R3.
  rewrite (read_ram _ t _ R1) in V2. rewrite (read_ram _ t _ R2) in V3.
  repeat match goal with |- _ /\ _ => split end; assumption.
Qed.

(** What two and three pushes leave on the stack. *)
Lemma pushes_fields (s : cpu) (a b c : Z) :
  byte_ok (rS s) -> 0x200 <= ramLength s ->
  let x1 := Z.land (rS s - 1) 0xFF in
  let x2 := Z.land (x1 - 1) 0xFF in
  let s2 := push b (push a s) in
  let s3 := push c s2 in
  (rS s2 = x2 /\ read s2 (0x100 + x1) = Z.land b 0xFF /\
   read s2 (0x100 + rS s) = Z.land a 0xFF) /\
  (rS s3 = Z.land (x2 - 1) 0xFF /\ read s3 (0x100 + x2) = Z.land c 0xFF /\
   read s3 (0x100 + x1) = Z.land b 0xFF /\ read s3 (0x100 + rS s) = Z.land a 0xFF).
Proof.
  intros HS HR. cbv zeta.
  destruct (stack_arith (rS s) HS) as (_ & (N1 & N2 & N3) & (L1 & L2 & L0)).
  cbv zeta in *.
  pose proof (byte_ok_land (rS s - 1)) as B1.
  pose proof (byte_ok_land (Z.land (rS s - 1) 0xFF - 1)) as B2.
  unfold byte_ok in HS, B1, B2.
  assert (A : forall x, 0 <= x <= 255 -> Z.land (0x100 + x) 0xFFFF = 0x100 + x)
    by (intros x Hx; apply land16_id; lia).
  rewrite !read_push by (rewrite ?ramLength_push; exact HR).
  rewrite !push_rS, L0, L1, L2, !A by assumption.
  repeat match goal with
         | |- context [?x =? ?y] =>
             first [ replace (x =? y) with true by (symmetry; apply Z.eqb_eq; lia)
                   | replace (x =? y) with false by (symmetry; apply Z.eqb_neq; lia) ]
         end.
  repeat match goal with |- _ /\ _ => split end; reflexivity.
Qed.

(** ** Subroutine call and return *)

Lemma bytes_of_word (r : Z) :
  0 <= r <= 0xFFFF ->
  Z.lor (Z.shiftl (Z.land (Z.land (Z.shiftr r 8) 0xFF) 0xFF) 8) (Z.land (Z.land r 0xFF) 0xFF) = r /\
  word (Z.land (Z.land r 0xFF) 0xFF) (Z.land (Z.land (Z.shiftr r 8) 0xFF) 0xFF) = r.
Proof.
  intros H.
  rewrite !(land_byte_id _ (byte_ok_land _)).
  pose proof (word_little_endian _ _ (byte_ok_land r) (byte_ok_land (Z.shiftr r 8))) as E.
  assert (V : r mod 256 + 256 * ((r / 256) mod 256) = r).
  { rewrite (Z.mod_small (r / 256) 256)
      by (split; [ apply Z.div_pos; lia | apply Z.div_lt_upper_bound; lia ]).
    pose proof (Z.div_mod r 256). lia. }
  assert (L : Z.land r 0xFF = r mod 256)
    by (change 0xFF with (Z.ones 8); rewrite Z.land_ones by lia; reflexivity).
  assert (Hh : Z.land (Z.shiftr r 8) 0xFF = (r / 256) mod 256).
  { change 0xFF with (Z.ones 8). rewrite Z.land_ones, Z.shiftr_div_pow2 by lia.
    reflexivity. }
  rewrite L, Hh in E |- *.
  split; [ | lia ].
  unfold word in E.
  assert (R : 0 <= Z.lor (Z.shiftl ((r / 256) mod 256) 8) (r mod 256) <= 0xFFFF).
  { assert (Q : Z.lor (Z.shiftl ((r / 256) mod 256) 8) (r mod 256)
                = Z.land (Z.lor (Z.shiftl ((r / 256) mod 256) 8) (r mod 256)) 0xFFFF).
    { rewrite Z.land_lor_distr_l.
      rewrite <- Hh, <- L.
      f_equal.
      - apply Z.bits_inj'. intros n Hn.
        rewrite Z.land_spec.
        destruct (Z.ltb_spec n 16).
        + change 0xFFFF with (Z.ones 16). rewrite Z.ones_spec_low by lia.
          rewrite andb_true_r. reflexivity.
        + rewrite Z.shiftl_spec, Z.land_spec by lia.
          change 0xFF with (Z.ones 8).
          rewrite (Z.ones_spec_high 8 (n - 8)) by lia.
          rewrite andb_false_r. reflexivity.
      - symmetry. apply land16_id. pose proof (byte_ok_land r) as B.
        unfold byte_ok in B. lia. }
    rewrite Q. apply land16_range. }
  rewrite (land16_id _ R) in E. lia.
Qed.

Lemma pop_frame (t : cpu) :
  rA (snd (pop t)) = rA t /\ rX (snd (pop t)) = rX t /\ rY (snd (pop t)) = rY t /\
  rPC (snd (pop t)) = rPC t /\
  (fC (snd (pop t)) = fC t /\ fZ (snd (pop t)) = fZ t /\ fI (snd (pop t)) = fI t /\
   fD (snd (pop t)) = fD t /\ fB (snd (pop t)) = fB t /\ fV (snd (pop t)) = fV t /\
   fN (snd (pop t)) = fN t).
Proof. unfold pop. cbv zeta. cbn [snd]. fields. repeat split. Qed.

Lemma getStatus_flags (s t : cpu) :
  fC s = fC t -> fZ s = fZ t -> fI s = fI t -> fD s = fD t -> fB s = fB t ->
  fV s = fV t -> fN s = fN t -> getStatus s = getStatus t.
Proof. intros. unfold getStatus. congruence. Qed.

Lemma RTS_fields (t : cpu) :
  let a1 := Z.land (rS t + 1) 0xFF in
  let a2 := Z.land (a1 + 1) 0xFF in
  rPC (RTS t) =
    Z.land (Z.lor (Z.shiftl (read t (0x100 + a2)) 8) (read t (0x100 + a1)) + 1) 0xFFFF /\
  rS (RTS t) = a2 /\ ram (RTS t) = ram t /\
  rA (RTS t) = rA t /\ rX (RTS t) = rX t /\ rY (RTS t) = rY t /\
  getStatus (RTS t) = getStatus t.
Proof.
  cbv zeta.
  destruct (pops_fields t) as ((V1 & S1 & R1) & (V2 & S2 & R2) & _).
  cbv zeta in V1, S1, R1, V2, S2, R2.
  destruct (pop_frame t) as (A1 & X1 & Y1 & _ & C1 & Z1 & I1 & D1 & B1 & O1 & N1).
  destruct (pop_frame (snd (pop t)))
    as (A2 & X2 & Y2 & _ & C2 & Z2 & I2 & D2 & B2 & O2 & N2).
  unfold RTS.
  destruct (pop t) as [lo t1]. cbn [fst snd] in *.
  destruct (pop t1) as [hi t2]. cbn [fst snd] in *.
  subst lo hi.
  remember (Z.land (Z.lor (Z.shiftl (read t (256 + Z.land (Z.land (rS t + 1) 255 + 1) 255)) 8)
                      (read t (256 + Z.land (rS t + 1) 255)) + 1) 65535) as pc.
  assert (G : getStatus (set_rPC pc t2) = getStatus t)
    by (apply getStatus_flags; fields; congruence).
  fields.
  repeat match goal with |- _ /\ _ => split end;
    try reflexivity; try congruence; exact G.
Qed.

Lemma getStatus_set_rPC (v : Z) (t : cpu) : getStatus (set_rPC v t) = getStatus t.
Proof. reflexivity. Qed.

Lemma read_set_rPC (v : Z) (t : cpu) (b : Z) : read (set_rPC v t) b = read t b.
Proof. reflexivity. Qed.

Lemma JSR_fields (s : cpu) (a : Z) :
  byte_ok (rS s) -> 0x200 <= ramLength s ->
  let ret := Z.land (rPC s - 1) 0xFFFF in
  let x1 := Z.land (rS s - 1) 0xFF in
  let t := JSR a s in
  rPC t = Z.land a 0xFFFF /\ rS t = Z.land (x1 - 1) 0xFF /\
  read t (0x100 + x1) = Z.land (Z.land ret 0xFF) 0xFF /\
  read t (0x100 + rS s) = Z.land (Z.land (Z.shiftr ret 8) 0xFF) 0xFF /\
  rA t = rA s /\ rX t = rX s /\ rY t = rY s /\ getStatus t = getStatus s.
Proof.
  intros HS HR. cbv zeta.
  remember (Z.land (rPC s - 1) 0xFFFF) as ret eqn:Eret.
  destruct (pushes_fields s (Z.land (Z.shiftr ret 8) 0xFF) (Z.land ret 0xFF) 0 HS HR)
    as ((P1 & P2 & P3) & _). cbv zeta in P1, P2, P3.
  unfold JSR. cbv zeta. rewrite <- Eret.
  remember (push (Z.land ret 0xFF) (push (Z.land (Z.shiftr ret 8) 0xFF) s)) as s2 eqn:E2.
  assert (F : rA s2 = rA s /\ rX s2 = rX s /\ rY s2 = rY s /\ getStatus s2 = getStatus s)
    by (subst s2; autorewrite with frame; repeat split).
  destruct F as (FA & FX & FY & FP).
  rewrite getStatus_set_rPC, !read_set_rPC. fields.
  repeat match goal with |- _ /\ _ => split end; try reflexivity; assumption.
Qed.

(** X3.  RTS undoes JSR: called with PC behind the operand of a JSR, the pair
    returns to that PC with the stack pointer and the registers as they
    were. *)
Theorem rts_after_jsr (s : cpu) (a : Z) :
  byte_ok (rS s) -> 0x200 <= ramLength s -> 0 <= rPC s <= 0xFFFF ->
  let s' := RTS (JSR a s) in
  rPC (JSR a s) = Z.land a 0xFFFF /\
  rPC s' = rPC s /\ rS s' = rS s /\
  rA s' = rA s /\ rX s' = rX s /\ rY s' = rY s /\ getStatus s' = getStatus s.
Proof.
  intros HS HR HP. cbv zeta.
  destruct (JSR_fields s a HS HR) as (J0 & J1 & J2 & J3 & JA & JX & JY & JP).
  cbv zeta in J1, J2, J3.
  destruct (RTS_fields (JSR a s)) as (T0 & T1 & _ & TA & TX & TY & TP).
  cbv zeta in T0, T1.
  destruct (stack_arith (rS s) HS) as ((A1 & A2 & _) & _). cbv zeta in A1, A2.
  rewrite J1, A2 in T0, T1. rewrite A1 in T0, T1.
  rewrite J2, J3 in T0.
  destruct (bytes_of_word (Z.land (rPC s - 1) 0xFFFF) (land16_range _)) as (BW & _).
  rewrite BW in T0.
  split; [ exact J0 | ].
  split.
  - rewrite T0.
    change 0xFFFF with (Z.ones 16). rewrite !Z.land_ones by lia.
    change (2 ^ 16) with 65536.
    rewrite Zplus_mod_idemp_l. replace (rPC s - 1 + 1) with (rPC s) by lia.
    apply Z.mod_small. lia.
  - repeat match goal with |- _ /\ _ => split end; congruence.
Qed.

Lemma rts_after_jsr_witness :
  (byte_ok (rS (set_rPC 0x0603 (mose 4))) /\
   0x200 <= ramLength (set_rPC 0x0603 (mose 4)) /\
   0 <= rPC (set_rPC 0x0603 (mose 4)) <= 0xFFFF) /\
  rPC (JSR 0x0700 (set_rPC 0x0603 (mose 4))) = 0x0700 /\
  rPC (RTS (JSR 0x0700 (set_rPC 0x0603 (mose 4)))) = 0x0603 /\
  rS (RTS (JSR 0x0700 (set_rPC 0x0603 (mose 4)))) = 0xFF.
Proof.
  assert (H1 : byte_ok (rS (set_rPC 0x0603 (mose 4)))) by (split; run_it).
  assert (H2 : 0x200 <= ramLength (set_rPC 0x0603 (mose 4))) by run_it.
  assert (H3 : 0 <= rPC (set_rPC 0x0603 (mose 4)) <= 0xFFFF) by (split; run_it).
  split; [ split; [ exact H1 | split; [ exact H2 | exact H3 ] ] | ].
  destruct (rts_after_jsr (set_rPC 0x0603 (mose 4)) 0x0700 H1 H2 H3)
    as (E0 & E1 & E2 & _).
  split; [ exact E0 | split; [ exact E1 | exact E2 ] ].
Defined.

(** ** Interrupt entry and return *)

Lemma setStatus_fields (v : Z) (t : cpu) :
  let u := setStatus v t in
  (fN u = Z.land (Z.shiftr v 7) 1 /\ fV u = Z.land (Z.shiftr v 6) 1 /\
   fB u = Z.land (Z.shiftr v 4) 1 /\ fD u = Z.land (Z.shiftr v 3) 1 /\
   fI u = Z.land (Z.shiftr v 2) 1 /\ fZ u = Z.land (Z.shiftr v 1) 1 /\
   fC u = Z.land v 1) /\
  rA u = rA t /\ rX u = rX t /\ rY u = rY t /\ rS u = rS t /\ rPC u = rPC t /\
  ram u = ram t.
Proof. cbv zeta. unfold setStatus. repeat split. Qed.

(** The flags a packed status byte unpacks to, as pushed by BRK and PHP
    (bit 4 set) and by the NMI entry (bit 4 cleared). *)
Lemma status_bits (s : cpu) (set : bool) :
  flags_ok s ->
  let q := if set then Z.land (Z.lor (getStatus s) 0x10) 0xFF
           else Z.land (Z.land (getStatus s) (Z.lnot 0x10)) 0xFF in
  Z.land (Z.shiftr q 7) 1 = fN s /\ Z.land (Z.shiftr q 6) 1 = fV s /\
  Z.land (Z.shiftr q 3) 1 = fD s /\ Z.land (Z.shiftr q 2) 1 = fI s /\
  Z.land (Z.shiftr q 1) 1 = fZ s /\ Z.land q 1 = fC s /\
  Z.land (Z.shiftr q 4) 1 = (if set then 1 else 0).
Proof.
  destruct s; unfold flags_ok, flag_ok; cbn.
  intros (HC & HZ & HI & HD & HB & HV & HN).
  destruct HC, HZ, HI, HD, HB, HV, HN; subst;
    destruct set; vm_compute; repeat split.
Qed.

Lemma RTI_fields (t : cpu) :
  let a1 := Z.land (rS t + 1) 0xFF in
  let a2 := Z.land (a1 + 1) 0xFF in
  let a3 := Z.land (a2 + 1) 0xFF in
  let p := read t (0x100 + a1) in
  let u := RTI t in
  rPC u = word (read t (0x100 + a2)) (read t (0x100 + a3)) /\
  rS u = a3 /\ ram u = ram t /\
  (rA u = rA t /\ rX u = rX t /\ rY u = rY t) /\
  (fN u = Z.land (Z.shiftr p 7) 1 /\ fV u = Z.land (Z.shiftr p 6) 1 /\
   fB u = Z.land (Z.shiftr p 4) 1 /\ fD u = Z.land (Z.shiftr p 3) 1 /\
   fI u = Z.land (Z.shiftr p 2) 1 /\ fZ u = Z.land (Z.shiftr p 1) 1 /\
   fC u = Z.land p 1).
Proof.
  cbv zeta.
  destruct (pop_fields t) as (V1 & S1 & R1 & _). cbv zeta in V1, S1.
  destruct (pop_frame t) as (A1 & X1 & Y1 & _).
  unfold RTI.
  destruct (pop t) as [p t1]. cbn [fst snd] in *.
  destruct (setStatus_fields p t1) as (F & FA & FX & FY & FS & _ & FR).
  cbv zeta in F, FA, FX, FY, FS, FR.
  remember (setStatus p t1) as t2 eqn:E2.
  destruct (pops_fields t2) as ((V2 & S2 & R2) & (V3 & S3 & R3) & _).
  cbv zeta in V2, S2, R2, V3, S3, R3.
  destruct (pop_frame t2) as (A2 & X2 & Y2 & _ & C2 & Z2 & I2 & D2 & B2 & O2 & N2).
  destruct (pop_frame (snd (pop t2)))
    as (A3 & X3 & Y3 & _ & C3 & Z3 & I3 & D3 & B3 & O3 & N3).
  destruct (pop t2) as [lo t3]. cbn [fst snd] in *.
  destruct (pop t3) as [hi t4]. cbn [fst snd] in *.
  assert (RR : forall b, read t2 b = read t b)
    by (intros b; apply read_ram; congruence).
  rewrite FS, S1 in V2, S2, V3, S3. rewrite RR in V2, V3.
  fields.
  destruct F as (F1 & F2 & F3 & F4 & F5 & F6 & F7).
  repeat match goal with |- _ /\ _ => split end; congruence.
Qed.

Lemma brk_entry_state (s : cpu) (ret : Z) :
  let s0 := set_rPC ret (set_fB 1 s) in
  rS s0 = rS s /\ ramLength s0 = ramLength s /\
  (forall b, read s0 b = read s b) /\
  (rA s0 = rA s /\ rX s0 = rX s /\ rY s0 = rY s) /\
  (fC s0 = fC s /\ fZ s0 = fZ s /\ fD s0 = fD s /\ fV s0 = fV s /\ fN s0 = fN s) /\
  fB s0 = 1.
Proof. cbv zeta. repeat split. Qed.

Lemma set_fI_frame (v : Z) (t : cpu) :
  rS (set_fI v t) = rS t /\
  (rA (set_fI v t) = rA t /\ rX (set_fI v t) = rX t /\ rY (set_fI v t) = rY t) /\
  (fC (set_fI v t) = fC t /\ fZ (set_fI v t) = fZ t /\ fD (set_fI v t) = fD t /\
   fV (set_fI v t) = fV t /\ fN (set_fI v t) = fN t /\ fB (set_fI v t) = fB t) /\
  fI (set_fI v t) = v.
Proof. repeat split. Qed.

Lemma set_rPC_frame (v : Z) (t : cpu) :
  rPC (set_rPC v t) = v /\ rS (set_rPC v t) = rS t /\
  (rA (set_rPC v t) = rA t /\ rX (set_rPC v t) = rX t /\ rY (set_rPC v t) = rY t) /\
  (fC (set_rPC v t) = fC t /\ fZ (set_rPC v t) = fZ t /\ fI (set_rPC v t) = fI t /\
   fD (set_rPC v t) = fD t /\ fV (set_rPC v t) = fV t /\ fN (set_rPC v t) = fN t /\
   fB (set_rPC v t) = fB t).
Proof. repeat split. Qed.

Lemma BRK_unfold (s : cpu) :
  let ret := Z.land (rPC s + 1) 0xFFFF in
  let s0 := set_rPC ret (set_fB 1 s) in
  let s3 := push (Z.lor (getStatus (set_fB 1 s)) 0x10)
              (push (Z.land ret 0xFF) (push (Z.land (Z.shiftr ret 8) 0xFF) s0)) in
  BRK s = set_rPC (word (read s3 0xFFFE) (read s3 0xFFFF)) (set_fI 1 s3).
Proof.
  cbv zeta. unfold BRK. cbv zeta.
  rewrite !getStatus_push, !push_rPC, !read_set_fI, getStatus_set_rPC.
  reflexivity.
Qed.

Lemma BRK_fields (s : cpu) :
  byte_ok (rS s) -> 0x200 <= ramLength s ->
  let ret := Z.land (rPC s + 1) 0xFFFF in
  let x1 := Z.land (rS s - 1) 0xFF in
  let x2 := Z.land (x1 - 1) 0xFF in
  let t := BRK s in
  rPC t = word (read s 0xFFFE) (read s 0xFFFF) /\ fI t = 1 /\ fB t = 1 /\
  rS t = Z.land (x2 - 1) 0xFF /\
  read t (0x100 + x2) = Z.land (Z.lor (getStatus (set_fB 1 s)) 0x10) 0xFF /\
  read t (0x100 + x1) = Z.land (Z.land ret 0xFF) 0xFF /\
  read t (0x100 + rS s) = Z.land (Z.land (Z.shiftr ret 8) 0xFF) 0xFF /\
  (rA t = rA s /\ rX t = rX s /\ rY t = rY s) /\
  (fC t = fC s /\ fZ t = fZ s /\ fD t = fD s /\ fV t = fV s /\ fN t = fN s).
Proof.
  intros HS HR. cbv zeta.
  pose proof (BRK_unfold s) as EB. cbv zeta in EB. rewrite EB. clear EB.
  remember (Z.land (rPC s + 1) 0xFFFF) as ret eqn:Eret.
  destruct (brk_entry_state s ret)
    as (HS0 & HR0 & HRd & (HA & HX & HY) & (HC & HZ & HD & HV & HN) & HB).
  cbv zeta in HS0, HR0, HRd, HA, HX, HY, HC, HZ, HD, HV, HN, HB.
  remember (set_rPC ret (set_fB 1 s)) as s0 eqn:E0.
  assert (HS' : byte_ok (rS s0)) by (rewrite HS0; exact HS).
  assert (HR' : 0x200 <= ramLength s0) by (rewrite HR0; exact HR).
  destruct (pushes_fields s0 (Z.land (Z.shiftr ret 8) 0xFF) (Z.land ret 0xFF)
              (Z.lor (getStatus (set_fB 1 s)) 0x10) HS' HR')
    as (_ & (P1 & P2 & P3 & P4)). cbv zeta in P1, P2, P3, P4.
  rewrite HS0 in P1, P2, P3, P4.
  assert (V1 : read (push (Z.lor (getStatus (set_fB 1 s)) 0x10)
                 (push (Z.land ret 0xFF) (push (Z.land (Z.shiftr ret 8) 0xFF) s0))) 0xFFFE
               = read s 0xFFFE).
  { rewrite !read_push_other by (apply Z.leb_le; reflexivity). apply HRd. }
  assert (V2 : read (push (Z.lor (getStatus (set_fB 1 s)) 0x10)
                 (push (Z.land ret 0xFF) (push (Z.land (Z.shiftr ret 8) 0xFF) s0))) 0xFFFF
               = read s 0xFFFF).
  { rewrite !read_push_other by (apply Z.leb_le; reflexivity). apply HRd. }
  assert (F3 : (rA (push (Z.lor (getStatus (set_fB 1 s)) 0x10)
                 (push (Z.land ret 0xFF) (push (Z.land (Z.shiftr ret 8) 0xFF) s0))) = rA s0 /\
                rX (push (Z.lor (getStatus (set_fB 1 s)) 0x10)
                 (push (Z.land ret 0xFF) (push (Z.land (Z.shiftr ret 8) 0xFF) s0))) = rX s0 /\
                rY (push (Z.lor (getStatus (set_fB 1 s)) 0x10)
                 (push (Z.land ret 0xFF) (push (Z.land (Z.shiftr ret 8) 0xFF) s0))) = rY s0) /\
               (fC (push (Z.lor (getStatus (set_fB 1 s)) 0x10)
                 (push (Z.land ret 0xFF) (push (Z.land (Z.shiftr ret 8) 0xFF) s0))) = fC s0 /\
                fZ (push (Z.lor (getStatus (set_fB 1 s)) 0x10)
                 (push (Z.land ret 0xFF) (push (Z.land (Z.shiftr ret 8) 0xFF) s0))) = fZ s0 /\
                fD (push (Z.lor (getStatus (set_fB 1 s)) 0x10)
                 (push (Z.land ret 0xFF) (push (Z.land (Z.shiftr ret 8) 0xFF) s0))) = fD s0 /\
                fV (push (Z.lor (getStatus (set_fB 1 s)) 0x10)
                 (push (Z.land ret 0xFF) (push (Z.land (Z.shiftr ret 8) 0xFF) s0))) = fV s0 /\
                fN (push (Z.lor (getStatus (set_fB 1 s)) 0x10)
                 (push (Z.land ret 0xFF) (push (Z.land (Z.shiftr ret 8) 0xFF) s0))) = fN s0) /\
               fB (push (Z.lor (getStatus (set_fB 1 s)) 0x10)
                 (push (Z.land ret 0xFF) (push (Z.land (Z.shiftr ret 8) 0xFF) s0))) = fB s0)
    by (autorewrite with frame; repeat split).
  remember (push (Z.lor (getStatus (set_fB 1 s)) 0x10)
              (push (Z.land ret 0xFF) (push (Z.land (Z.shiftr ret 8) 0xFF) s0))) as s3 eqn:E3.
  destruct F3 as ((GA & GX & GY) & (GC & GZ & GD & GV & GN) & GB).
  rewrite V1, V2.
  remember (word (read s 0xFFFE) (read s 0xFFFF)) as vec.
  destruct (set_rPC_frame vec (set_fI 1 s3))
    as (K0 & K1 & (KA & KX & KY) & (KC & KZ & KI & KD & KV & KN & KB)).
  destruct (set_fI_frame 1 s3)
    as (L1 & (LA & LX & LY) & (LC & LZ & LD & LV & LN & LB) & LI).
  rewrite !read_set_rPC, !read_set_fI.
  repeat match goal with |- _ /\ _ => split end; congruence.
Qed.

(** X4.  RTI undoes BRK.  BRK, entered with PC behind its opcode, jumps
    through the vector at 0xFFFE/0xFFFF with I set; RTI then resumes one byte
    further on (BRK's padding byte is skipped) with the stack pointer, the
    registers and the flags C, Z, I, D, V, N as they were.  B is left set:
    BRK sets it before it packs the status byte. *)
Theorem rti_after_brk (s : cpu) :
  flags_ok s -> byte_ok (rS s) -> 0x200 <= ramLength s ->
  let t := BRK s in
  let s' := RTI t in
  (rPC t = word (read s 0xFFFE) (read s 0xFFFF) /\ fI t = 1) /\
  rPC s' = Z.land (rPC s + 1) 0xFFFF /\ rS s' = rS s /\
  (rA s' = rA s /\ rX s' = rX s /\ rY s' = rY s) /\
  (fC s' = fC s /\ fZ s' = fZ s /\ fI s' = fI s /\ fD s' = fD s /\
   fV s' = fV s /\ fN s' = fN s) /\
  fB s' = 1.
Proof.
  intros HF HS HR. cbv zeta.
  destruct (BRK_fields s HS HR)
    as (B0 & BI & BB & B1 & B2 & B3 & B4 & (BA & BX & BY) & _).
  cbv zeta in B1, B2, B3, B4.
  destruct (RTI_fields (BRK s))
    as (T0 & T1 & _ & (TA & TX & TY) & (TN & TV & TB & TD & TI & TZ & TC)).
  cbv zeta in T0, T1, TN, TV, TB, TD, TI, TZ, TC.
  destruct (stack_arith (rS s) HS) as ((A1 & A2 & A3) & _). cbv zeta in A1, A2, A3.
  rewrite B1, A3 in T0, T1, TN, TV, TB, TD, TI, TZ, TC.
  rewrite A2 in T0, T1. rewrite A1 in T0, T1.
  rewrite B2 in TN, TV, TB, TD, TI, TZ, TC. rewrite B3, B4 in T0.
  destruct (bytes_of_word (Z.land (rPC s + 1) 0xFFFF) (land16_range _)) as (_ & BW).
  rewrite BW in T0.
  assert (HF1 : flags_ok (set_fB 1 s)).
  { destruct HF as (HC & HZ & HI & HD & HB & HV & HN).
    repeat split; try assumption; right; reflexivity. }
  destruct (status_bits (set_fB 1 s) true HF1)
    as (QN & QV & QD & QI & QZ & QC & QB).
  cbv zeta iota in QN, QV, QD, QI, QZ, QC, QB.
  rewrite QN in TN. rewrite QV in TV. rewrite QD in TD. rewrite QI in TI.
  rewrite QZ in TZ. rewrite QC in TC. rewrite QB in TB.
  split; [ split; [ exact B0 | exact BI ] | ].
  split; [ exact T0 | split; [ exact T1 | ] ].
  split; [ rewrite TA, TX, TY; split; [ exact BA | split; [ exact BX | exact BY ] ] | ].
  split; [ | exact TB ].
  split; [ exact TC | split; [ exact TZ | split; [ exact TI | ] ] ].
  split; [ exact TD | split; [ exact TV | exact TN ] ].
Qed.

Lemma rti_after_brk_witness :
  (flags_ok (set_rPC 0x0601 (mose 4)) /\ byte_ok (rS (set_rPC 0x0601 (mose 4))) /\
   0x200 <= ramLength (set_rPC 0x0601 (mose 4))) /\
  rPC (RTI (BRK (set_rPC 0x0601 (mose 4)))) = 0x0602 /\
  rS (RTI (BRK (set_rPC 0x0601 (mose 4)))) = 0xFF /\
  fB (RTI (BRK (set_rPC 0x0601 (mose 4)))) = 1.
Proof.
  assert (H1 : flags_ok (set_rPC 0x0601 (mose 4)))
    by (repeat split; left; reflexivity).
  assert (H2 : byte_ok (rS (set_rPC 0x0601 (mose 4)))) by (split; run_it).
  assert (H3 : 0x200 <= ramLength (set_rPC 0x0601 (mose 4))) by run_it.
  split; [ split; [ exact H1 | split; [ exact H2 | exact H3 ] ] | ].
  destruct (rti_after_brk (set_rPC 0x0601 (mose 4)) H1 H2 H3)
    as (_ & E1 & E2 & _ & _ & E3).
  split; [ exact E1 | split; [ exact E2 | exact E3 ] ].
Defined.

Lemma triggerNMI_frame (s : cpu) :
  rS (triggerNMI s) = rS s /\ rPC (triggerNMI s) = rPC s /\
  ramLength (triggerNMI s) = ramLength s /\
  getStatus (triggerNMI s) = getStatus s /\
  (rA (triggerNMI s) = rA s /\ rX (triggerNMI s) = rX s /\ rY (triggerNMI s) = rY s) /\
  _nmiEdge (triggerNMI s) = true /\ _breakFlag (triggerNMI s) = _breakFlag s.
Proof. repeat split. Qed.

(** X5.  RTI undoes the NMI entry: it resumes at the interrupted PC with the
    stack pointer, the registers and the flags C, Z, I, D, V, N as they were
    before the interrupt.  B is left clear: the entry packs the status byte
    with bit 4 cleared. *)
Theorem rti_after_nmi (s : cpu) :
  flags_ok s -> byte_ok (rS s) -> 0x200 <= ramLength s -> 0 <= rPC s <= 0xFFFF ->
  let t := snd (handleNMI (triggerNMI s)) in
  let s' := RTI t in
  (rPC t = word (read s 0xFFFA) (read s 0xFFFB) /\ fI t = 1) /\
  rPC s' = rPC s /\ rS s' = rS s /\
  (rA s' = rA s /\ rX s' = rX s /\ rY s' = rY s) /\
  (fC s' = fC s /\ fZ s' = fZ s /\ fI s' = fI s /\ fD s' = fD s /\
   fV s' = fV s /\ fN s' = fN s) /\
  fB s' = 0.
Proof.
  intros HF HS HR HP. cbv zeta.
  destruct (triggerNMI_frame s) as (NS & NP & NR & NG & (NA & NX & NY) & NE & _).
  destruct (handleNMI_fields (triggerNMI s) NE)
    as (_ & (H1 & H2) & HI & HPC & _ & (_ & HA & HX & HY) & _).
  cbv zeta in H1, H2, HPC.
  assert (HS' : byte_ok (rS (triggerNMI s))) by (rewrite NS; exact HS).
  assert (HR' : 0x200 <= ramLength (triggerNMI s)) by (rewrite NR; exact HR).
  destruct (pushes_fields (triggerNMI s)
              (Z.land (Z.shiftr (rPC (triggerNMI s)) 8) 0xFF)
              (Z.land (rPC (triggerNMI s)) 0xFF)
              (Z.land (getStatus (triggerNMI s)) (Z.lnot 0x10)) HS' HR')
    as (_ & (P1 & P2 & P3 & P4)). cbv zeta in P1, P2, P3, P4.
  rewrite <- H2 in P1.
  rewrite <- (read_ram _ _ _ H1) in P2. rewrite <- (read_ram _ _ _ H1) in P3.
  rewrite <- (read_ram _ _ _ H1) in P4.
  rewrite NS in P1, P2, P3, P4. rewrite NP in P3, P4. rewrite NG in P2.
  rewrite NA in HA. rewrite NX in HX. rewrite NY in HY.
  assert (HV : rPC (snd (handleNMI (triggerNMI s))) = word (read s 0xFFFA) (read s 0xFFFB))
    by exact HPC.
  clear H1 H2 HPC.
  remember (snd (handleNMI (triggerNMI s))) as t eqn:Et.
  destruct (RTI_fields t)
    as (T0 & T1 & _ & (TA & TX & TY) & (TN & TV & TB & TD & TI & TZ & TC)).
  cbv zeta in T0, T1, TN, TV, TB, TD, TI, TZ, TC.
  destruct (stack_arith (rS s) HS) as ((A1 & A2 & A3) & _). cbv zeta in A1, A2, A3.
  rewrite P1, A3 in T0, T1, TN, TV, TB, TD, TI, TZ, TC.
  rewrite A2 in T0, T1. rewrite A1 in T0, T1.
  rewrite P2 in TN, TV, TB, TD, TI, TZ, TC. rewrite P3, P4 in T0.
  destruct (bytes_of_word (rPC s) HP) as (_ & BW).
  rewrite BW in T0.
  destruct (status_bits s false HF) as (QN & QV & QD & QI & QZ & QC & QB).
  cbv zeta iota in QN, QV, QD, QI, QZ, QC, QB.
  rewrite QN in TN. rewrite QV in TV. rewrite QD in TD. rewrite QI in TI.
  rewrite QZ in TZ. rewrite QC in TC. rewrite QB in TB.
  split; [ split; [ exact HV | exact HI ] | ].
  split; [ exact T0 | split; [ exact T1 | ] ].
  split; [ rewrite TA, TX, TY; split; [ exact HA | split; [ exact HX | exact HY ] ] | ].
  split; [ | exact TB ].
  split; [ exact TC | split; [ exact TZ | split; [ exact TI | ] ] ].
  split; [ exact TD | split; [ exact TV | exact TN ] ].
Qed.

Lemma rti_after_nmi_witness :
  (flags_ok (set_rPC 0x0612 (mose 4)) /\ byte_ok (rS (set_rPC 0x0612 (mose 4))) /\
   0x200 <= ramLength (set_rPC 0x0612 (mose 4)) /\
   0 <= rPC (set_rPC 0x0612 (mose 4)) <= 0xFFFF) /\
  rPC (RTI (snd (handleNMI (triggerNMI (set_rPC 0x0612 (mose 4)))))) = 0x0612 /\
  rS (RTI (snd (handleNMI (triggerNMI (set_rPC 0x0612 (mose 4)))))) = 0xFF /\
  fI (RTI (snd (handleNMI (triggerNMI (set_rPC 0x0612 (mose 4)))))) = 0.
Proof.
  assert (H1 : flags_ok (set_rPC 0x0612 (mose 4)))
    by (repeat split; left; reflexivity).
  assert (H2 : byte_ok (rS (set_rPC 0x0612 (mose 4)))) by (split; run_it).
  assert (H3 : 0x200 <= ramLength (set_rPC 0x0612 (mose 4))) by run_it.
  assert (H4 : 0 <= rPC (set_rPC 0x0612 (mose 4)) <= 0xFFFF) by (split; run_it).
  split; [ split; [ exact H1 | split; [ exact H2 | split; [ exact H3 | exact H4 ] ] ] | ].
  destruct (rti_after_nmi (set_rPC 0x0612 (mose 4)) H1 H2 H3 H4)
    as (_ & E1 & E2 & _ & (_ & _ & E3 & _) & _).
  split; [ exact E1 | split; [ exact E2 | exact E3 ] ].
Defined.

(** ** Push and pull instructions *)

Lemma PLA_fields (t : cpu) :
  let a1 := Z.land (rS t + 1) 0xFF in
  let v := read t (0x100 + a1) in
  rA (PLA t) = v /\ rS (PLA t) = a1 /\ rX (PLA t) = rX t /\ rY (PLA t) = rY t /\
  rPC (PLA t) = rPC t /\ ram (PLA t) = ram t /\
  fZ (PLA t) = b2z (Z.land v 0xFF =? 0) /\
  fN (PLA t) = b2z (truthy (Z.land (Z.land v 0xFF) 0x80)) /\
  (fC (PLA t) = fC t /\ fI (PLA t) = fI t /\ fD (PLA t) = fD t /\
   fB (PLA t) = fB t /\ fV (PLA t) = fV t).
Proof.
  cbv zeta.
  destruct (pop_fields t) as (V1 & S1 & R1 & _). cbv zeta in V1, S1.
  destruct (pop_frame t) as (A1 & X1 & Y1 & P1 & C1 & Z1 & I1 & D1 & B1 & O1 & N1).
  unfold PLA. destruct (pop t) as [v t1]. cbn [fst snd] in *.
  unfold setZN. cbv zeta. fields. subst v.
  repeat match goal with |- _ /\ _ => split end; solve [ reflexivity | assumption ].
Qed.

Lemma byte_sign (v : Z) :
  byte_ok v ->
  b2z (Z.land v 0xFF =? 0) = b2z (v =? 0) /\
  b2z (truthy (Z.land (Z.land v 0xFF) 0x80)) = b2z (128 <=? v).
Proof.
  intros H.
  assert (E : (b2z (Z.land v 0xFF =? 0) =? b2z (v =? 0)) &&
              (b2z (truthy (Z.land (Z.land v 0xFF) 0x80)) =? b2z (128 <=? v)) = true).
  { revert v H. refine (all_bytes _ _). vm_compute. reflexivity. }
  apply andb_true_iff in E. destruct E as [E1 E2].
  apply Z.eqb_eq in E1, E2. split; assumption.
Qed.

(** X6.  PLA undoes PHA: the accumulator and the stack pointer are as before
    the pair, also around the wrap of the stack pointer; Z and N are set
    from the accumulator, the other registers and flags are untouched. *)
Theorem pla_after_pha (s : cpu) :
  byte_ok (rA s) -> byte_ok (rS s) -> 0x100 + rS s < ramLength s ->
  let s' := PLA (PHA s) in
  rA s' = rA s /\ rS s' = rS s /\ rX s' = rX s /\ rY s' = rY s /\ rPC s' = rPC s /\
  fZ s' = b2z (rA s =? 0) /\ fN s' = b2z (128 <=? rA s) /\
  (fC s' = fC s /\ fI s' = fI s /\ fD s' = fD s /\ fB s' = fB s /\ fV s' = fV s).
Proof.
  intros HA HS HR. cbv zeta. unfold PHA.
  destruct (PLA_fields (push (rA s) s))
    as (PA & PS & PX & PY & PP & _ & PZ & PN & (PC & PI & PD & PB & PV)).
  cbv zeta in PA, PS, PZ, PN.
  rewrite push_rS, (stack_step_back _ HS) in PA, PS, PZ, PN.
  pose proof (land_byte_id _ HS) as EL.
  assert (RS : read (push (rA s) s) (0x100 + rS s) = rA s).
  { rewrite <- EL at 1. rewrite read_push_slot by (rewrite EL; exact HR).
    apply land_byte_id, HA. }
  rewrite RS in PA, PZ, PN.
  destruct (byte_sign (rA s) HA) as (BZ & BN). rewrite BZ in PZ. rewrite BN in PN.
  autorewrite with frame in PX, PY, PP, PC, PI, PD, PB, PV.
  repeat match goal with |- _ /\ _ => split end; assumption.
Qed.

Lemma pla_after_pha_witness :
  (byte_ok (rA (set_rA 0x80 (mose 4))) /\ byte_ok (rS (set_rA 0x80 (mose 4))) /\
   0x100 + rS (set_rA 0x80 (mose 4)) < ramLength (set_rA 0x80 (mose 4))) /\
  rA (PLA (PHA (set_rA 0x80 (mose 4)))) = 0x80 /\
  rS (PLA (PHA (set_rA 0x80 (mose 4)))) = 0xFF /\
  fN (PLA (PHA (set_rA 0x80 (mose 4)))) = 1.
Proof.
  assert (H1 : byte_ok (rA (set_rA 0x80 (mose 4)))) by (split; run_it).
  assert (H2 : byte_ok (rS (set_rA 0x80 (mose 4)))) by (split; run_it).
  assert (H3 : 0x100 + rS (set_rA 0x80 (mose 4)) < ramLength (set_rA 0x80 (mose 4)))
    by run_it.
  split; [ split; [ exact H1 | split; [ exact H2 | exact H3 ] ] | ].
  destruct (pla_after_pha (set_rA 0x80 (mose 4)) H1 H2 H3)
    as (E1 & E2 & _ & _ & _ & _ & E3 & _).
  split; [ exact E1 | split; [ exact E2 | exact E3 ] ].
Defined.

Lemma PLP_fields (t : cpu) :
  let a1 := Z.land (rS t + 1) 0xFF in
  let p := read t (0x100 + a1) in
  rS (PLP t) = a1 /\ rA (PLP t) = rA t /\ rX (PLP t) = rX t /\ rY (PLP t) = rY t /\
  rPC (PLP t) = rPC t /\
  (fN (PLP t) = Z.land (Z.shiftr p 7) 1 /\ fV (PLP t) = Z.land (Z.shiftr p 6) 1 /\
   fB (PLP t) = Z.land (Z.shiftr p 4) 1 /\ fD (PLP t) = Z.land (Z.shiftr p 3) 1 /\
   fI (PLP t) = Z.land (Z.shiftr p 2) 1 /\ fZ (PLP t) = Z.land (Z.shiftr p 1) 1 /\
   fC (PLP t) = Z.land p 1).
Proof.
  cbv zeta.
  destruct (pop_fields t) as (V1 & S1 & R1 & _). cbv zeta in V1, S1.
  destruct (pop_frame t) as (A1 & X1 & Y1 & P1 & _).
  unfold PLP. destruct (pop t) as [p t1]. cbn [fst snd] in *.
  destruct (setStatus_fields p t1) as (F & FA & FX & FY & FS & FP & _).
  cbv zeta in F, FA, FX, FY, FS, FP. subst p.
  destruct F as (F1 & F2 & F3 & F4 & F5 & F6 & F7).
  repeat match goal with |- _ /\ _ => split end; congruence.
Qed.

(** X7.  PLP after PHP restores the stack pointer and the flags C, Z, I, D, V
    and N, but leaves B set whatever it was: PHP packs the status byte with
    bit 4 set and PLP unpacks bit 4 into B. *)
Theorem plp_after_php (s : cpu) :
  flags_ok s -> byte_ok (rS s) -> 0x100 + rS s < ramLength s ->
  let s' := PLP (PHP s) in
  rS s' = rS s /\ rA s' = rA s /\ rX s' = rX s /\ rY s' = rY s /\ rPC s' = rPC s /\
  (fC s' = fC s /\ fZ s' = fZ s /\ fI s' = fI s /\ fD s' = fD s /\
   fV s' = fV s /\ fN s' = fN s) /\
  fB s' = 1.
Proof.
  intros HF HS HR. cbv zeta. unfold PHP.
  destruct (PLP_fields (push (Z.lor (getStatus s) 0x10) s))
    as (PS & PA & PX & PY & PP & (TN & TV & TB & TD & TI & TZ & TC)).
  cbv zeta in PS, TN, TV, TB, TD, TI, TZ, TC.
  rewrite push_rS, (stack_step_back _ HS) in PS, TN, TV, TB, TD, TI, TZ, TC.
  pose proof (land_byte_id _ HS) as EL.
  assert (RS : read (push (Z.lor (getStatus s) 0x10) s) (0x100 + rS s)
               = Z.land (Z.lor (getStatus s) 0x10) 0xFF).
  { rewrite <- EL at 1. apply read_push_slot. rewrite EL. exact HR. }
  rewrite RS in TN, TV, TB, TD, TI, TZ, TC.
  destruct (status_bits s true HF) as (QN & QV & QD & QI & QZ & QC & QB).
  cbv zeta iota in QN, QV, QD, QI, QZ, QC, QB.
  rewrite QN in TN. rewrite QV in TV. rewrite QD in TD. rewrite QI in TI.
  rewrite QZ in TZ. rewrite QC in TC. rewrite QB in TB.
  autorewrite with frame in PA, PX, PY, PP.
  repeat match goal with |- _ /\ _ => split end; assumption.
Qed.

Lemma plp_after_php_witness :
  (flags_ok (mose 4) /\ byte_ok (rS (mose 4)) /\
   0x100 + rS (mose 4) < ramLength (mose 4)) /\
  fB (mose 4) = 0 /\ fB (PLP (PHP (mose 4))) = 1 /\ rS (PLP (PHP (mose 4))) = 0xFF.
Proof.
  assert (H1 : flags_ok (mose 4)) by (repeat split; left; reflexivity).
  assert (H2 : byte_ok (rS (mose 4))) by (split; run_it).
  assert (H3 : 0x100 + rS (mose 4) < ramLength (mose 4)) by run_it.
  split; [ split; [ exact H1 | split; [ exact H2 | exact H3 ] ] | ].
  destruct (plp_after_php (mose 4) H1 H2 H3) as (E1 & _ & _ & _ & _ & _ & E2).
  split; [ reflexivity | split; [ exact E2 | exact E1 ] ].
Defined.

(** ** Arithmetic *)

Lemma ADC_binary_fields (s : cpu) (v : Z) :
  fD s = 0 ->
  let a := rA s in
  let w := Z.land v 0xFF in
  let sum := a + w + b2z (truthy (fC s)) in
  let s' := ADC v s in
  rA s' = Z.land sum 0xFF /\ fC s' = b2z (sum >? 0xFF) /\
  fV s' = addOverflow a w sum /\
  fZ s' = b2z (Z.land (Z.land sum 0xFF) 0xFF =? 0) /\
  fN s' = b2z (truthy (Z.land (Z.land (Z.land sum 0xFF) 0xFF) 0x80)) /\
  (rX s' = rX s /\ rY s' = rY s /\ rS s' = rS s /\ rPC s' = rPC s /\ ram s' = ram s /\
   fI s' = fI s /\ fD s' = fD s /\ fB s' = fB s).
Proof.
  intros HD. cbv zeta. unfold ADC.
  assert (E : (fD s =? 0) = true) by (apply Z.eqb_eq; exact HD).
  rewrite E. cbv zeta.
  unfold setZN. cbv zeta. fields.
  repeat match goal with |- _ /\ _ => split end; reflexivity.
Qed.

(** The two's-complement reading of a byte. *)
Lemma binary_add_arith (a v : Z) (b : bool) :
  byte_ok a -> byte_ok v ->
  let signed := fun x => if x <? 128 then x else x - 256 in
  let sum := a + v + b2z b in
  let r := sum mod 256 in
  Z.land sum 0xFF = r /\
  addOverflow a v sum = b2z (negb ((-128 <=? signed a + signed v + b2z b)
                                   && (signed a + signed v + b2z b <=? 127))) /\
  b2z (Z.land (Z.land sum 0xFF) 0xFF =? 0) = b2z (r =? 0) /\
  b2z (truthy (Z.land (Z.land (Z.land sum 0xFF) 0xFF) 0x80)) = b2z (128 <=? r).
Proof.
  intros Ha Hv. cbv zeta.
  rewrite <- !Z.eqb_eq.
  match goal with
  | |- ?e1 = true /\ ?e2 = true /\ ?e3 = true /\ ?e4 = true =>
      cut (e1 && e2 && e3 && e4 = true);
      [ intros H; repeat (apply andb_true_iff in H; destruct H as [H ?]);
        repeat split; assumption | ]
  end.
  revert a v b Ha Hv. refine (all_bytes2b _ _). vm_compute. reflexivity.
Qed.

Lemma adc_binary_core (s : cpu) (v : Z) :
  fD s = 0 -> byte_ok (rA s) -> byte_ok v ->
  let signed := fun x => if x <? 128 then x else x - 256 in
  let c := b2z (truthy (fC s)) in
  let sum := rA s + v + c in
  let s' := ADC v s in
  rA s' = sum mod 256 /\ fC s' = b2z (sum >? 0xFF) /\
  fV s' = b2z (negb ((-128 <=? signed (rA s) + signed v + c)
                     && (signed (rA s) + signed v + c <=? 127))) /\
  fZ s' = b2z (sum mod 256 =? 0) /\ fN s' = b2z (128 <=? sum mod 256) /\
  (rX s' = rX s /\ rY s' = rY s /\ rS s' = rS s /\ rPC s' = rPC s /\ ram s' = ram s /\
   fI s' = fI s /\ fD s' = fD s /\ fB s' = fB s).
Proof.
  intros HD Ha Hv. cbv zeta.
  destruct (ADC_binary_fields s v HD) as (FA & FC & FV & FZ & FN & Fr).
  cbv zeta in FA, FC, FV, FZ, FN. rewrite (land_byte_id v Hv) in FA, FC, FV, FZ, FN.
  destruct (binary_add_arith (rA s) v (truthy (fC s)) Ha Hv) as (GA & GV & GZ & GN).
  cbv zeta in GA, GV, GZ, GN.
  rewrite FA, FC, FV, FZ, FN, GZ, GN, GV, GA.
  repeat match goal with |- _ /\ _ => split end; solve [ reflexivity | apply Fr ].
Qed.

(** X9.  Binary-mode ADC is 8-bit addition with carry: the accumulator takes
    the sum modulo 256, C is the carry out, V says that the sum of the
    operands read as two's-complement numbers does not fit in a signed
    byte, and Z and N describe the new accumulator; nothing else changes. *)
Theorem adc_binary (s : cpu) (v : Z) :
  fD s = 0 -> byte_ok (rA s) -> byte_ok v ->
  let signed := fun x => if x <? 128 then x else x - 256 in
  let c := b2z (truthy (fC s)) in
  let sum := rA s + v + c in
  let s' := ADC v s in
  rA s' = sum mod 256 /\ fC s' = b2z (sum >? 0xFF) /\
  fV s' = b2z (negb ((-128 <=? signed (rA s) + signed v + c)
                     && (signed (rA s) + signed v + c <=? 127))) /\
  fZ s' = b2z (sum mod 256 =? 0) /\ fN s' = b2z (128 <=? sum mod 256) /\
  (rX s' = rX s /\ rY s' = rY s /\ rS s' = rS s /\ rPC s' = rPC s /\ ram s' = ram s /\
   fI s' = fI s /\ fD s' = fD s /\ fB s' = fB s).
Proof. exact (adc_binary_core s v). Qed.

Lemma adc_binary_witness :
  (fD (set_rA 0x7F (mose 4)) = 0 /\ byte_ok (rA (set_rA 0x7F (mose 4))) /\
   byte_ok 0x01) /\
  rA (ADC 0x01 (set_rA 0x7F (mose 4))) = 0x80 /\
  fC (ADC 0x01 (set_rA 0x7F (mose 4))) = 0 /\
  fV (ADC 0x01 (set_rA 0x7F (mose 4))) = 1.
Proof.
  assert (H1 : fD (set_rA 0x7F (mose 4)) = 0) by reflexivity.
  assert (H2 : byte_ok (rA (set_rA 0x7F (mose 4)))) by (split; run_it).
  assert (H3 : byte_ok 0x01) by (split; run_it).
  split; [ split; [ exact H1 | split; [ exact H2 | exact H3 ] ] | ].
  destruct (adc_binary (set_rA 0x7F (mose 4)) 0x01 H1 H2 H3) as (E1 & E2 & E3 & _).
  split; [ exact E1 | split; [ exact E2 | exact E3 ] ].
Defined.

Lemma invert_byte (v : Z) :
  byte_ok v -> Z.land (Z.lxor (Z.land v 0xFF) 0xFF) 0xFF = 255 - v.
Proof.
  intros H. apply Z.eqb_eq. revert v H. refine (all_bytes _ _).
  vm_compute. reflexivity.
Qed.

(** X10.  Binary-mode SBC is 8-bit subtraction with borrow: the accumulator
    takes A - v - (1 - C) modulo 256, C is set when no borrow was needed, V
    says that the signed difference does not fit in a signed byte, Z and N
    describe the new accumulator. *)
Theorem sbc_binary (s : cpu) (v : Z) :
  fD s = 0 -> byte_ok (rA s) -> byte_ok v ->
  let signed := fun x => if x <? 128 then x else x - 256 in
  let borrow := 1 - b2z (truthy (fC s)) in
  let diff := rA s - v - borrow in
  let s' := SBC v s in
  rA s' = diff mod 256 /\ fC s' = b2z (0 <=? diff) /\
  fV s' = b2z (negb ((-128 <=? signed (rA s) - signed v - borrow)
                     && (signed (rA s) - signed v - borrow <=? 127))) /\
  fZ s' = b2z (diff mod 256 =? 0) /\ fN s' = b2z (128 <=? diff mod 256) /\
  (rX s' = rX s /\ rY s' = rY s /\ rS s' = rS s /\ rPC s' = rPC s /\ ram s' = ram s /\
   fI s' = fI s /\ fD s' = fD s /\ fB s' = fB s).
Proof.
  intros HD Ha Hv. cbv zeta.
  assert (E : SBC v s = ADC (255 - v) s).
  { unfold SBC. cbv zeta.
    assert (E0 : (fD s =? 0) = true) by (apply Z.eqb_eq; exact HD).
    rewrite E0, (invert_byte v Hv). reflexivity. }
  rewrite E.
  assert (Hi : byte_ok (255 - v)) by (unfold byte_ok in *; lia).
  destruct (adc_binary_core s (255 - v) HD Ha Hi) as (FA & FC & FV & FZ & FN & Fr).
  cbv zeta in FA, FC, FV, FZ, FN.
  assert (M : (rA s + (255 - v) + b2z (truthy (fC s))) mod 256
              = (rA s - v - (1 - b2z (truthy (fC s)))) mod 256).
  { replace (rA s + (255 - v) + b2z (truthy (fC s)))
      with (rA s - v - (1 - b2z (truthy (fC s))) + 1 * 256) by lia.
    apply Z_mod_plus_full. }
  rewrite M in FA, FZ, FN.
  unfold byte_ok in Ha, Hv.
  split; [ exact FA | ].
  split; [ rewrite FC; f_equal;
           destruct (truthy (fC s)); cbn [b2z];
           destruct (Z.gtb_spec (rA s + (255 - v) + 1) 255);
           destruct (Z.gtb_spec (rA s + (255 - v) + 0) 255);
           destruct (Z.leb_spec 0 (rA s - v - (1 - 1)));
           destruct (Z.leb_spec 0 (rA s - v - (1 - 0))); reflexivity || lia | ].
  split; [ rewrite FV; f_equal; f_equal;
           destruct (truthy (fC s)); cbn [b2z];
           destruct (Z.ltb_spec (rA s) 128); destruct (Z.ltb_spec v 128);
           destruct (Z.ltb_spec (255 - v) 128); try lia;
           f_equal; f_equal; lia | ].
  split; [ exact FZ | split; [ exact FN | exact Fr ] ].
Qed.

Lemma sbc_binary_witness :
  (fD (set_rA 0x00 (set_fC 1 (mose 4))) = 0 /\
   byte_ok (rA (set_rA 0x00 (set_fC 1 (mose 4)))) /\ byte_ok 0x01) /\
  rA (SBC 0x01 (set_rA 0x00 (set_fC 1 (mose 4)))) = 0xFF /\
  fC (SBC 0x01 (set_rA 0x00 (set_fC 1 (mose 4)))) = 0.
Proof.
  assert (H1 : fD (set_rA 0x00 (set_fC 1 (mose 4))) = 0) by reflexivity.
  assert (H2 : byte_ok (rA (set_rA 0x00 (set_fC 1 (mose 4))))) by (split; run_it).
  assert (H3 : byte_ok 0x01) by (split; run_it).
  split; [ split; [ exact H1 | split; [ exact H2 | exact H3 ] ] | ].
  destruct (sbc_binary (set_rA 0x00 (set_fC 1 (mose 4))) 0x01 H1 H2 H3)
    as (E1 & E2 & _).
  split; [ exact E1 | exact E2 ].
Defined.

(** ** Decimal mode *)

Lemma bcd_helpers_arith :
  forallb (fun n => bcdToBinary (binaryToBCD n) =? n) (map Z.of_nat (seq 0 100)) = true /\
  forallb (fun b => implb (validBCD b)
                      ((binaryToBCD (bcdToBinary b) =? b) && (bcdToBinary b <=? 99)))
          bytes = true.
Proof. split; vm_compute; reflexivity. Qed.

Lemma bcd_valid_range (x : Z) :
  byte_ok x -> validBCD x = true ->
  binaryToBCD (bcdToBinary x) = x /\ 0 <= bcdToBinary x <= 99.
Proof.
  destruct bcd_helpers_arith as (_ & H2). rewrite forallb_forall in H2.
  intros Hb Hv. pose proof (H2 x (in_bytes x Hb)) as E.
  rewrite Hv in E. cbn [implb] in E.
  apply andb_true_iff in E. destruct E as [E1 E2].
  apply Z.eqb_eq in E1. apply Z.leb_le in E2.
  split; [ exact E1 | split; [ | exact E2 ] ].
  unfold bcdToBinary. unfold byte_ok in Hb.
  assert (0 <= Z.shiftr x 4) by (apply Z.shiftr_nonneg; lia).
  assert (0 <= Z.land x 0x0F) by (apply Z.land_nonneg; lia).
  lia.
Qed.

(** X8.  [binaryToBCD] and [bcdToBinary] are inverse to each other between the
    numbers 0..99 and the bytes whose two nibbles are decimal digits. *)
Theorem bcd_round_trip (x : Z) :
  (0 <= x <= 99 ->
     bcdToBinary (binaryToBCD x) = x /\ validBCD (binaryToBCD x) = true) /\
  (byte_ok x -> validBCD x = true ->
     binaryToBCD (bcdToBinary x) = x /\ 0 <= bcdToBinary x <= 99).
Proof.
  destruct bcd_helpers_arith as (H1 & H2).
  rewrite forallb_forall in H1, H2.
  split.
  - intros Hx.
    assert (Hin : In x (map Z.of_nat (seq 0 100))).
    { replace x with (Z.of_nat (Z.to_nat x)) by lia. apply in_map, in_seq. lia. }
    pose proof (H1 x Hin) as E. apply Z.eqb_eq in E.
    split; [ exact E | ].
    assert (V : forallb (fun n => validBCD (binaryToBCD n)) (map Z.of_nat (seq 0 100)) = true)
      by (vm_compute; reflexivity).
    rewrite forallb_forall in V. exact (V x Hin).
  - intros Hb Hv. exact (bcd_valid_range x Hb Hv).
Qed.

Lemma bcd_round_trip_witness :
  (0 <= 42 <= 99 /\ byte_ok 0x42 /\ validBCD 0x42 = true) /\
  binaryToBCD 42 = 0x42 /\ bcdToBinary 0x42 = 42.
Proof.
  assert (H1 : 0 <= 42 <= 99) by lia.
  assert (H2 : byte_ok 0x42) by (unfold byte_ok; lia).
  assert (H3 : validBCD 0x42 = true) by reflexivity.
  split; [ split; [ exact H1 | split; [ exact H2 | exact H3 ] ] | ].
  destruct (bcd_round_trip 0x42) as (_ & Hb).
  destruct (Hb H2 H3) as (E & _).
  destruct (bcd_round_trip 42) as (Hn & _).
  destruct (Hn H1) as (E' & _).
  split; [ exact E | exact E' ].
Defined.

Lemma in_bcds (x : Z) :
  byte_ok x -> validBCD x = true -> In x (List.filter validBCD bytes).
Proof. intros Hb Hv. apply filter_In. split; [ apply in_bytes, Hb | exact Hv ]. Qed.

Lemma all_bcd2b (f : Z -> Z -> bool -> bool) :
  forallb (fun a => forallb (fun v => f a v true && f a v false)
                      (List.filter validBCD bytes))
          (List.filter validBCD bytes) = true ->
  forall a v b, byte_ok a -> byte_ok v -> validBCD a = true -> validBCD v = true ->
    f a v b = true.
Proof.
  intros H a v b Ha Hv Va Vv.
  rewrite forallb_forall in H. pose proof (H a (in_bcds a Ha Va)) as H1.
  rewrite forallb_forall in H1. pose proof (H1 v (in_bcds v Hv Vv)) as H2.
  apply andb_true_iff in H2. destruct b; tauto.
Qed.

Lemma SBC_decimal_fields (s : cpu) (v : Z) :
  fD s <> 0 ->
  let a := rA s in
  let w := Z.land v 0xFF in
  let bw := if truthy (fC s) then 0 else 1 in
  let al := Z.land a 0x0F - Z.land w 0x0F - bw in
  let ah := Z.shiftr a 4 - Z.shiftr w 4 in
  let al' := if al <? 0 then al - 6 else al in
  let ah' := if al <? 0 then ah - 1 else ah in
  let ah'' := if ah' <? 0 then ah' - 6 else ah' in
  let s' := SBC v s in
  rA s' = Z.land (Z.lor (Z.shiftl ah'' 4) (Z.land al' 0x0F)) 0xFF /\
  fC s' = b2z (ah'' >=? 0) /\
  fZ s' = b2z (Z.land (Z.land (a - w - bw) 0xFF) 0xFF =? 0) /\
  fN s' = b2z (truthy (Z.land (Z.land (Z.land (a - w - bw) 0xFF) 0xFF) 0x80)).
Proof.
  intros HD. cbv zeta. unfold SBC.
  destruct (fD s =? 0) eqn:E; [ apply Z.eqb_eq in E; contradiction | clear E ].
  rewrite if_pair. cbv beta iota zeta. unfold setZN. cbv zeta. fields.
  repeat split.
Qed.

(** On packed-BCD operands the decimal-mode results are packed BCD again,
    and decimal SBC is decimal subtraction with borrow. *)
Lemma decimal_bcd_arith (a v : Z) (b : bool) :
  byte_ok a -> byte_ok v -> validBCD a = true -> validBCD v = true ->
  let c := b2z b in
  let al := Z.land a 0x0F + Z.land v 0x0F + c in
  let ah := Z.shiftr a 4 + Z.shiftr v 4 in
  let al' := if al >? 9 then al + 6 else al in
  let ah' := if al >? 9 then ah + 1 else ah in
  let ah'' := if ah' >? 9 then ah' + 6 else ah' in
  let bw := if b then 0 else 1 in
  let sl := Z.land a 0x0F - Z.land v 0x0F - bw in
  let sh := Z.shiftr a 4 - Z.shiftr v 4 in
  let sl' := if sl <? 0 then sl - 6 else sl in
  let sh' := if sl <? 0 then sh - 1 else sh in
  let sh'' := if sh' <? 0 then sh' - 6 else sh' in
  let diff := bcdToBinary a - bcdToBinary v - bw in
  validBCD (Z.land (Z.lor (Z.shiftl ah'' 4) (Z.land al' 0x0F)) 0xFF) = true /\
  validBCD (Z.land (Z.lor (Z.shiftl sh'' 4) (Z.land sl' 0x0F)) 0xFF) = true /\
  bcdToBinary (Z.land (Z.lor (Z.shiftl sh'' 4) (Z.land sl' 0x0F)) 0xFF) = diff mod 100 /\
  b2z (sh'' >=? 0) = b2z (0 <=? diff).
Proof.
  intros Ha Hv Va Vv. cbv zeta.
  rewrite <- !Z.eqb_eq.
  match goal with
  | |- ?e1 = true /\ ?e2 = true /\ ?e3 = true /\ ?e4 = true =>
      cut (e1 && e2 && e3 && e4 = true);
      [ intros H; do 3 (apply andb_true_iff in H; destruct H as [H ?]);
        repeat match goal with |- _ /\ _ => split end; assumption | ]
  end.
  revert a v b Ha Hv Va Vv. refine (all_bcd2b _ _). vm_compute. reflexivity.
Qed.

(** X11.  Decimal-mode ADC adds packed-BCD numbers: on operands whose nibbles
    are decimal digits the accumulator takes the decimal sum modulo 100, again
    as packed BCD, and C says that the sum reached 100. *)
Theorem adc_decimal_bcd (s : cpu) (v : Z) :
  fD s <> 0 -> byte_ok (rA s) -> byte_ok v ->
  validBCD (rA s) = true -> validBCD v = true ->
  let sum := bcdToBinary (rA s) + bcdToBinary v + b2z (truthy (fC s)) in
  let s' := ADC v s in
  validBCD (rA s') = true /\
  bcdToBinary (rA s') = sum mod 100 /\ fC s' = b2z (100 <=? sum).
Proof.
  intros HD Ha Hv Va Vv. cbv zeta.
  destruct (adc_decimal_330 s v HD Ha Hv) as ((_ & EC & _) & EB).
  cbv zeta in EC, EB. specialize (EB Va Vv).
  destruct (ADC_decimal_fields s v HD) as (FA & _). cbv zeta in FA.
  rewrite (land_byte_id v Hv) in FA.
  destruct (decimal_bcd_arith (rA s) v (truthy (fC s)) Ha Hv Va Vv) as (GV & _).
  cbv zeta in GV. rewrite <- FA in GV.
  assert (HB : byte_ok (rA (ADC v s))) by (rewrite FA; apply byte_ok_land).
  destruct (bcd_valid_range (rA (ADC v s)) HB GV) as (_ & Hr).
  assert (HC : fC (ADC v s) = 0 \/ fC (ADC v s) = 1)
    by (rewrite EC; apply flag_ok_b2z).
  split; [ exact GV | ].
  destruct HC as [HC | HC]; rewrite HC in EB |- *.
  - split.
    + apply Z.mod_unique with (q := 0); lia.
    + destruct (Z.leb_spec 100 (bcdToBinary (rA s) + bcdToBinary v + b2z (truthy (fC s))));
        [ lia | reflexivity ].
  - split.
    + apply Z.mod_unique with (q := 1); lia.
    + destruct (Z.leb_spec 100 (bcdToBinary (rA s) + bcdToBinary v + b2z (truthy (fC s))));
        [ reflexivity | lia ].
Qed.

Lemma adc_decimal_bcd_witness :
  (fD (set_fD 1 (set_rA 0x58 (mose 4))) <> 0 /\
   byte_ok (rA (set_fD 1 (set_rA 0x58 (mose 4)))) /\ byte_ok 0x46 /\
   validBCD (rA (set_fD 1 (set_rA 0x58 (mose 4)))) = true /\ validBCD 0x46 = true) /\
  bcdToBinary (rA (ADC 0x46 (set_fD 1 (set_rA 0x58 (mose 4))))) = 4 /\
  fC (ADC 0x46 (set_fD 1 (set_rA 0x58 (mose 4)))) = 1.
Proof.
  assert (H1 : fD (set_fD 1 (set_rA 0x58 (mose 4))) <> 0) by discriminate.
  assert (H2 : byte_ok (rA (set_fD 1 (set_rA 0x58 (mose 4))))) by (split; run_it).
  assert (H3 : byte_ok 0x46) by (split; run_it).
  assert (H4 : validBCD (rA (set_fD 1 (set_rA 0x58 (mose 4)))) = true) by reflexivity.
  assert (H5 : validBCD 0x46 = true) by reflexivity.
  split; [ repeat match goal with |- _ /\ _ => split end; assumption | ].
  destruct (adc_decimal_bcd (set_fD 1 (set_rA 0x58 (mose 4))) 0x46 H1 H2 H3 H4 H5)
    as (_ & E1 & E2).
  split; [ exact E1 | exact E2 ].
Defined.

(** X12.  Decimal-mode SBC subtracts packed-BCD numbers: on operands whose
    nibbles are decimal digits the accumulator takes the decimal difference
    A - v - (1 - C) modulo 100, again as packed BCD, and C is set when no
    borrow was needed. *)
Theorem sbc_decimal_bcd (s : cpu) (v : Z) :
  fD s <> 0 -> byte_ok (rA s) -> byte_ok v ->
  validBCD (rA s) = true -> validBCD v = true ->
  let diff := bcdToBinary (rA s) - bcdToBinary v - (if truthy (fC s) then 0 else 1) in
  let s' := SBC v s in
  validBCD (rA s') = true /\
  bcdToBinary (rA s') = diff mod 100 /\ fC s' = b2z (0 <=? diff).
Proof.
  intros HD Ha Hv Va Vv. cbv zeta.
  destruct (SBC_decimal_fields s v HD) as (FA & FC & _). cbv zeta in FA, FC.
  rewrite (land_byte_id v Hv) in FA, FC.
  destruct (decimal_bcd_arith (rA s) v (truthy (fC s)) Ha Hv Va Vv)
    as (_ & GV & GD & GC).
  cbv zeta in GV, GD, GC.
  rewrite FA, FC. split; [ exact GV | split; [ exact GD | exact GC ] ].
Qed.

Lemma sbc_decimal_bcd_witness :
  (fD (set_fC 1 (set_fD 1 (set_rA 0x12 (mose 4)))) <> 0 /\
   byte_ok (rA (set_fC 1 (set_fD 1 (set_rA 0x12 (mose 4))))) /\ byte_ok 0x21 /\
   validBCD (rA (set_fC 1 (set_fD 1 (set_rA 0x12 (mose 4))))) = true /\
   validBCD 0x21 = true) /\
  rA (SBC 0x21 (set_fC 1 (set_fD 1 (set_rA 0x12 (mose 4))))) = 0x91 /\
  bcdToBinary (rA (SBC 0x21 (set_fC 1 (set_fD 1 (set_rA 0x12 (mose 4)))))) = 91 /\
  fC (SBC 0x21 (set_fC 1 (set_fD 1 (set_rA 0x12 (mose 4))))) = 0.
Proof.
  assert (H1 : fD (set_fC 1 (set_fD 1 (set_rA 0x12 (mose 4)))) <> 0) by discriminate.
  assert (H2 : byte_ok (rA (set_fC 1 (set_fD 1 (set_rA 0x12 (mose 4))))))
    by (split; run_it).
  assert (H3 : byte_ok 0x21) by (split; run_it).
  assert (H4 : validBCD (rA (set_fC 1 (set_fD 1 (set_rA 0x12 (mose 4))))) = true)
    by reflexivity.
  assert (H5 : validBCD 0x21 = true) by reflexivity.
  split; [ repeat match goal with |- _ /\ _ => split end; assumption | ].
  destruct (sbc_decimal_bcd (set_fC 1 (set_fD 1 (set_rA 0x12 (mose 4)))) 0x21
              H1 H2 H3 H4 H5) as (_ & E1 & E2).
  split; [ reflexivity | split; [ exact E1 | exact E2 ] ].
Defined.

(** ** Compare *)

Lemma compare_fields (r0 v : Z) (s : cpu) :
  let r := Z.land (r0 - Z.land v 0xFF) 0x1FF in
  let s' := compare r0 v s in
  fC s' = b2z (r <? 0x100) /\
  fZ s' = b2z (Z.land (Z.land r 0xFF) 0xFF =? 0) /\
  fN s' = b2z (truthy (Z.land (Z.land (Z.land r 0xFF) 0xFF) 0x80)) /\
  (rA s' = rA s /\ rX s' = rX s /\ rY s' = rY s /\ rS s' = rS s /\ rPC s' = rPC s /\
   ram s' = ram s /\ fI s' = fI s /\ fD s' = fD s /\ fB s' = fB s /\ fV s' = fV s).
Proof. cbv zeta. unfold compare, setZN. cbv zeta. fields. repeat split. Qed.

Lemma compare_arith (r0 w : Z) :
  byte_ok r0 -> byte_ok w ->
  let r := Z.land (r0 - w) 0x1FF in
  b2z (r <? 0x100) = b2z (w <=? r0) /\
  b2z (Z.land (Z.land r 0xFF) 0xFF =? 0) = b2z (r0 =? w) /\
  b2z (truthy (Z.land (Z.land (Z.land r 0xFF) 0xFF) 0x80)) = b2z (128 <=? (r0 - w) mod 256).
Proof.
  intros H0 Hw. cbv zeta. rewrite <- !Z.eqb_eq.
  match goal with
  | |- ?e1 = true /\ ?e2 = true /\ ?e3 = true =>
      cut (e1 && e2 && e3 = true);
      [ intros H; do 2 (apply andb_true_iff in H; destruct H as [H ?]);
        repeat match goal with |- _ /\ _ => split end; assumption | ]
  end.
  revert r0 w H0 Hw. refine (all_bytes2 _ _). vm_compute. reflexivity.
Qed.

(** X13.  CMP, CPX and CPY compare a register with the operand as unsigned
    bytes: C says the register is not below the operand, Z that they are
    equal, N is bit 7 of the difference modulo 256.  The registers, V and
    the memory are untouched. *)
Theorem compare_instructions (s : cpu) (v : Z) :
  byte_ok (rA s) -> byte_ok (rX s) -> byte_ok (rY s) ->
  let w := Z.land v 0xFF in
  let outcome := fun (r : Z) (s' : cpu) =>
    fC s' = b2z (w <=? r) /\ fZ s' = b2z (r =? w) /\
    fN s' = b2z (128 <=? (r - w) mod 256) /\
    rA s' = rA s /\ rX s' = rX s /\ rY s' = rY s /\ ram s' = ram s /\ fV s' = fV s in
  outcome (rA s) (CMP v s) /\ outcome (rX s) (CPX v s) /\ outcome (rY s) (CPY v s).
Proof.
  intros HA HX HY. cbv zeta.
  assert (G : forall r, byte_ok r ->
    fC (compare r v s) = b2z (Z.land v 0xFF <=? r) /\
    fZ (compare r v s) = b2z (r =? Z.land v 0xFF) /\
    fN (compare r v s) = b2z (128 <=? (r - Z.land v 0xFF) mod 256) /\
    rA (compare r v s) = rA s /\ rX (compare r v s) = rX s /\
    rY (compare r v s) = rY s /\ ram (compare r v s) = ram s /\
    fV (compare r v s) = fV s).
  { intros r Hr.
    destruct (compare_fields r v s)
      as (FC & FZ & FN & (FA & FX & FY & _ & _ & FR & _ & _ & _ & FV)).
    cbv zeta in FC, FZ, FN.
    destruct (compare_arith r (Z.land v 0xFF) Hr (byte_ok_land v)) as (GC & GZ & GN).
    cbv zeta in GC, GZ, GN.
    rewrite FC, FZ, FN, GC, GZ, GN.
    repeat match goal with |- _ /\ _ => split end; solve [ reflexivity | assumption ]. }
  unfold CMP, CPX, CPY.
  split; [ exact (G _ HA) | split; [ exact (G _ HX) | exact (G _ HY) ] ].
Qed.

Lemma compare_instructions_witness :
  (byte_ok (rA (set_rA 0x10 (mose 4))) /\ byte_ok (rX (set_rA 0x10 (mose 4))) /\
   byte_ok (rY (set_rA 0x10 (mose 4)))) /\
  fC (CMP 0x20 (set_rA 0x10 (mose 4))) = 0 /\
  fZ (CMP 0x20 (set_rA 0x10 (mose 4))) = 0 /\
  fN (CMP 0x20 (set_rA 0x10 (mose 4))) = 1.
Proof.
  assert (H1 : byte_ok (rA (set_rA 0x10 (mose 4)))) by (split; run_it).
  assert (H2 : byte_ok (rX (set_rA 0x10 (mose 4)))) by (split; run_it).
  assert (H3 : byte_ok (rY (set_rA 0x10 (mose 4)))) by (split; run_it).
  split; [ split; [ exact H1 | split; [ exact H2 | exact H3 ] ] | ].
  destruct (compare_instructions (set_rA 0x10 (mose 4)) 0x20 H1 H2 H3)
    as ((E1 & E2 & E3 & _) & _).
  split; [ exact E1 | split; [ exact E2 | exact E3 ] ].
Defined.

(** ** Shifts and rotates of the accumulator *)

Lemma shift_fields (s : cpu) :
  (rA (ASL_A s) = Z.land (Z.shiftl (rA s) 1) 0xFF /\
   fC (ASL_A s) = Z.land (Z.shiftr (rA s) 7) 1) /\
  (rA (LSR_A s) = Z.land (ushr (rA s) 1) 0xFF /\ fC (LSR_A s) = Z.land (rA s) 1) /\
  (rA (ROL_A s) = Z.land (Z.lor (Z.shiftl (rA s) 1) (fC s)) 0xFF /\
   fC (ROL_A s) = Z.land (Z.shiftr (rA s) 7) 1) /\
  (rA (ROR_A s) = Z.land (Z.lor (ushr (rA s) 1) (Z.shiftl (fC s) 7)) 0xFF /\
   fC (ROR_A s) = Z.land (rA s) 1).
Proof. unfold ASL_A, LSR_A, ROL_A, ROR_A, setZN. cbv zeta. fields. repeat split. Qed.

Lemma shift_arith (a : Z) (b : bool) :
  byte_ok a ->
  let c := b2z b in
  let rol := Z.land (Z.lor (Z.shiftl a 1) c) 0xFF in
  let ror := Z.land (Z.lor (ushr a 1) (Z.shiftl c 7)) 0xFF in
  (Z.land (Z.shiftl a 1) 0xFF = (2 * a) mod 256 /\ Z.land (Z.shiftr a 7) 1 = a / 128) /\
  (Z.land (ushr a 1) 0xFF = a / 2 /\ Z.land a 1 = a mod 2) /\
  (rol = (2 * a + c) mod 256 /\ ror = a / 2 + 128 * c) /\
  (Z.land (Z.lor (ushr rol 1) (Z.shiftl (Z.land (Z.shiftr a 7) 1) 7)) 0xFF = a /\
   Z.land rol 1 = c) /\
  (Z.land (Z.lor (Z.shiftl ror 1) (Z.land a 1)) 0xFF = a /\
   Z.land (Z.shiftr ror 7) 1 = c).
Proof.
  intros Ha. cbv zeta. rewrite <- !Z.eqb_eq.
  match goal with
  | |- (?e1 = true /\ ?e2 = true) /\ (?e3 = true /\ ?e4 = true) /\
       (?e5 = true /\ ?e6 = true) /\ (?e7 = true /\ ?e8 = true) /\
       (?e9 = true /\ ?e10 = true) =>
      cut (e1 && e2 && e3 && e4 && e5 && e6 && e7 && e8 && e9 && e10 = true);
      [ intros H; do 9 (apply andb_true_iff in H; destruct H as [H ?]);
        repeat match goal with |- _ /\ _ => split end; assumption | ]
  end.
  revert b.
  assert (G : forall a, byte_ok a -> forall b : bool,
    (fun a => forallb (fun b =>
      let c := b2z b in
      let rol := Z.land (Z.lor (Z.shiftl a 1) c) 0xFF in
      let ror := Z.land (Z.lor (ushr a 1) (Z.shiftl c 7)) 0xFF in
      (Z.land (Z.shiftl a 1) 0xFF =? (2 * a) mod 256) &&
      (Z.land (Z.shiftr a 7) 1 =? a / 128) &&
      (Z.land (ushr a 1) 0xFF =? a / 2) && (Z.land a 1 =? a mod 2) &&
      (rol =? (2 * a + c) mod 256) && (ror =? a / 2 + 128 * c) &&
      (Z.land (Z.lor (ushr rol 1) (Z.shiftl (Z.land (Z.shiftr a 7) 1) 7)) 0xFF =? a) &&
      (Z.land rol 1 =? c) &&
      (Z.land (Z.lor (Z.shiftl ror 1) (Z.land a 1)) 0xFF =? a) &&
      (Z.land (Z.shiftr ror 7) 1 =? c)) [true; false]) a = true ->
    (let c := b2z b in
      let rol := Z.land (Z.lor (Z.shiftl a 1) c) 0xFF in
      let ror := Z.land (Z.lor (ushr a 1) (Z.shiftl c 7)) 0xFF in
      (Z.land (Z.shiftl a 1) 0xFF =? (2 * a) mod 256) &&
      (Z.land (Z.shiftr a 7) 1 =? a / 128) &&
      (Z.land (ushr a 1) 0xFF =? a / 2) && (Z.land a 1 =? a mod 2) &&
      (rol =? (2 * a + c) mod 256) && (ror =? a / 2 + 128 * c) &&
      (Z.land (Z.lor (ushr rol 1) (Z.shiftl (Z.land (Z.shiftr a 7) 1) 7)) 0xFF =? a) &&
      (Z.land rol 1 =? c) &&
      (Z.land (Z.lor (Z.shiftl ror 1) (Z.land a 1)) 0xFF =? a) &&
      (Z.land (Z.shiftr ror 7) 1 =? c)) = true).
  { intros a0 _ b0 H. cbv beta in H. rewrite forallb_forall in H.
    apply (H b0). destruct b0; [ left | right; left ]; reflexivity. }
  intros b. apply (G a Ha b). revert a Ha. refine (all_bytes _ _).
  vm_compute. reflexivity.
Qed.

(** X14.  The accumulator shifts and rotates as arithmetic on a byte and the
    carry: ASL doubles, LSR halves, ROL and ROR rotate the nine bits of C and
    A; C takes the bit that leaves.  ROR undoes ROL and ROL undoes ROR, on
    the accumulator and on C. *)
Theorem shift_rotate_accumulator (s : cpu) :
  byte_ok (rA s) -> flag_ok (fC s) ->
  (rA (ASL_A s) = (2 * rA s) mod 256 /\ fC (ASL_A s) = rA s / 128) /\
  (rA (LSR_A s) = rA s / 2 /\ fC (LSR_A s) = rA s mod 2) /\
  (rA (ROL_A s) = (2 * rA s + fC s) mod 256 /\ fC (ROL_A s) = rA s / 128) /\
  (rA (ROR_A s) = rA s / 2 + 128 * fC s /\ fC (ROR_A s) = rA s mod 2) /\
  (rA (ROR_A (ROL_A s)) = rA s /\ fC (ROR_A (ROL_A s)) = fC s) /\
  (rA (ROL_A (ROR_A s)) = rA s /\ fC (ROL_A (ROR_A s)) = fC s).
Proof.
  intros HA HC.
  assert (EC : fC s = b2z (fC s =? 1)) by (destruct HC as [-> | ->]; reflexivity).
  destruct (shift_fields s) as ((A1 & A2) & (L1 & L2) & (O1 & O2) & (R1 & R2)).
  destruct (shift_fields (ROL_A s)) as (_ & _ & _ & (RR1 & RR2)).
  destruct (shift_fields (ROR_A s)) as (_ & _ & (OO1 & OO2) & _).
  destruct (shift_arith (rA s) (fC s =? 1) HA)
    as ((G1 & G2) & (G3 & G4) & (G5 & G6) & (G7 & G8) & (G9 & G10)).
  cbv zeta in G5, G6, G7, G8, G9, G10.
  rewrite <- EC in G5, G6, G7, G8, G9, G10.
  rewrite O1, O2 in RR1. rewrite O1 in RR2. rewrite R1, R2 in OO1. rewrite R1 in OO2.
  repeat match goal with |- _ /\ _ => split end; congruence.
Qed.

Lemma shift_rotate_accumulator_witness :
  (byte_ok (rA (set_fC 1 (set_rA 0x81 (mose 4)))) /\
   flag_ok (fC (set_fC 1 (set_rA 0x81 (mose 4))))) /\
  rA (ROL_A (set_fC 1 (set_rA 0x81 (mose 4)))) = 0x03 /\
  fC (ROL_A (set_fC 1 (set_rA 0x81 (mose 4)))) = 1 /\
  rA (ROR_A (ROL_A (set_fC 1 (set_rA 0x81 (mose 4))))) = 0x81.
Proof.
  assert (H1 : byte_ok (rA (set_fC 1 (set_rA 0x81 (mose 4))))) by (split; run_it).
  assert (H2 : flag_ok (fC (set_fC 1 (set_rA 0x81 (mose 4))))) by (right; reflexivity).
  split; [ split; [ exact H1 | exact H2 ] | ].
  destruct (shift_rotate_accumulator (set_fC 1 (set_rA 0x81 (mose 4))) H1 H2)
    as (_ & _ & (E1 & E2) & _ & (E3 & _) & _).
  split; [ exact E1 | split; [ exact E2 | exact E3 ] ].
Defined.

(** ** Increment and decrement *)

Lemma INC_DEC_fields (a : Z) (s : cpu) :
  (ram (INC a s) = ram (write a (Z.land (read s a + 1) 0xFF) s) /\
   fZ (INC a s) = b2z (Z.land (Z.land (read s a + 1) 0xFF) 0xFF =? 0) /\
   fN (INC a s) = b2z (truthy (Z.land (Z.land (Z.land (read s a + 1) 0xFF) 0xFF) 0x80))) /\
  (ram (DEC a s) = ram (write a (Z.land (read s a - 1) 0xFF) s) /\
   fZ (DEC a s) = b2z (Z.land (Z.land (read s a - 1) 0xFF) 0xFF =? 0) /\
   fN (DEC a s) = b2z (truthy (Z.land (Z.land (Z.land (read s a - 1) 0xFF) 0xFF) 0x80))).
Proof. unfold INC, DEC, setZN. cbv zeta. fields. repeat split. Qed.

Lemma inc_dec_arith (m : Z) :
  byte_ok m ->
  let up := Z.land (Z.land (m + 1) 0xFF) 0xFF in
  let down := Z.land (Z.land (m - 1) 0xFF) 0xFF in
  (up = (m + 1) mod 256 /\ down = (m - 1) mod 256) /\
  (Z.land (Z.land (up - 1) 0xFF) 0xFF = m /\ Z.land (Z.land (down + 1) 0xFF) 0xFF = m) /\
  (b2z (up =? 0) = b2z (m =? 255) /\ b2z (down =? 0) = b2z (m =? 1)) /\
  (b2z (truthy (Z.land up 0x80)) = b2z (128 <=? (m + 1) mod 256) /\
   b2z (truthy (Z.land down 0x80)) = b2z (128 <=? (m - 1) mod 256)).
Proof.
  intros H. cbv zeta. rewrite <- !Z.eqb_eq.
  match goal with
  | |- (?e1 = true /\ ?e2 = true) /\ (?e3 = true /\ ?e4 = true) /\
       (?e5 = true /\ ?e6 = true) /\ (?e7 = true /\ ?e8 = true) =>
      cut (e1 && e2 && e3 && e4 && e5 && e6 && e7 && e8 = true);
      [ intros G; do 7 (apply andb_true_iff in G; destruct G as [G ?]);
        repeat match goal with |- _ /\ _ => split end; assumption | ]
  end.
  revert m H. refine (all_bytes _ _). vm_compute. reflexivity.
Qed.

(** X15.  INC and DEC on a byte inside the backing array add and subtract one
    modulo 256 and set Z and N from the new byte; each undoes the other. *)
Theorem inc_dec_memory (s : cpu) (a : Z) :
  Z.land a 0xFFFF < ramLength s ->
  let m := read s a in
  (read (INC a s) a = (m + 1) mod 256 /\
   fZ (INC a s) = b2z (m =? 255) /\ fN (INC a s) = b2z (128 <=? (m + 1) mod 256)) /\
  (read (DEC a s) a = (m - 1) mod 256 /\
   fZ (DEC a s) = b2z (m =? 1) /\ fN (DEC a s) = b2z (128 <=? (m - 1) mod 256)) /\
  read (DEC a (INC a s)) a = m /\ read (INC a (DEC a s)) a = m.
Proof.
  intros H. cbv zeta.
  destruct (inc_dec_arith (read s a) (byte_ok_read s a))
    as ((U & D) & (UD & DU) & (ZU & ZD) & (NU & ND)).
  cbv zeta in U, D, UD, DU, ZU, ZD, NU, ND.
  destruct (INC_DEC_fields a s) as ((IR & IZ & IN) & (DR & DZ & DN)).
  assert (RI : read (INC a s) a = Z.land (Z.land (read s a + 1) 0xFF) 0xFF)
    by (rewrite (read_ram _ _ _ IR); apply read_write_same, H).
  assert (RD : read (DEC a s) a = Z.land (Z.land (read s a - 1) 0xFF) 0xFF)
    by (rewrite (read_ram _ _ _ DR); apply read_write_same, H).
  assert (LI : Z.land a 0xFFFF < ramLength (INC a s))
    by (unfold ramLength; rewrite IR; fold (ramLength (write a (Z.land (read s a + 1) 0xFF) s));
        rewrite ramLength_write; exact H).
  assert (LD : Z.land a 0xFFFF < ramLength (DEC a s))
    by (unfold ramLength; rewrite DR; fold (ramLength (write a (Z.land (read s a - 1) 0xFF) s));
        rewrite ramLength_write; exact H).
  destruct (INC_DEC_fields a (INC a s)) as (_ & (DR' & _)).
  destruct (INC_DEC_fields a (DEC a s)) as ((IR' & _) & _).
  assert (RDI : read (DEC a (INC a s)) a = Z.land (Z.land (read (INC a s) a - 1) 0xFF) 0xFF)
    by (rewrite (read_ram _ _ _ DR'); apply read_write_same, LI).
  assert (RID : read (INC a (DEC a s)) a = Z.land (Z.land (read (DEC a s) a + 1) 0xFF) 0xFF)
    by (rewrite (read_ram _ _ _ IR'); apply read_write_same, LD).
  rewrite RI in RDI. rewrite RD in RID.
  rewrite IZ, IN, DZ, DN, RI, RD, RDI, RID.
  repeat match goal with |- _ /\ _ => split end; assumption.
Qed.

Lemma inc_dec_memory_witness :
  Z.land 0x0010 0xFFFF < ramLength (write 0x0010 0xFF (mose 4)) /\
  read (INC 0x0010 (write 0x0010 0xFF (mose 4))) 0x0010 = 0 /\
  fZ (INC 0x0010 (write 0x0010 0xFF (mose 4))) = 1 /\
  read (DEC 0x0010 (INC 0x0010 (write 0x0010 0xFF (mose 4)))) 0x0010 = 0xFF.
Proof.
  assert (H : Z.land 0x0010 0xFFFF < ramLength (write 0x0010 0xFF (mose 4))) by run_it.
  destruct (inc_dec_memory (write 0x0010 0xFF (mose 4)) 0x0010 H)
    as ((E1 & E2 & _) & _ & E3 & _).
  split; [ exact H | ].
  split; [ etransitivity; [ exact E1 | run_it ] | ].
  split; [ etransitivity; [ exact E2 | run_it ] | ].
  etransitivity; [ exact E3 | run_it ].
Defined.

(** X16.  On an address outside the backing array the read-modify-write
    instructions store nothing, and INC and DEC set the flags from the fill
    value: INC reports zero (0xFF + 1), DEC reports 0xFE. *)
Theorem inc_dec_unmapped (s : cpu) (a : Z) :
  ramLength s <= Z.land a 0xFFFF ->
  (ram (INC a s) = ram s /\ fZ (INC a s) = 1 /\ fN (INC a s) = 0) /\
  (ram (DEC a s) = ram s /\ fZ (DEC a s) = 0 /\ fN (DEC a s) = 1) /\
  read (INC a s) a = 0xFF /\ read (DEC a s) a = 0xFF.
Proof.
  intros H.
  destruct (outside_backing_330 s a H) as (R & W).
  destruct (INC_DEC_fields a s) as ((IR & IZ & IN) & (DR & DZ & DN)).
  rewrite R in IR, IZ, IN, DR, DZ, DN. rewrite W in IR, DR.
  assert (RI : read (INC a s) a = 0xFF) by (rewrite (read_ram _ _ _ IR); exact R).
  assert (RD : read (DEC a s) a = 0xFF) by (rewrite (read_ram _ _ _ DR); exact R).
  repeat match goal with |- _ /\ _ => split end; assumption.
Qed.

Lemma inc_dec_unmapped_witness :
  ramLength (mose 4) <= Z.land 0x2000 0xFFFF /\
  fZ (INC 0x2000 (mose 4)) = 1 /\ read (INC 0x2000 (mose 4)) 0x2000 = 0xFF.
Proof.
  assert (H : ramLength (mose 4) <= Z.land 0x2000 0xFFFF) by run_it.
  destruct (inc_dec_unmapped (mose 4) 0x2000 H) as ((_ & E1 & _) & _ & E2 & _).
  split; [ exact H | split; [ exact E1 | exact E2 ] ].
Defined.

(** LAX is LDA followed by TAX. *)
Theorem lax_is_lda_then_tax (s : cpu) (v : Z) : LAX v s = TAX (LDA v s).
Proof.
  unfold LAX, TAX, LDA, setZN. cbv zeta. destruct s. fields.
  rewrite !(land_byte_id _ (byte_ok_land _)). reflexivity.
Qed.

(** ** Conditional branches *)


Lemma set_totalCycles_frame (v : Z) (t : cpu) :
  rPC (set_totalCycles v t) = rPC t /\ cycles (set_totalCycles v t) = cycles t /\
  (rA (set_totalCycles v t) = rA t /\ rX (set_totalCycles v t) = rX t /\
   rY (set_totalCycles v t) = rY t /\ rS (set_totalCycles v t) = rS t) /\
  getStatus (set_totalCycles v t) = getStatus t /\
  ram (set_totalCycles v t) = ram t /\
  emulateIndirectJMPBug (set_totalCycles v t) = emulateIndirectJMPBug t.
Proof. repeat split. Qed.




Lemma branch_entries :
  forallb (fun e => match instructionMap (fst (fst e)) with
                    | Some (OnAddress _ _) => baseCycles (fst (fst e)) =? 2
                    | _ => false
                    end) branchOpcodes = true.
Proof. vm_compute. reflexivity. Qed.



(** ** What a step leaves alone *)

(** X19.  Only the nine stack instructions (BRK, PHP, JSR, PLP, RTI, PHA, RTS,
    PLA, TXS) and the NMI entry move the stack pointer: a step that consumes
    a break request, or that fetches any other opcode with no NMI latched,
    leaves S as it was. *)
Theorem only_stack_opcodes_move_S (s : cpu) :
  _breakFlag s = true \/
  (_nmiEdge s = false /\ stackOpcode (read s (rPC s)) = false) ->
  rS (snd (step s)) = rS s.
Proof.
  intros [Eb | (En & Hop)].
  - rewrite (step_pending_break s Eb). reflexivity.
  - destruct (_breakFlag s) eqn:Eb.
    + rewrite (step_pending_break s Eb). reflexivity.
    + rewrite (step_fetch s Eb En). apply fetchExecute_keeps_stack_pointer, Hop.
Qed.

Lemma only_stack_opcodes_move_S_witness :
  (_breakFlag ldaCrossing = true \/
   (_nmiEdge ldaCrossing = false /\
    stackOpcode (read ldaCrossing (rPC ldaCrossing)) = false)) /\
  rS (snd (step ldaCrossing)) = 0xFF.
Proof.
  assert (H : _breakFlag ldaCrossing = true \/
              (_nmiEdge ldaCrossing = false /\
               stackOpcode (read ldaCrossing (rPC ldaCrossing)) = false))
    by (right; split; [ reflexivity | vm_compute; reflexivity ]).
  split; [ exact H | ].
  etransitivity; [ exact (only_stack_opcodes_move_S ldaCrossing H) | reflexivity ].
Defined.

Lemma handleNMI_config (s : cpu) :
  ramLength (snd (handleNMI s)) = ramLength s /\
  emulateIndirectJMPBug (snd (handleNMI s)) = emulateIndirectJMPBug s.
Proof.
  destruct (_nmiEdge s) eqn:En.
  - unfold handleNMI. rewrite En. cbv zeta. cbn [snd].
    remember (set_nmiPending false (set_nmiEdge false s)) as s0 eqn:E0.
    assert (H0 : ramLength s0 = ramLength s /\
                 emulateIndirectJMPBug s0 = emulateIndirectJMPBug s)
      by (subst s0; split; reflexivity).
    destruct H0 as (L0 & T0).
    remember (push (Z.land (Z.shiftr (rPC s0) 8) 255) s0) as s1 eqn:E1.
    remember (push (Z.land (rPC s1) 255) s1) as s2 eqn:E2.
    remember (push (Z.land (getStatus s2) (Z.lnot 16)) s2) as s3 eqn:E3.
    assert (L3 : ramLength s3 = ramLength s)
      by (subst s3 s2 s1; rewrite !ramLength_push; exact L0).
    assert (T3 : emulateIndirectJMPBug s3 = emulateIndirectJMPBug s)
      by (subst s3 s2 s1; rewrite !push_emulateIndirectJMPBug; exact T0).
    unfold ramLength in *. fields. split; assumption.
  - rewrite (handleNMI_idle s En). split; reflexivity.
Qed.

Lemma step_config (s : cpu) :
  ramLength (snd (step s)) = ramLength s /\
  emulateIndirectJMPBug (snd (step s)) = emulateIndirectJMPBug s.
Proof.
  destruct (_breakFlag s) eqn:Eb.
  - rewrite (step_pending_break s Eb). split; reflexivity.
  - destruct (_nmiEdge s) eqn:En.
    + rewrite (step_nmi s Eb En). apply handleNMI_config.
    + rewrite (step_fetch s Eb En).
      destruct (fetchExecute_unfold s) as (i & Hi & E). rewrite E. cbn [snd].
      destruct (instructionMap_good _ _ Hi (fetched s))
        as ((_ & _ & _ & Ht & _ & _ & Hl & _) & _).
      destruct (set_totalCycles_frame
                  (totalCycles (exec i (fetched s)) + cycles (exec i (fetched s)))
                  (exec i (fetched s))) as (_ & _ & _ & _ & KR & KT).
      unfold ramLength. rewrite KR, KT, Hl, Ht. split; reflexivity.
Qed.

(** X20.  Whatever the host does, the machine keeps the memory size it was
    built with and the setting of the indirect-JMP switch: no sequence of
    [step], [reset] and [triggerNMI] changes either. *)
Theorem configuration_is_stable (cs : list call) (s : cpu) :
  ramLength (run cs s) = ramLength s /\
  emulateIndirectJMPBug (run cs s) = emulateIndirectJMPBug s.
Proof.
  revert s. unfold run.
  induction cs as [ | c cs IH ]; intros s; cbn [fold_left]; [ split; reflexivity | ].
  destruct (IH (perform c s)) as (IL & IT). rewrite IL, IT.
  destruct c; cbn [perform].
  - apply step_config.
  - split; reflexivity.
  - split; reflexivity.
Qed.

(** A break request makes the next [step] do nothing at all: it returns
    the cycle count of the instruction before, leaves every register, the
    memory and the counters alone, and only withdraws the request, so the
    step after it is the one that would have run. *)
Theorem break_request_skips_one_step (s : cpu) :
  _breakFlag s = false ->
  step (triggerBreak s) = (cycles s, s) /\
  step (snd (step (triggerBreak s))) = step s.
Proof.
  intros Eb.
  assert (E : step (triggerBreak s) = (cycles s, s)).
  { rewrite (step_pending_break (triggerBreak s) eq_refl).
    destruct s. cbn in Eb. subst. reflexivity. }
  rewrite E. split; reflexivity.
Qed.

Lemma break_request_skips_one_step_witness :
  _breakFlag ldaCrossing = false /\
  step (triggerBreak ldaCrossing) = (0, ldaCrossing).
Proof.
  destruct (break_request_skips_one_step ldaCrossing eq_refl) as (E & _).
  split; [ reflexivity | exact E ].
Defined.

Lemma registers_stay_in_width_witness :
  regs_ok ldaCrossing /\ regs_ok (run [Step; TriggerNMI; Step; Reset; Step] ldaCrossing).
Proof.
  assert (H : regs_ok ldaCrossing).
  { unfold regs_ok, flags_ok, byte_ok, flag_ok.
    repeat match goal with |- _ /\ _ => split end;
      try (left; vm_compute; reflexivity); run_it. }
  split; [ exact H | exact (registers_stay_in_width _ ldaCrossing H) ].
Defined.

(** ** Effective addresses *)

Lemma byte_range_16 (x : Z) : byte_ok x -> 0 <= x <= 0xFF.
Proof. unfold byte_ok. lia. Qed.

(** X23.  Every addressing mode other than immediate yields a 16-bit effective
    address, and the zero-page modes never leave page zero: indexing wraps
    inside the page instead of running into page one. *)
Theorem effective_addresses_in_range (s : cpu) :
  (0 <= address (fst (zp s)) <= 0xFF /\ 0 <= address (fst (zpx s)) <= 0xFF /\
   0 <= address (fst (zpy s)) <= 0xFF) /\
  (0 <= address (fst (abs s)) <= 0xFFFF /\ 0 <= address (fst (absx s)) <= 0xFFFF /\
   0 <= address (fst (absy s)) <= 0xFFFF) /\
  (0 <= address (fst (ind s)) <= 0xFFFF /\ 0 <= address (fst (indx s)) <= 0xFFFF /\
   0 <= address (fst (indy s)) <= 0xFFFF /\ 0 <= address (fst (rel s)) <= 0xFFFF) /\
  address (fst (zpx s)) = (read s (rPC s) + rX s) mod 256 /\
  address (fst (zpy s)) = (read s (rPC s) + rY s) mod 256.
Proof.
  assert (M : forall x, Z.land x 0xFF = x mod 256)
    by (intros x; change 0xFF with (Z.ones 8); rewrite Z.land_ones by lia; reflexivity).
  unfold zp, zpx, zpy, abs, absx, absy, ind, indx, indy, rel, fetch, pcPostInc.
  cbv zeta. cbn [fst snd address].
  repeat match goal with |- context [if ?c then _ else _] => destruct c end;
    cbn [fst snd address];
    repeat match goal with |- _ /\ _ => split end;
    first [ apply byte_range_16, byte_ok_read
          | apply byte_range_16, byte_ok_land
          | apply land16_range | apply word_range | apply M ].
Qed.

(** ** Indirect JMP away from the end of a page *)

(** X24.  When the low byte of the pointer is not 0xFF the switch makes no
    difference: the target is the little-endian word at the pointer, its
    high byte read from the next address, which is on the same page. *)
Theorem indirect_jmp_inside_page (s : cpu) :
  let ptr := word (read s (rPC s)) (read s (rPC s + 1)) in
  Z.land ptr 0xFF <> 0xFF ->
  address (fst (ind s)) = word (read s ptr) (read s (ptr + 1)) /\
  address (fst (ind (set_emulateIndirectJMPBug false s))) = address (fst (ind s)) /\
  address (fst (ind (set_emulateIndirectJMPBug true s))) = address (fst (ind s)) /\
  Z.land (ptr + 1) 0xFF00 = Z.land ptr 0xFF00.
Proof.
  cbv zeta. intros Hne.
  pose proof (word_range (read s (rPC s)) (read s (rPC s + 1))) as Hr.
  remember (word (read s (rPC s)) (read s (rPC s + 1))) as ptr eqn:Ep.
  assert (Hb : (Z.land ptr 0xFF =? 0xFF) = false) by (apply Z.eqb_neq; exact Hne).
  assert (Hlt : ptr + 1 <= 0xFFFF).
  { destruct (Z.eq_dec ptr 0xFFFF) as [E | E]; [ | lia ].
    exfalso. apply Hne. rewrite E. reflexivity. }
  assert (G : forall t, read t = read s -> rPC t = rPC s ->
              address (fst (ind t)) = word (read s ptr) (read s (ptr + 1))).
  { intros t Rt Pt. pose proof (ind_address t) as E. cbv zeta in E.
    rewrite Rt, Pt, <- Ep, Hb, andb_false_r in E.
    rewrite E, (land16_id (ptr + 1)) by lia. reflexivity. }
  rewrite (G s eq_refl eq_refl).
  rewrite (G (set_emulateIndirectJMPBug false s) eq_refl eq_refl).
  rewrite (G (set_emulateIndirectJMPBug true s) eq_refl eq_refl).
  split; [ reflexivity | split; [ reflexivity | split; [ reflexivity | ] ] ].
  assert (M : forall x, Z.land x 0xFF00 = 256 * ((x / 256) mod 256)).
  { intros x. apply Z.bits_inj'. intros n Hn.
    rewrite Z.land_spec.
    replace (256 * ((x / 256) mod 256)) with (Z.shiftl (Z.land (Z.shiftr x 8) 0xFF) 8).
    - destruct (Z.ltb_spec n 8).
      + rewrite Z.shiftl_spec_low by lia.
        change 0xFF00 with (Z.shiftl 0xFF 8). rewrite Z.shiftl_spec_low by lia.
        apply andb_false_r.
      + rewrite Z.shiftl_spec, Z.land_spec, Z.shiftr_spec by lia.
        change 0xFF00 with (Z.shiftl 0xFF 8). rewrite (Z.shiftl_spec 0xFF) by lia.
        replace (n - 8 + 8) with n by lia. reflexivity.
    - rewrite Z.shiftl_mul_pow2, Z.shiftr_div_pow2 by lia.
      change 0xFF with (Z.ones 8). rewrite Z.land_ones by lia.
      change (2 ^ 8) with 256. lia. }
  rewrite !M. f_equal. f_equal.
  assert (L : Z.land ptr 0xFF = ptr mod 256)
    by (change 0xFF with (Z.ones 8); rewrite Z.land_ones by lia; reflexivity).
  rewrite L in Hne.
  assert (D1 : ptr = 256 * (ptr / 256) + ptr mod 256) by (apply Z.div_mod; lia).
  assert (D2 : 0 <= ptr mod 256 < 256) by (apply Z.mod_pos_bound; lia).
  symmetry. apply (Z.div_unique (ptr + 1) 256 (ptr / 256) (ptr mod 256 + 1)); lia.
Qed.

Lemma indirect_jmp_inside_page_witness :
  Z.land (word (read (load 0x0600 [0x10; 0x02] (set_rPC 0x0600 (mose 4)))
                  (rPC (load 0x0600 [0x10; 0x02] (set_rPC 0x0600 (mose 4)))))
               (read (load 0x0600 [0x10; 0x02] (set_rPC 0x0600 (mose 4)))
                  (rPC (load 0x0600 [0x10; 0x02] (set_rPC 0x0600 (mose 4))) + 1)))
         0xFF <> 0xFF /\
  address (fst (ind (set_emulateIndirectJMPBug false
                      (load 0x0600 [0x10; 0x02] (set_rPC 0x0600 (mose 4))))))
  = address (fst (ind (load 0x0600 [0x10; 0x02] (set_rPC 0x0600 (mose 4))))).
Proof.
  assert (H : Z.land (word (read (load 0x0600 [0x10; 0x02] (set_rPC 0x0600 (mose 4)))
                  (rPC (load 0x0600 [0x10; 0x02] (set_rPC 0x0600 (mose 4)))))
               (read (load 0x0600 [0x10; 0x02] (set_rPC 0x0600 (mose 4)))
                  (rPC (load 0x0600 [0x10; 0x02] (set_rPC 0x0600 (mose 4))) + 1)))
         0xFF <> 0xFF) by run_it.
  split; [ exact H | ].
  exact (proj1 (proj2 (indirect_jmp_inside_page _ H))).
Defined.

(** ** A jammed machine *)

Lemma step_on_kil (s : cpu) (op : Z) :
  _breakFlag s = false -> _nmiEdge s = false ->
  0 <= rPC s <= 0xFFFF ->
  read s (rPC s) = op -> instructionMap op = Some KIL ->
  step s =
    (baseCycles op,
     set_totalCycles (totalCycles s + baseCycles op)
       (set_cycles (baseCycles op) (set_opcode op s))).
Proof.
  intros Eb En Hpc Hop Hk. rewrite (step_fetch s Eb En).
  destruct (fetchExecute_unfold s) as (i & Hi & E).
  rewrite Hop, Hk in Hi. injection Hi as <-.
  rewrite E. unfold exec, fetched. rewrite Hop. fields.
  replace (rPC s + 1 - 1) with (rPC s) by lia.
  rewrite (land16_id _ Hpc).
  reflexivity.
Qed.

Lemma jam_frame (v1 v2 v3 : Z) (s : cpu) :
  let t := set_totalCycles v1 (set_cycles v2 (set_opcode v3 s)) in
  _breakFlag t = _breakFlag s /\ _nmiEdge t = _nmiEdge s /\ rPC t = rPC s /\
  ram t = ram s /\ (forall a, read t a = read s a) /\
  (rA t = rA s /\ rX t = rX s /\ rY t = rY s /\ rS t = rS s) /\
  getStatus t = getStatus s /\ totalCycles t = v1.
Proof. cbv zeta. repeat split. Qed.

(** X25.  Once PC rests on an opcode without an operation the machine stays
    there: however many steps follow, PC, the registers, the flags and the
    memory do not move, and each step charges the table cost of that
    opcode. *)
Theorem jammed_forever (s : cpu) (op : Z) (n : nat) :
  _breakFlag s = false -> _nmiEdge s = false ->
  0 <= rPC s <= 0xFFFF ->
  read s (rPC s) = op -> instructionMap op = Some KIL ->
  let t := Nat.iter n (fun t => snd (step t)) s in
  rPC t = rPC s /\ ram t = ram s /\
  (rA t = rA s /\ rX t = rX s /\ rY t = rY s /\ rS t = rS s) /\
  getStatus t = getStatus s /\
  totalCycles t = totalCycles s + Z.of_nat n * baseCycles op.
Proof.
  intros Eb En Hpc Hop Hk. cbv zeta.
  cut (let t := Nat.iter n (fun t => snd (step t)) s in
       (_breakFlag t = false /\ _nmiEdge t = false /\ (forall a, read t a = read s a)) /\
       rPC t = rPC s /\ ram t = ram s /\
       (rA t = rA s /\ rX t = rX s /\ rY t = rY s /\ rS t = rS s) /\
       getStatus t = getStatus s /\
       totalCycles t = totalCycles s + Z.of_nat n * baseCycles op);
    [ cbv zeta; tauto | ].
  induction n as [ | n IH ]; cbv zeta.
  - cbn [Nat.iter nat_rect].
    repeat match goal with |- _ /\ _ => split end;
      try (intros; reflexivity); try assumption.
    change (Z.of_nat 0) with 0. lia.
  - cbv zeta in IH. rewrite Nat.iter_succ.
    remember (Nat.iter n (fun t => snd (step t)) s) as t eqn:Et.
    destruct IH as ((Ib & In & Ird) & Ip & Ir & (IA & IX & IY & IS) & IG & IT).
    assert (Hpc' : 0 <= rPC t <= 0xFFFF) by (rewrite Ip; exact Hpc).
    assert (Hop' : read t (rPC t) = op) by (rewrite Ird, Ip; exact Hop).
    rewrite (step_on_kil t op Ib In Hpc' Hop' Hk). cbn [snd].
    destruct (jam_frame (totalCycles t + baseCycles op) (baseCycles op) op t)
      as (Jb & Jn & Jp & Jr & Jrd & (JA & JX & JY & JS) & JG & JT).
    cbv zeta in Jb, Jn, Jp, Jr, Jrd, JA, JX, JY, JS, JG, JT.
    rewrite Jb, Jn, Jp, Jr, JA, JX, JY, JS, JG, JT.
    split; [ split; [ exact Ib | split; [ exact In | intros a; rewrite Jrd; apply Ird ] ] | ].
    split; [ exact Ip | split; [ exact Ir | ] ].
    split; [ split; [ exact IA | split; [ exact IX | split; [ exact IY | exact IS ] ] ] | ].
    split; [ exact IG | ].
    rewrite IT, Nat2Z.inj_succ, Z.mul_succ_l. lia.
Qed.

Lemma jammed_forever_witness :
  (_breakFlag jammed = false /\ _nmiEdge jammed = false /\
   0 <= rPC jammed <= 0xFFFF /\ read jammed (rPC jammed) = 0x02 /\
   instructionMap 0x02 = Some KIL) /\
  rPC (Nat.iter 1000 (fun t => snd (step t)) jammed) = rPC jammed /\
  totalCycles (Nat.iter 1000 (fun t => snd (step t)) jammed)
  = totalCycles jammed + 2000.
Proof.
  assert (Hpc : 0 <= rPC jammed <= 0xFFFF) by (split; run_it).
  assert (Hop : read jammed (rPC jammed) = 0x02) by (vm_compute; reflexivity).
  assert (Hk : instructionMap 0x02 = Some KIL) by reflexivity.
  split; [ repeat match goal with |- _ /\ _ => split end;
           reflexivity || assumption || apply Hpc | ].
  destruct (jammed_forever jammed 0x02 1000 eq_refl eq_refl Hpc Hop Hk)
    as (E1 & _ & _ & _ & E2).
  split; [ exact E1 | exact E2 ].
Defined.

(** ** The cycle counter *)

(** X22.  [totalCycles] never goes down, whatever the host calls: a step adds
    what it returns (nothing when it only consumes a break request), and
    [reset] does not clear the counter but adds 7 to it. *)
Theorem totalCycles_never_decreases (cs : list call) (s : cpu) :
  totalCycles s <= totalCycles (run cs s) /\
  totalCycles (reset s) = totalCycles s + 7 /\
  totalCycles (triggerNMI s) = totalCycles s.
Proof.
  split; [ | split; reflexivity ].
  revert s. unfold run.
  induction cs as [ | c cs IH ]; intros s; cbn [fold_left]; [ lia | ].
  specialize (IH (perform c s)).
  cut (totalCycles s <= totalCycles (perform c s)); [ lia | ].
  destruct c; cbn [perform].
  - destruct (step_accounting s) as (_ & Hb & Hr).
    destruct (_breakFlag s); [ rewrite Hb by reflexivity; lia | ].
    destruct (Hr eq_refl) as (E & Hge). rewrite E. lia.
  - destruct (reset_fields s) as (_ & _ & _ & _ & _ & _ & _ & _ & E).
    cbv zeta in E. rewrite E. lia.
  - unfold triggerNMI. cbn. lia.
Qed.

(** ** Machines with less than 64 KB *)

(** X26.  The interrupt vectors live in the last six bytes of the address
    space.  On a machine whose memory stops short of them (every size the
    constructor offers but 64 KB) they read as the fill value, so [reset],
    the NMI entry and BRK all send PC to 0xFFFF. *)
Theorem vectors_need_64k (s : cpu) :
  ramLength s <= 0xFFFA ->
  rPC (reset s) = 0xFFFF /\
  rPC (snd (handleNMI (triggerNMI s))) = 0xFFFF /\
  rPC (BRK s) = 0xFFFF /\
  read s 0xFFFF = 0xFF.
Proof.
  intros H.
  assert (R : forall a, 0xFFFA <= a <= 0xFFFF -> read s a = 0xFF).
  { intros a Ha. apply outside_backing_330. rewrite land16_id by lia. lia. }
  split; [ | split; [ | split ] ].
  - destruct (reset_fields s) as (_ & _ & E & _). cbv zeta in E.
    rewrite E, !R by lia. reflexivity.
  - destruct (triggerNMI_frame s) as (_ & _ & _ & _ & _ & NE & _).
    destruct (handleNMI_fields (triggerNMI s) NE) as (_ & _ & _ & E & _).
    cbv zeta in E. rewrite E.
    change (read (triggerNMI s)) with (read s). rewrite !R by lia. reflexivity.
  - pose proof (BRK_unfold s) as E. cbv zeta in E. rewrite E.
    destruct (set_rPC_frame
                (word (read (push (Z.lor (getStatus (set_fB 1 s)) 0x10)
                              (push (Z.land (Z.land (rPC s + 1) 0xFFFF) 0xFF)
                                 (push (Z.land (Z.shiftr (Z.land (rPC s + 1) 0xFFFF) 8) 0xFF)
                                    (set_rPC (Z.land (rPC s + 1) 0xFFFF) (set_fB 1 s)))))
                         0xFFFE)
                      (read (push (Z.lor (getStatus (set_fB 1 s)) 0x10)
                              (push (Z.land (Z.land (rPC s + 1) 0xFFFF) 0xFF)
                                 (push (Z.land (Z.shiftr (Z.land (rPC s + 1) 0xFFFF) 8) 0xFF)
                                    (set_rPC (Z.land (rPC s + 1) 0xFFFF) (set_fB 1 s)))))
                         0xFFFF))
                (set_fI 1 (push (Z.lor (getStatus (set_fB 1 s)) 0x10)
                              (push (Z.land (Z.land (rPC s + 1) 0xFFFF) 0xFF)
                                 (push (Z.land (Z.shiftr (Z.land (rPC s + 1) 0xFFFF) 8) 0xFF)
                                    (set_rPC (Z.land (rPC s + 1) 0xFFFF) (set_fB 1 s)))))))
      as (K & _).
    rewrite K, !read_push_other by (apply Z.leb_le; reflexivity).
    rewrite !read_set_rPC.
    change (read (set_fB 1 s)) with (read s). rewrite !R by lia. reflexivity.
  - apply R. lia.
Qed.

Lemma vectors_need_64k_witness :
  ramLength (mose 48) <= 0xFFFA /\
  rPC (reset (mose 48)) = 0xFFFF /\ rPC (BRK (mose 48)) = 0xFFFF.
Proof.
  assert (H : ramLength (mose 48) <= 0xFFFA) by (rewrite ramLength_mose; run_it).
  destruct (vectors_need_64k (mose 48) H) as (E1 & _ & E2 & _).
  split; [ exact H | split; [ exact E1 | exact E2 ] ].
Defined.

(** ** The cost of an instruction *)

(** No operation other than a branch touches [cycles]. *)
Ltac keeps_cycles :=
  intros;
  cbv beta iota zeta delta [BRK NOP TAX TXA TAY TYA TSX TXS PHA PLA PHP PLP INX DEX INY DEY CLC SEC CLI SEI CLV CLD SED RTS RTI ASL_A LSR_A ROL_A ROR_A LDA STA LDX STX LDY STY INC DEC JMP JSR ADC SBC AND ORA EOR CMP CPX CPY BIT ASL LSR ROL ROR LAX SAX DCP ISC SLO RLA SRE RRA ANC ALR ARR XAA AXS SHY SHX
    setZN setStatus compare pop pcPostInc fetch fst snd];
  repeat match goal with |- context [if ?c then _ else _] => destruct c end;
  cbv beta iota zeta;
  repeat (fields; rewrite ?write_cycles, ?push_cycles);
  reflexivity.

Lemma cycles_after_vector (v : Z) (t : cpu) : cycles (set_rPC v (set_fI 1 t)) = cycles t.
Proof. reflexivity. Qed.

Lemma cycles_before_pushes (v : Z) (s : cpu) : cycles (set_rPC v (set_fB 1 s)) = cycles s.
Proof. reflexivity. Qed.

Lemma cycles_BRK s : cycles (BRK s) = cycles s.
Proof.
  pose proof (BRK_unfold s) as E. cbv zeta in E. rewrite E.
  rewrite cycles_after_vector, !push_cycles. apply cycles_before_pushes.
Qed.
Lemma cycles_NOP s : cycles (NOP s) = cycles s.
Proof. keeps_cycles. Qed.
Lemma cycles_TAX s : cycles (TAX s) = cycles s.
Proof. keeps_cycles. Qed.
Lemma cycles_TXA s : cycles (TXA s) = cycles s.
Proof. keeps_cycles. Qed.
Lemma cycles_TAY s : cycles (TAY s) = cycles s.
Proof. keeps_cycles. Qed.
Lemma cycles_TYA s : cycles (TYA s) = cycles s.
Proof. keeps_cycles. Qed.
Lemma cycles_TSX s : cycles (TSX s) = cycles s.
Proof. keeps_cycles. Qed.
Lemma cycles_TXS s : cycles (TXS s) = cycles s.
Proof. keeps_cycles. Qed.
Lemma cycles_PHA s : cycles (PHA s) = cycles s.
Proof. keeps_cycles. Qed.
Lemma cycles_PLA s : cycles (PLA s) = cycles s.
Proof. keeps_cycles. Qed.
Lemma cycles_PHP s : cycles (PHP s) = cycles s.
Proof. keeps_cycles. Qed.
Lemma cycles_PLP s : cycles (PLP s) = cycles s.
Proof. keeps_cycles. Qed.
Lemma cycles_INX s : cycles (INX s) = cycles s.
Proof. keeps_cycles. Qed.
Lemma cycles_DEX s : cycles (DEX s) = cycles s.
Proof. keeps_cycles. Qed.
Lemma cycles_INY s : cycles (INY s) = cycles s.
Proof. keeps_cycles. Qed.
Lemma cycles_DEY s : cycles (DEY s) = cycles s.
Proof. keeps_cycles. Qed.
Lemma cycles_CLC s : cycles (CLC s) = cycles s.
Proof. keeps_cycles. Qed.
Lemma cycles_SEC s : cycles (SEC s) = cycles s.
Proof. keeps_cycles. Qed.
Lemma cycles_CLI s : cycles (CLI s) = cycles s.
Proof. keeps_cycles. Qed.
Lemma cycles_SEI s : cycles (SEI s) = cycles s.
Proof. keeps_cycles. Qed.
Lemma cycles_CLV s : cycles (CLV s) = cycles s.
Proof. keeps_cycles. Qed.
Lemma cycles_CLD s : cycles (CLD s) = cycles s.
Proof. keeps_cycles. Qed.
Lemma cycles_SED s : cycles (SED s) = cycles s.
Proof. keeps_cycles. Qed.
Lemma cycles_RTS s : cycles (RTS s) = cycles s.
Proof. keeps_cycles. Qed.
Lemma cycles_RTI s : cycles (RTI s) = cycles s.
Proof. keeps_cycles. Qed.
Lemma cycles_ASL_A s : cycles (ASL_A s) = cycles s.
Proof. keeps_cycles. Qed.
Lemma cycles_LSR_A s : cycles (LSR_A s) = cycles s.
Proof. keeps_cycles. Qed.
Lemma cycles_ROL_A s : cycles (ROL_A s) = cycles s.
Proof. keeps_cycles. Qed.
Lemma cycles_ROR_A s : cycles (ROR_A s) = cycles s.
Proof. keeps_cycles. Qed.
Lemma cycles_LDA v s : cycles (LDA v s) = cycles s.
Proof. keeps_cycles. Qed.
Lemma cycles_STA v s : cycles (STA v s) = cycles s.
Proof. keeps_cycles. Qed.
Lemma cycles_LDX v s : cycles (LDX v s) = cycles s.
Proof. keeps_cycles. Qed.
Lemma cycles_STX v s : cycles (STX v s) = cycles s.
Proof. keeps_cycles. Qed.
Lemma cycles_LDY v s : cycles (LDY v s) = cycles s.
Proof. keeps_cycles. Qed.
Lemma cycles_STY v s : cycles (STY v s) = cycles s.
Proof. keeps_cycles. Qed.
Lemma cycles_INC v s : cycles (INC v s) = cycles s.
Proof. keeps_cycles. Qed.
Lemma cycles_DEC v s : cycles (DEC v s) = cycles s.
Proof. keeps_cycles. Qed.
Lemma cycles_JMP v s : cycles (JMP v s) = cycles s.
Proof. keeps_cycles. Qed.
Lemma cycles_JSR v s : cycles (JSR v s) = cycles s.
Proof. keeps_cycles. Qed.
Lemma cycles_ADC v s : cycles (ADC v s) = cycles s.
Proof. keeps_cycles. Qed.
Lemma cycles_SBC v s : cycles (SBC v s) = cycles s.
Proof. keeps_cycles. Qed.
Lemma cycles_AND v s : cycles (AND v s) = cycles s.
Proof. keeps_cycles. Qed.
Lemma cycles_ORA v s : cycles (ORA v s) = cycles s.
Proof. keeps_cycles. Qed.
Lemma cycles_EOR v s : cycles (EOR v s) = cycles s.
Proof. keeps_cycles. Qed.
Lemma cycles_CMP v s : cycles (CMP v s) = cycles s.
Proof. keeps_cycles. Qed.
Lemma cycles_CPX v s : cycles (CPX v s) = cycles s.
Proof. keeps_cycles. Qed.
Lemma cycles_CPY v s : cycles (CPY v s) = cycles s.
Proof. keeps_cycles. Qed.
Lemma cycles_BIT v s : cycles (BIT v s) = cycles s.
Proof. keeps_cycles. Qed.
Lemma cycles_ASL v s : cycles (ASL v s) = cycles s.
Proof. keeps_cycles. Qed.
Lemma cycles_LSR v s : cycles (LSR v s) = cycles s.
Proof. keeps_cycles. Qed.
Lemma cycles_ROL v s : cycles (ROL v s) = cycles s.
Proof. keeps_cycles. Qed.
Lemma cycles_ROR v s : cycles (ROR v s) = cycles s.
Proof. keeps_cycles. Qed.
Lemma cycles_LAX v s : cycles (LAX v s) = cycles s.
Proof. keeps_cycles. Qed.
Lemma cycles_SAX v s : cycles (SAX v s) = cycles s.
Proof. keeps_cycles. Qed.
Lemma cycles_DCP v s : cycles (DCP v s) = cycles s.
Proof. keeps_cycles. Qed.
Lemma cycles_ISC v s : cycles (ISC v s) = cycles s.
Proof. keeps_cycles. Qed.
Lemma cycles_SLO v s : cycles (SLO v s) = cycles s.
Proof. keeps_cycles. Qed.
Lemma cycles_RLA v s : cycles (RLA v s) = cycles s.
Proof. keeps_cycles. Qed.
Lemma cycles_SRE v s : cycles (SRE v s) = cycles s.
Proof. keeps_cycles. Qed.
Lemma cycles_RRA v s : cycles (RRA v s) = cycles s.
Proof. keeps_cycles. Qed.
Lemma cycles_ANC v s : cycles (ANC v s) = cycles s.
Proof. keeps_cycles. Qed.
Lemma cycles_ALR v s : cycles (ALR v s) = cycles s.
Proof. keeps_cycles. Qed.
Lemma cycles_ARR v s : cycles (ARR v s) = cycles s.
Proof. keeps_cycles. Qed.
Lemma cycles_XAA v s : cycles (XAA v s) = cycles s.
Proof. keeps_cycles. Qed.
Lemma cycles_AXS v s : cycles (AXS v s) = cycles s.
Proof. keeps_cycles. Qed.
Lemma cycles_SHY v s : cycles (SHY v s) = cycles s.
Proof. keeps_cycles. Qed.
Lemma cycles_SHX v s : cycles (SHX v s) = cycles s.
Proof. keeps_cycles. Qed.

Ltac mode_keeps_cycles :=
  intros;
  cbv beta iota zeta delta [imm zp zpx zpy abs absx absy ind indx indy rel
    pcPostInc fetch fst snd];
  repeat match goal with |- context [if ?c then _ else _] => destruct c end;
  cbv beta iota zeta; fields; reflexivity.

Lemma cycles_imm s : cycles (snd (imm s)) = cycles s.
Proof. mode_keeps_cycles. Qed.
Lemma cycles_zp s : cycles (snd (zp s)) = cycles s.
Proof. mode_keeps_cycles. Qed.
Lemma cycles_zpx s : cycles (snd (zpx s)) = cycles s.
Proof. mode_keeps_cycles. Qed.
Lemma cycles_zpy s : cycles (snd (zpy s)) = cycles s.
Proof. mode_keeps_cycles. Qed.
Lemma cycles_abs s : cycles (snd (abs s)) = cycles s.
Proof. mode_keeps_cycles. Qed.
Lemma cycles_absx s : cycles (snd (absx s)) = cycles s.
Proof. mode_keeps_cycles. Qed.
Lemma cycles_absy s : cycles (snd (absy s)) = cycles s.
Proof. mode_keeps_cycles. Qed.
Lemma cycles_ind s : cycles (snd (ind s)) = cycles s.
Proof. mode_keeps_cycles. Qed.
Lemma cycles_indx s : cycles (snd (indx s)) = cycles s.
Proof. mode_keeps_cycles. Qed.
Lemma cycles_indy s : cycles (snd (indy s)) = cycles s.
Proof. mode_keeps_cycles. Qed.
Lemma cycles_rel s : cycles (snd (rel s)) = cycles s.
Proof. mode_keeps_cycles. Qed.

Create HintDb thrift discriminated.
#[local] Hint Constants Opaque : thrift.
#[local] Hint Resolve cycles_BRK cycles_NOP cycles_TAX cycles_TXA cycles_TAY cycles_TYA cycles_TSX cycles_TXS cycles_PHA cycles_PLA cycles_PHP cycles_PLP cycles_INX cycles_DEX cycles_INY cycles_DEY cycles_CLC cycles_SEC cycles_CLI cycles_SEI cycles_CLV cycles_CLD cycles_SED cycles_RTS cycles_RTI cycles_ASL_A cycles_LSR_A cycles_ROL_A cycles_ROR_A cycles_LDA cycles_STA cycles_LDX cycles_STX cycles_LDY cycles_STY cycles_INC cycles_DEC cycles_JMP cycles_JSR cycles_ADC cycles_SBC cycles_AND cycles_ORA cycles_EOR cycles_CMP cycles_CPX cycles_CPY cycles_BIT cycles_ASL cycles_LSR cycles_ROL cycles_ROR cycles_LAX cycles_SAX cycles_DCP cycles_ISC cycles_SLO cycles_RLA cycles_SRE cycles_RRA cycles_ANC cycles_ALR cycles_ARR cycles_XAA cycles_AXS cycles_SHY cycles_SHX
  cycles_imm cycles_zp cycles_zpx cycles_zpy cycles_abs cycles_absx cycles_absy cycles_ind cycles_indx cycles_indy cycles_rel : thrift.














(** ** ORA, AND, EOR and ADC with (zp),Y *)



(** * The test harness *)

Import MoseTests.

Lemma getStatus_bit5 (s : cpu) : Z.testbit (getStatus s) 5 = true.
Proof.
  unfold getStatus. rewrite !Z.lor_spec.
  change (Z.testbit (Z.shiftl 1 5) 5) with true.
  rewrite orb_true_r. reflexivity.
Qed.

Lemma expect_mismatch (label : String.string) (radix e got : Z) :
  e <> got -> expect label radix (Some e) got <> [].
Proof.
  intros H. unfold expect.
  destruct (e =? got) eqn:E; [ apply Z.eqb_eq in E; contradiction | discriminate ].
Qed.

Lemma app_not_nil {A : Type} (l1 l2 : list A) : l1 <> [] \/ l2 <> [] -> l1 ++ l2 <> [].
Proof.
  intros [H | H] E; apply app_eq_nil in E; destruct E; contradiction.
Qed.

(** X27.  A test that expects a status byte with bit 5 clear can never pass:
    [getStatus] always reports bit 5 set, whatever the instruction did. *)
Theorem runTest_expected_status (t : test) (s : cpu) (p : Z) :
  tP (final t) = Some p -> Z.testbit p 5 = false ->
  passed (fst (runTest t s)) = false /\ errors (fst (runTest t s)) <> [].
Proof.
  intros HP Hb. unfold runTest. cbv zeta. cbn [fst passed errors].
  remember (snd (step (prepare t s))) as u eqn:Eu.
  assert (N : verdict t u <> []).
  { unfold verdict. rewrite HP.
    do 5 (apply app_not_nil; right). apply app_not_nil. left.
    apply expect_mismatch. intros E.
    pose proof (getStatus_bit5 u) as B. rewrite <- E, Hb in B. discriminate B. }
  destruct (verdict t u); [ contradiction | split; [ reflexivity | discriminate ] ].
Qed.

Lemma runTest_expected_status_witness :
  (tP (final (mkTest (mkTestState None None None None None None None)
                     (mkTestState None None None None None (Some 0x00) None)
                     None None)) = Some 0x00 /\
   Z.testbit 0x00 5 = false) /\
  passed (fst (runTest (mkTest (mkTestState None None None None None None None)
                               (mkTestState None None None None None (Some 0x00) None)
                               None None) (mose 4))) = false.
Proof.
  split; [ split; reflexivity | ].
  exact (proj1 (runTest_expected_status
                  (mkTest (mkTestState None None None None None None None)
                          (mkTestState None None None None None (Some 0x00) None)
                          None None) (mose 4) 0x00 eq_refl eq_refl)).
Defined.

Lemma prepare_registers (t : test) (s : cpu) :
  rA (prepare t s) = orElse (tA (initial t)) 0 /\
  rX (prepare t s) = orElse (tX (initial t)) 0 /\
  rY (prepare t s) = orElse (tY (initial t)) 0 /\
  rS (prepare t s) = orElse (tS (initial t)) 0xFF /\
  rPC (prepare t s) = orElse (tPC (initial t)) 0 /\
  totalCycles (prepare t s) = totalCycles s /\
  _breakFlag (prepare t s) = _breakFlag s /\ _nmiEdge (prepare t s) = _nmiEdge s.
Proof.
  unfold prepare. cbv zeta.
  remember (setStatus (orElse (tP (initial t)) 0)
              (set_rPC (orElse (tPC (initial t)) 0)
                 (set_rS (orElse (tS (initial t)) 255)
                    (set_rY (orElse (tY (initial t)) 0)
                       (set_rX (orElse (tX (initial t)) 0)
                          (set_rA (orElse (tA (initial t)) 0) s)))))) as s1 eqn:E1.
  assert (F : rA s1 = orElse (tA (initial t)) 0 /\
              rX s1 = orElse (tX (initial t)) 0 /\
              rY s1 = orElse (tY (initial t)) 0 /\
              rS s1 = orElse (tS (initial t)) 0xFF /\
              rPC s1 = orElse (tPC (initial t)) 0 /\
              totalCycles s1 = totalCycles s /\
              _breakFlag s1 = _breakFlag s /\ _nmiEdge s1 = _nmiEdge s)
    by (subst s1; unfold setStatus; repeat split).
  clear E1.
  destruct (tram (initial t)) as [l | ]; [ | exact F ].
  revert s1 F. induction l as [ | e l IH ]; intros s1 F; cbn [fold_left]; [ exact F | ].
  apply IH.
  rewrite write_rA, write_rX, write_rY, write_rS, write_rPC, write_totalCycles,
    write_breakFlag, write_nmiEdge.
  exact F.
Qed.

(** A test cannot start with the stack pointer at zero: [runTest] reads
    the initial registers with [|| default], so an initial S of 0 is taken
    for a missing one and the instruction runs with S = 0xFF.  The machine is
    not otherwise reset: the cycle counter and a pending break or NMI request
    are those the machine had. *)
Theorem runTest_initial_stack_pointer (t : test) (s : cpu) :
  tS (initial t) = Some 0 ->
  rS (prepare t s) = 0xFF /\
  totalCycles (prepare t s) = totalCycles s /\
  _breakFlag (prepare t s) = _breakFlag s /\ _nmiEdge (prepare t s) = _nmiEdge s.
Proof.
  intros H.
  destruct (prepare_registers t s) as (_ & _ & _ & ES & _ & ET & EB & EN).
  rewrite H in ES. split; [ exact ES | split; [ exact ET | split; [ exact EB | exact EN ] ] ].
Qed.

Lemma runTest_initial_stack_pointer_witness :
  tS (initial (mkTest (mkTestState None None None (Some 0) None None None)
                      (mkTestState None None None None None None None)
                      None None)) = Some 0 /\
  rS (prepare (mkTest (mkTestState None None None (Some 0) None None None)
                      (mkTestState None None None None None None None)
                      None None) (mose 4)) = 0xFF.
Proof.
  split; [ reflexivity | ].
  exact (proj1 (runTest_initial_stack_pointer
                  (mkTest (mkTestState None None None (Some 0) None None None)
                          (mkTestState None None None None None None None)
                          None None) (mose 4) eq_refl)).
Defined.

Lemma runTests_length (tests : list test) (s : cpu) :
  List.length (fst (runTests tests s)) = List.length tests.
Proof.
  revert s. induction tests as [ | t rest IH ]; intros s; cbn [runTests]; [ reflexivity | ].
  destruct (runTest t s) as [r s1]. specialize (IH s1).
  destruct (runTests rest s1) as [rs s2]. cbn [fst List.length] in *. congruence.
Qed.

Lemma filter_partition_length {A : Type} (f : A -> bool) (l : list A) :
  (List.length (List.filter f l) + List.length (List.filter (fun x => negb (f x)) l)
   = List.length l)%nat.
Proof.
  induction l as [ | x l IH ]; cbn [List.filter List.length]; [ reflexivity | ].
  destruct (f x); cbn [negb List.length]; lia.
Qed.

(** [runTestSuite] reports one result per test, in order, and every test
    is counted once, as passed or as failed. *)
Theorem runTestSuite_counts (tests : list test) (s : cpu) :
  let r := fst (runTestSuite tests s) in
  results r = fst (runTests tests s) /\
  List.length (results r) = List.length tests /\
  suitePassed r + suiteFailed r = Z.of_nat (List.length tests) /\
  0 <= suitePassed r /\ 0 <= suiteFailed r.
Proof.
  cbv zeta. unfold runTestSuite.
  pose proof (runTests_length tests s) as L.
  destruct (runTests tests s) as [rs s1]. cbn [fst results suitePassed suiteFailed] in *.
  pose proof (filter_partition_length passed rs) as P.
  repeat match goal with |- _ /\ _ => split end; try reflexivity; try lia.
Qed.

End R330.

(** * Release r211225.235 *)

Section R235.
Import MoseR235.

Lemma r235_byte_ok_read (s : cpu) (a : Z) : byte_ok (read s a).
Proof. apply byte_ok_land. Qed.

(** ** Frame lemmas *)

Lemma calm_refl s : steady s s.
Proof. unfold steady. repeat split; lia. Qed.

Lemma calm_trans s t u : steady s t -> steady t u -> steady s u.
Proof.
  unfold steady. intros (a1 & a2 & a3) (b1 & b2 & b3).
  repeat split; congruence || lia.
Qed.

Ltac setter_calm := intros; unfold steady; cbn; repeat split; lia.

Lemma calm_set_rA v s : steady s (set_rA v s).
Proof. setter_calm. Qed.
Lemma calm_set_rX v s : steady s (set_rX v s).
Proof. setter_calm. Qed.
Lemma calm_set_rY v s : steady s (set_rY v s).
Proof. setter_calm. Qed.
Lemma calm_set_rPC v s : steady s (set_rPC v s).
Proof. setter_calm. Qed.
Lemma calm_set_rS v s : steady s (set_rS v s).
Proof. setter_calm. Qed.
Lemma calm_set_fC v s : steady s (set_fC v s).
Proof. setter_calm. Qed.
Lemma calm_set_fZ v s : steady s (set_fZ v s).
Proof. setter_calm. Qed.
Lemma calm_set_fI v s : steady s (set_fI v s).
Proof. setter_calm. Qed.
Lemma calm_set_fD v s : steady s (set_fD v s).
Proof. setter_calm. Qed.
Lemma calm_set_fB v s : steady s (set_fB v s).
Proof. setter_calm. Qed.
Lemma calm_set_fV v s : steady s (set_fV v s).
Proof. setter_calm. Qed.
Lemma calm_set_fN v s : steady s (set_fN v s).
Proof. setter_calm. Qed.
Lemma calm_set_pageCrossed v s : steady s (set_pageCrossed v s).
Proof. setter_calm. Qed.
Lemma calm_set_memory v s : steady s (set_memory v s).
Proof. setter_calm. Qed.
Lemma calm_cycles_inc s : steady s (set_cycles (cycles s + 1) s).
Proof. setter_calm. Qed.

Create HintDb calm discriminated.
#[local] Hint Constants Opaque : calm.
#[local] Hint Resolve calm_set_rA calm_set_rX calm_set_rY calm_set_rPC calm_set_rS calm_set_fC calm_set_fZ calm_set_fI calm_set_fD calm_set_fB calm_set_fV calm_set_fN calm_set_pageCrossed calm_set_memory calm_cycles_inc : calm.

Lemma calm_write a v s : steady s (write a v s).
Proof. unfold write. apply calm_set_memory. Qed.
#[local] Hint Resolve calm_write : calm.

Ltac peel_calm :=
  lazymatch goal with
  | |- steady ?s ?s => apply calm_refl
  | |- steady ?s (if ?c then _ else _) => destruct c
  | |- steady ?s (?f ?v ?t) =>
      apply (calm_trans s t); [ | solve [ auto with calm ] ]
  | |- steady ?s (?f ?t) =>
      apply (calm_trans s t); [ | solve [ auto with calm ] ]
  end.

Tactic Notation "op_calm" constr(f) :=
  intros; cbv beta iota zeta delta [f pop fst snd]; repeat peel_calm.

Tactic Notation "arg_calm" constr(f) :=
  intros;
  cbv beta iota zeta delta [f imm absAddr pcPostInc fetch fst snd];
  repeat peel_calm.

Lemma calm_setZN v s : steady s (setZN v s).
Proof. op_calm setZN. Qed.
#[local] Hint Resolve calm_setZN : calm.
Lemma calm_setStatus v s : steady s (setStatus v s).
Proof. op_calm setStatus. Qed.
Lemma calm_push v s : steady s (push v s).
Proof. op_calm push. Qed.
Lemma calm_compare r v s : steady s (compare r v s).
Proof. op_calm compare. Qed.
Lemma calm_takeBranch a s : steady s (takeBranch a s).
Proof. op_calm takeBranch. Qed.
#[local] Hint Resolve calm_setStatus calm_push calm_compare calm_takeBranch : calm.

Lemma calm_BRK s : steady s (BRK s).
Proof. op_calm BRK. Qed.
#[local] Hint Resolve calm_BRK : calm.
Lemma calm_NOP s : steady s (NOP s).
Proof. op_calm NOP. Qed.
#[local] Hint Resolve calm_NOP : calm.
Lemma calm_TAX s : steady s (TAX s).
Proof. op_calm TAX. Qed.
#[local] Hint Resolve calm_TAX : calm.
Lemma calm_TXA s : steady s (TXA s).
Proof. op_calm TXA. Qed.
#[local] Hint Resolve calm_TXA : calm.
Lemma calm_TAY s : steady s (TAY s).
Proof. op_calm TAY. Qed.
#[local] Hint Resolve calm_TAY : calm.
Lemma calm_TYA s : steady s (TYA s).
Proof. op_calm TYA. Qed.
#[local] Hint Resolve calm_TYA : calm.
Lemma calm_TSX s : steady s (TSX s).
Proof. op_calm TSX. Qed.
#[local] Hint Resolve calm_TSX : calm.
Lemma calm_TXS s : steady s (TXS s).
Proof. op_calm TXS. Qed.
#[local] Hint Resolve calm_TXS : calm.
Lemma calm_PHA s : steady s (PHA s).
Proof. op_calm PHA. Qed.
#[local] Hint Resolve calm_PHA : calm.
Lemma calm_PLA s : steady s (PLA s).
Proof. op_calm PLA. Qed.
#[local] Hint Resolve calm_PLA : calm.
Lemma calm_PHP s : steady s (PHP s).
Proof. op_calm PHP. Qed.
#[local] Hint Resolve calm_PHP : calm.
Lemma calm_PLP s : steady s (PLP s).
Proof. op_calm PLP. Qed.
#[local] Hint Resolve calm_PLP : calm.
Lemma calm_INX s : steady s (INX s).
Proof. op_calm INX. Qed.
#[local] Hint Resolve calm_INX : calm.
Lemma calm_DEX s : steady s (DEX s).
Proof. op_calm DEX. Qed.
#[local] Hint Resolve calm_DEX : calm.
Lemma calm_INY s : steady s (INY s).
Proof. op_calm INY. Qed.
#[local] Hint Resolve calm_INY : calm.
Lemma calm_DEY s : steady s (DEY s).
Proof. op_calm DEY. Qed.
#[local] Hint Resolve calm_DEY : calm.
Lemma calm_CLC s : steady s (CLC s).
Proof. op_calm CLC. Qed.
#[local] Hint Resolve calm_CLC : calm.
Lemma calm_SEC s : steady s (SEC s).
Proof. op_calm SEC. Qed.
#[local] Hint Resolve calm_SEC : calm.
Lemma calm_CLI s : steady s (CLI s).
Proof. op_calm CLI. Qed.
#[local] Hint Resolve calm_CLI : calm.
Lemma calm_SEI s : steady s (SEI s).
Proof. op_calm SEI. Qed.
#[local] Hint Resolve calm_SEI : calm.
Lemma calm_CLV s : steady s (CLV s).
Proof. op_calm CLV. Qed.
#[local] Hint Resolve calm_CLV : calm.
Lemma calm_CLD s : steady s (CLD s).
Proof. op_calm CLD. Qed.
#[local] Hint Resolve calm_CLD : calm.
Lemma calm_SED s : steady s (SED s).
Proof. op_calm SED. Qed.
#[local] Hint Resolve calm_SED : calm.
Lemma calm_RTS s : steady s (RTS s).
Proof. op_calm RTS. Qed.
#[local] Hint Resolve calm_RTS : calm.
Lemma calm_RTI s : steady s (RTI s).
Proof. op_calm RTI. Qed.
#[local] Hint Resolve calm_RTI : calm.
Lemma calm_ASL_A s : steady s (ASL_A s).
Proof. op_calm ASL_A. Qed.
#[local] Hint Resolve calm_ASL_A : calm.
Lemma calm_LSR_A s : steady s (LSR_A s).
Proof. op_calm LSR_A. Qed.
#[local] Hint Resolve calm_LSR_A : calm.
Lemma calm_ROL_A s : steady s (ROL_A s).
Proof. op_calm ROL_A. Qed.
#[local] Hint Resolve calm_ROL_A : calm.
Lemma calm_ROR_A s : steady s (ROR_A s).
Proof. op_calm ROR_A. Qed.
#[local] Hint Resolve calm_ROR_A : calm.
Lemma calm_LDA v s : steady s (LDA v s).
Proof. op_calm LDA. Qed.
#[local] Hint Resolve calm_LDA : calm.
Lemma calm_STA v s : steady s (STA v s).
Proof. op_calm STA. Qed.
#[local] Hint Resolve calm_STA : calm.
Lemma calm_LDX v s : steady s (LDX v s).
Proof. op_calm LDX. Qed.
#[local] Hint Resolve calm_LDX : calm.
Lemma calm_STX v s : steady s (STX v s).
Proof. op_calm STX. Qed.
#[local] Hint Resolve calm_STX : calm.
Lemma calm_LDY v s : steady s (LDY v s).
Proof. op_calm LDY. Qed.
#[local] Hint Resolve calm_LDY : calm.
Lemma calm_STY v s : steady s (STY v s).
Proof. op_calm STY. Qed.
#[local] Hint Resolve calm_STY : calm.
Lemma calm_INC v s : steady s (INC v s).
Proof. op_calm INC. Qed.
#[local] Hint Resolve calm_INC : calm.
Lemma calm_DEC v s : steady s (DEC v s).
Proof. op_calm DEC. Qed.
#[local] Hint Resolve calm_DEC : calm.
Lemma calm_JMP v s : steady s (JMP v s).
Proof. op_calm JMP. Qed.
#[local] Hint Resolve calm_JMP : calm.
Lemma calm_JSR v s : steady s (JSR v s).
Proof. op_calm JSR. Qed.
#[local] Hint Resolve calm_JSR : calm.
Lemma calm_ADC v s : steady s (ADC v s).
Proof. op_calm ADC. Qed.
#[local] Hint Resolve calm_ADC : calm.
Lemma calm_SBC v s : steady s (SBC v s).
Proof. op_calm SBC. Qed.
#[local] Hint Resolve calm_SBC : calm.
Lemma calm_AND v s : steady s (AND v s).
Proof. op_calm AND. Qed.
#[local] Hint Resolve calm_AND : calm.
Lemma calm_ORA v s : steady s (ORA v s).
Proof. op_calm ORA. Qed.
#[local] Hint Resolve calm_ORA : calm.
Lemma calm_EOR v s : steady s (EOR v s).
Proof. op_calm EOR. Qed.
#[local] Hint Resolve calm_EOR : calm.
Lemma calm_CMP v s : steady s (CMP v s).
Proof. op_calm CMP. Qed.
#[local] Hint Resolve calm_CMP : calm.
Lemma calm_CPX v s : steady s (CPX v s).
Proof. op_calm CPX. Qed.
#[local] Hint Resolve calm_CPX : calm.
Lemma calm_CPY v s : steady s (CPY v s).
Proof. op_calm CPY. Qed.
#[local] Hint Resolve calm_CPY : calm.
Lemma calm_BIT v s : steady s (BIT v s).
Proof. op_calm BIT. Qed.
#[local] Hint Resolve calm_BIT : calm.
Lemma calm_ASL v s : steady s (ASL v s).
Proof. op_calm ASL. Qed.
#[local] Hint Resolve calm_ASL : calm.
Lemma calm_LSR v s : steady s (LSR v s).
Proof. op_calm LSR. Qed.
#[local] Hint Resolve calm_LSR : calm.
Lemma calm_ROL v s : steady s (ROL v s).
Proof. op_calm ROL. Qed.
#[local] Hint Resolve calm_ROL : calm.
Lemma calm_ROR v s : steady s (ROR v s).
Proof. op_calm ROR. Qed.
#[local] Hint Resolve calm_ROR : calm.
Lemma calm_LAX v s : steady s (LAX v s).
Proof. op_calm LAX. Qed.
#[local] Hint Resolve calm_LAX : calm.
Lemma calm_SAX v s : steady s (SAX v s).
Proof. op_calm SAX. Qed.
#[local] Hint Resolve calm_SAX : calm.
Lemma calm_DCP v s : steady s (DCP v s).
Proof. op_calm DCP. Qed.
#[local] Hint Resolve calm_DCP : calm.
Lemma calm_ISC v s : steady s (ISC v s).
Proof. op_calm ISC. Qed.
#[local] Hint Resolve calm_ISC : calm.
Lemma calm_SLO v s : steady s (SLO v s).
Proof. op_calm SLO. Qed.
#[local] Hint Resolve calm_SLO : calm.
Lemma calm_RLA v s : steady s (RLA v s).
Proof. op_calm RLA. Qed.
#[local] Hint Resolve calm_RLA : calm.
Lemma calm_SRE v s : steady s (SRE v s).
Proof. op_calm SRE. Qed.
#[local] Hint Resolve calm_SRE : calm.
Lemma calm_RRA v s : steady s (RRA v s).
Proof. op_calm RRA. Qed.
#[local] Hint Resolve calm_RRA : calm.
Lemma calm_BCC v s : steady s (BCC v s).
Proof. op_calm BCC. Qed.
#[local] Hint Resolve calm_BCC : calm.
Lemma calm_BCS v s : steady s (BCS v s).
Proof. op_calm BCS. Qed.
#[local] Hint Resolve calm_BCS : calm.
Lemma calm_BEQ v s : steady s (BEQ v s).
Proof. op_calm BEQ. Qed.
#[local] Hint Resolve calm_BEQ : calm.
Lemma calm_BNE v s : steady s (BNE v s).
Proof. op_calm BNE. Qed.
#[local] Hint Resolve calm_BNE : calm.
Lemma calm_BPL v s : steady s (BPL v s).
Proof. op_calm BPL. Qed.
#[local] Hint Resolve calm_BPL : calm.
Lemma calm_BMI v s : steady s (BMI v s).
Proof. op_calm BMI. Qed.
#[local] Hint Resolve calm_BMI : calm.
Lemma calm_BVC v s : steady s (BVC v s).
Proof. op_calm BVC. Qed.
#[local] Hint Resolve calm_BVC : calm.
Lemma calm_BVS v s : steady s (BVS v s).
Proof. op_calm BVS. Qed.
#[local] Hint Resolve calm_BVS : calm.

(** The operand expressions move PC and set [pageCrossed]. *)
Lemma calm_fetch s : steady s (snd (fetch s)).
Proof. arg_calm fetch. Qed.
#[local] Hint Resolve calm_fetch : calm.
Lemma calm_imm s : steady s (snd (imm s)).
Proof. arg_calm imm. Qed.
#[local] Hint Resolve calm_imm : calm.
Lemma calm_zp s : steady s (snd (zp s)).
Proof. arg_calm zp. Qed.
#[local] Hint Resolve calm_zp : calm.
Lemma calm_zpx s : steady s (snd (zpx s)).
Proof. arg_calm zpx. Qed.
#[local] Hint Resolve calm_zpx : calm.
Lemma calm_zpy s : steady s (snd (zpy s)).
Proof. arg_calm zpy. Qed.
#[local] Hint Resolve calm_zpy : calm.
Lemma calm_abs s : steady s (snd (abs s)).
Proof. arg_calm abs. Qed.
#[local] Hint Resolve calm_abs : calm.
Lemma calm_absAddr s : steady s (snd (absAddr s)).
Proof. arg_calm absAddr. Qed.
#[local] Hint Resolve calm_absAddr : calm.
Lemma calm_absXAddr s : steady s (snd (absXAddr s)).
Proof. arg_calm absXAddr. Qed.
#[local] Hint Resolve calm_absXAddr : calm.
Lemma calm_absYAddr s : steady s (snd (absYAddr s)).
Proof. arg_calm absYAddr. Qed.
#[local] Hint Resolve calm_absYAddr : calm.
Lemma calm_ind s : steady s (snd (ind s)).
Proof. arg_calm ind. Qed.
#[local] Hint Resolve calm_ind : calm.
Lemma calm_indx s : steady s (snd (indx s)).
Proof. arg_calm indx. Qed.
#[local] Hint Resolve calm_indx : calm.
Lemma calm_indy s : steady s (snd (indy s)).
Proof. arg_calm indy. Qed.
#[local] Hint Resolve calm_indy : calm.
Lemma calm_rel s : steady s (snd (rel s)).
Proof. arg_calm rel. Qed.
#[local] Hint Resolve calm_rel : calm.
Lemma calm_zpAddrMasked s : steady s (snd (zpAddrMasked s)).
Proof. arg_calm zpAddrMasked. Qed.
#[local] Hint Resolve calm_zpAddrMasked : calm.
Lemma calm_zpxAddr s : steady s (snd (zpxAddr s)).
Proof. arg_calm zpxAddr. Qed.
#[local] Hint Resolve calm_zpxAddr : calm.
Lemma calm_zpyAddr s : steady s (snd (zpyAddr s)).
Proof. arg_calm zpyAddr. Qed.
#[local] Hint Resolve calm_zpyAddr : calm.
Lemma calm_pcPostInc s : steady s (snd (pcPostInc s)).
Proof. arg_calm pcPostInc. Qed.
#[local] Hint Resolve calm_pcPostInc : calm.
Lemma calm_pcAdd2 s : steady s (snd (pcAdd2 s)).
Proof. arg_calm pcAdd2. Qed.
#[local] Hint Resolve calm_pcAdd2 : calm.

Lemma calm_readAt m s : steady s (snd (m s)) -> steady s (snd (readAt m s)).
Proof. unfold readAt. destruct (m s). exact (fun H => H). Qed.

Lemma exec_KIL_calm s : steady s (exec KIL s).
Proof. op_calm exec. Qed.

Lemma exec_Implied_calm f :
  (forall s, steady s (f s)) -> forall s, steady s (exec (Implied f) s).
Proof. intros H s. apply H. Qed.

Lemma exec_With_calm e f :
  (forall s, steady s (snd (e s))) -> (forall v s, steady s (f v s)) ->
  forall s, steady s (exec (With e f) s).
Proof.
  intros He Hf s. unfold exec. specialize (He s).
  destruct (e s) as [x s1]. cbn [snd] in He.
  eapply calm_trans; [ exact He | apply Hf ].
Qed.

Lemma exec_Skip_calm e :
  (forall s, steady s (snd (e s))) -> forall s, steady s (exec (Skip e) s).
Proof.
  intros He s. unfold exec, NOP. specialize (He s).
  destruct (e s) as [x s1]. exact He.
Qed.

Ltac entry_calm :=
  lazymatch goal with
  | |- forall s, steady s (exec (Implied _) s) => apply exec_Implied_calm
  | |- forall s, steady s (exec (With _ _) s) => apply exec_With_calm
  | |- forall s, steady s (exec (Skip _) s) => apply exec_Skip_calm
  end;
  intros; solve [ auto with calm | apply calm_readAt; auto with calm ].

Lemma r235_assignments_calm :
  Forall (fun e => forall s, steady s (exec (snd e) s)) assignments.
Proof.
  unfold assignments.
  repeat (apply List.Forall_cons; [ cbn [snd]; entry_calm | ]).
  apply List.Forall_nil.
Qed.

Lemma r235_assigned_Forall (P : Z * instr -> Prop) (l : list (Z * instr)) op i :
  Forall P l -> assigned op l = Some i -> P (op, i).
Proof.
  induction 1 as [ | [k j] l Hx Hl IH ]; cbn; [ discriminate | ].
  destruct (assigned op l) as [j' | ].
  - intros E. injection E as <-. apply IH. reflexivity.
  - destruct (k =? op) eqn:Ek; [ | discriminate ].
    intros E. injection E as <-. apply Z.eqb_eq in Ek. subst k. exact Hx.
Qed.

Lemma r235_instructionMap_calm op i :
  instructionMap op = Some i -> forall s, steady s (exec i s).
Proof.
  unfold instructionMap. destruct (_ && _); [ | discriminate ].
  destruct (assigned op assignments) as [j | ] eqn:Ea;
    intros E; injection E as <-.
  - apply (r235_assigned_Forall _ _ _ _ r235_assignments_calm Ea).
  - apply exec_KIL_calm.
Qed.

Lemma r235_cycleTable_entries :
  length cycleTable = 256%nat /\ Forall (fun c => 2 <= c) cycleTable.
Proof.
  split; [ reflexivity | ].
  apply Forall_forall. intros c Hc. apply list_elem_of_In in Hc.
  assert (H : forallb (fun c => 2 <=? c) cycleTable = true) by reflexivity.
  rewrite forallb_forall in H. apply Z.leb_le, H, Hc.
Qed.

Lemma r235_baseCycles_ge_2 (op : Z) : 2 <= baseCycles op.
Proof.
  unfold baseCycles. destruct (op <? 0); [ lia | ].
  destruct (cycleTable !! Z.to_nat op) as [c | ] eqn:E; [ | lia ].
  destruct (c =? 0); [ lia | ].
  destruct r235_cycleTable_entries as [_ H].
  rewrite Forall_forall in H. apply H. eapply list_elem_of_lookup_2, E.
Qed.

Lemma r235_instructionMap_byte (b : Z) :
  byte_ok b -> exists i, instructionMap b = Some i.
Proof.
  unfold byte_ok, instructionMap. intros H.
  replace ((0 <=? b) && (b <? 256)) with true by (symmetry; apply andb_true_iff; lia).
  eexists. reflexivity.
Qed.

(** ** One step *)

Lemma r235_step_unfold (s : cpu) :
  exists i, instructionMap (read s (rPC s)) = Some i /\
    step s =
      (cycles (penalized (exec i (fetched s))),
       set_totalCycles
         (totalCycles (penalized (exec i (fetched s))) +
          cycles (penalized (exec i (fetched s))))
         (penalized (exec i (fetched s)))).
Proof.
  destruct (r235_instructionMap_byte _ (r235_byte_ok_read s (rPC s))) as [i Hi].
  exists i. split; [ exact Hi | ].
  unfold step, fetch, pcPostInc. cbv beta iota zeta.
  change (read (set_rPC (rPC s + 1) s) (rPC s)) with (read s (rPC s)).
  change (opcode (set_pageCrossed ?b (set_opcode ?v ?t))) with v.
  change (opcode (set_cycles ?c (set_pageCrossed ?b (set_opcode ?v ?t)))) with v.
  rewrite (land_byte_id _ (r235_byte_ok_read s (rPC s))), Hi.
  reflexivity.
Qed.

Lemma calm_penalized s : steady s (penalized s).
Proof. op_calm penalized. Qed.

Lemma r235_step_accounting (s : cpu) :
  fst (step s) = cycles (snd (step s)) /\
  totalCycles (snd (step s)) = totalCycles s + fst (step s) /\
  baseCycles (read s (rPC s)) <= fst (step s) /\
  2 <= fst (step s) /\
  opcode (snd (step s)) = read s (rPC s).
Proof.
  destruct (r235_step_unfold s) as (i & Hi & E). rewrite E. cbn [fst snd].
  pose proof (calm_trans _ _ _ (r235_instructionMap_calm _ _ Hi (fetched s))
                (calm_penalized _)) as (Ht & Ho & Hc).
  remember (penalized (exec i (fetched s))) as t eqn:Et.
  pose proof (r235_baseCycles_ge_2 (read s (rPC s))) as H2.
  change (cycles (fetched s)) with (baseCycles (read s (rPC s))) in Hc.
  change (totalCycles (fetched s)) with (totalCycles s) in Ht.
  change (opcode (fetched s)) with (read s (rPC s)) in Ho.
  repeat split; cbn; congruence || lia.
Qed.

(** ** Companion of C9 *)

Lemma r235_runLoop_terminates (fuel : nat) (start target : Z) (s : cpu) :
  target - (totalCycles s - start) <= Z.of_nat fuel ->
  exists s', runLoop fuel start target s = Some s'.
Proof.
  revert s. induction fuel as [ | fuel IH ]; intros s Hf; cbn [runLoop].
  - destruct (totalCycles s - start <? target) eqn:E; [ | eexists; reflexivity ].
    apply Z.ltb_lt in E. lia.
  - destruct (totalCycles s - start <? target) eqn:E; [ | eexists; reflexivity ].
    apply Z.ltb_lt in E. apply IH.
    destruct (r235_step_accounting s) as (_ & Ht & _ & H2 & _). lia.
Qed.

Lemma r235_runLoop_done (fuel : nat) (start target : Z) (s : cpu) :
  (totalCycles s - start <? target) = false ->
  runLoop fuel start target s = Some s.
Proof. intros E. destruct fuel; cbn [runLoop]; rewrite E; reflexivity. Qed.

Lemma r235_runLoop_last_step (fuel : nat) (start target : Z) (s s' : cpu) :
  runLoop fuel start target s = Some s' -> totalCycles s - start < target ->
  target <= totalCycles s' - start /\
  exists n, let last := Nat.iter n (fun t => snd (step t)) s in
    totalCycles last - start < target /\ s' = snd (step last).
Proof.
  revert s. induction fuel as [ | fuel IH ]; intros s; cbn [runLoop];
    destruct (totalCycles s - start <? target) eqn:E; try discriminate;
    try (apply Z.ltb_ge in E; intros; lia).
  intros Hr Hlt.
  remember (snd (step s)) as t eqn:Et.
  destruct (totalCycles t - start <? target) eqn:E1.
  - apply Z.ltb_lt in E1. destruct (IH _ Hr E1) as (Hg & n & Hn).
    split; [ exact Hg | ]. exists (S n). cbv zeta in *.
    rewrite Nat.iter_succ_r, <- Et. exact Hn.
  - rewrite (r235_runLoop_done _ _ _ _ E1) in Hr.
    apply (inj Some) in Hr. subst s'.
    apply Z.ltb_ge in E1.
    split; [ exact E1 | ]. exists 0%nat. cbn [Nat.iter].
    split; [ exact Hlt | exact Et ].
Qed.

(** X29.  [runCycles] of release r211225.235 returns under the same bound, with
    the same result; here every [step] adds at least 2 cycles. *)
Theorem r235_runCycles_terminates (s : cpu) (target : Z) (fuel : nat) :
  0 < target -> (Z.to_nat target + 1 <= fuel)%nat ->
  (exists r s',
     runCycles fuel target s = Some (r, s') /\
     r = totalCycles s' - totalCycles s /\
     target <= r /\
     exists n, let last := Nat.iter n (fun t => snd (step t)) s in
       s' = snd (step last) /\
       totalCycles last < totalCycles s + target /\
       r - target < fst (step last)) /\
  (forall t, totalCycles t + 2 <= totalCycles (snd (step t))).
Proof.
  intros Hpos Hfuel. split.
  - destruct (r235_runLoop_terminates fuel (totalCycles s) target s) as [s' Hs']; [ lia | ].
    destruct (r235_runLoop_last_step _ _ _ _ _ Hs') as (Hg & n & Hlast & Es); [ lia | ].
    cbv zeta in *.
    exists (totalCycles s' - totalCycles s), s'.
    unfold runCycles. rewrite Hs'.
    split; [ reflexivity | split; [ reflexivity | split; [ lia | ] ] ].
    exists n. split; [ exact Es | split; [ lia | ] ].
    destruct (r235_step_accounting (Nat.iter n (fun t => snd (step t)) s))
      as (_ & Ht & _).
    rewrite <- Es in Ht. lia.
  - intros t. destruct (r235_step_accounting t) as (_ & Ht & _ & H2 & _). lia.
Qed.

(** ** Companion of C8 *)

Lemma r235_kil_opcodes :
  List.filter (fun op => isKIL (instructionMap op)) bytes =
  [0x02; 0x0B; 0x12; 0x22; 0x2B; 0x32; 0x42; 0x4B; 0x52; 0x62; 0x6B; 0x72;
   0x8B; 0x92; 0x93; 0x9B; 0x9C; 0x9E; 0x9F; 0xAB; 0xB2; 0xBB; 0xCB; 0xD2;
   0xEB; 0xF2].
Proof. vm_compute. reflexivity. Qed.

(** A step on an opcode without operation in release r211225.235: PC is
    put back, [opcode], [cycles] and [totalCycles] are set, and the scratch
    flag [pageCrossed] is cleared; nothing else changes. *)
Theorem r235_kil_rewinds_pc (s : cpu) (op : Z) :
  0 <= rPC s <= 0xFFFF ->
  read s (rPC s) = op -> instructionMap op = Some KIL ->
  step s =
    (baseCycles op,
     set_totalCycles (totalCycles s + baseCycles op)
       (set_cycles (baseCycles op) (set_pageCrossed false (set_opcode op s)))).
Proof.
  intros Hpc Hop Hk.
  destruct (r235_step_unfold s) as (i & Hi & E).
  rewrite Hop, Hk in Hi. injection Hi as <-.
  rewrite E. unfold exec, fetched, penalized. rewrite Hop.
  cbn [pageCrossed set_rPC set_cycles set_pageCrossed set_opcode andb].
  cbn [rPC cycles totalCycles set_rPC set_cycles set_pageCrossed set_opcode].
  replace (rPC s + 1 - 1) with (rPC s) by lia.
  rewrite (land16_id _ Hpc).
  reflexivity.
Qed.

(** ** Companion of C4 *)

Lemma r235_absXAddr_fields (s : cpu) :
  let base := word (read s (rPC s)) (read s (rPC s + 1)) in
  let addr := Z.land (base + rX s) 0xFFFF in
  fst (absXAddr s) = addr /\
  pageCrossed (snd (absXAddr s)) = checkPageCross base addr /\
  cycles (snd (absXAddr s)) = cycles s /\
  opcode (snd (absXAddr s)) = opcode s /\
  memory (snd (absXAddr s)) = memory s.
Proof. cbv zeta. unfold absXAddr, absAddr, fetch, pcPostInc. repeat split. Qed.

Lemma r235_LDA_fields (v : Z) (s : cpu) :
  cycles (LDA v s) = cycles s /\ opcode (LDA v s) = opcode s /\
  pageCrossed (LDA v s) = pageCrossed s.
Proof. unfold LDA, setZN. repeat split. Qed.

Lemma r235_STA_fields (a : Z) (s : cpu) :
  cycles (STA a s) = cycles s /\ opcode (STA a s) = opcode s /\
  pageCrossed (STA a s) = pageCrossed s.
Proof. unfold STA, write. repeat split. Qed.

Lemma r235_penalized_cycles (s : cpu) :
  cycles (penalized s) =
  cycles s + (if pageCrossed s && needsPageCrossPenalty (opcode s) then 1 else 0).
Proof. unfold penalized. destruct (_ && _); cbn [cycles set_cycles]; lia. Qed.

(** In release r211225.235 the penalty is decided after the closure, from
    [pageCrossed] and the set in [needsPageCrossPenalty]: 0xBD is in the
    set, 0x9D is not, so the costs are those of C4. *)
Theorem r235_absx_read_penalty_store_none (s : cpu) :
  let base := word (read s (rPC s + 1)) (read s (rPC s + 2)) in
  let addr := Z.land (base + rX s) 0xFFFF in
  let crossed := checkPageCross base addr in
  (read s (rPC s) = 0xBD ->
     fst (step s) = baseCycles 0xBD + (if crossed then 1 else 0)) /\
  (read s (rPC s) = 0x9D -> fst (step s) = baseCycles 0x9D) /\
  baseCycles 0xBD = 4 /\ baseCycles 0x9D = 5 /\
  needsPageCrossPenalty 0xBD = true /\ needsPageCrossPenalty 0x9D = false.
Proof.
  cbv zeta. replace (rPC s + 2) with (rPC s + 1 + 1) by lia.
  destruct (r235_step_unfold s) as (i & Hi & E). rewrite E. cbn [fst].
  rewrite r235_penalized_cycles.
  destruct (r235_absXAddr_fields (fetched s)) as (Aa & Ap & Ac & Ao & _).
  cbv zeta in Aa, Ap.
  change (rPC (fetched s)) with (rPC s + 1) in Aa, Ap.
  change (rX (fetched s)) with (rX s) in Aa, Ap.
  change (read (fetched s)) with (read s) in Aa, Ap.
  change (cycles (fetched s)) with (baseCycles (read s (rPC s))) in Ac.
  change (opcode (fetched s)) with (read s (rPC s)) in Ao.
  remember (fetched s) as s1 eqn:E1.
  split; [ | split; [ | repeat split ] ].
  - intros Hop. rewrite Hop in Hi, Ac, Ao.
    assert (Ei : i = With (readAt absXAddr) LDA)
      by (change (instructionMap 189) with (Some (With (readAt absXAddr) LDA)) in Hi;
          congruence).
    rewrite Ei. unfold exec, readAt.
    destruct (absXAddr s1) as [a s2]. cbn [fst snd] in Aa, Ap, Ac, Ao.
    destruct (r235_LDA_fields (read s2 a) s2) as (Lc & Lo & Lp).
    rewrite Lc, Lo, Lp, Ac, Ao, Ap.
    change (needsPageCrossPenalty 189) with true. rewrite andb_true_r.
    reflexivity.
  - intros Hop. rewrite Hop in Hi, Ac, Ao.
    assert (Ei : i = With absXAddr STA)
      by (change (instructionMap 157) with (Some (With absXAddr STA)) in Hi;
          congruence).
    rewrite Ei. unfold exec.
    destruct (absXAddr s1) as [a s2]. cbn [fst snd] in Aa, Ap, Ac, Ao.
    destruct (r235_STA_fields a s2) as (Lc & Lo & Lp).
    rewrite Lc, Lo, Lp, Ac, Ao.
    change (needsPageCrossPenalty 157) with false. rewrite andb_false_r. lia.
Qed.

(** ** Companion of C6 *)

Theorem r235_status_round_trip (s : cpu) :
  flags_ok s ->
  setStatus (getStatus s) s = s /\ Z.testbit (getStatus s) 5 = true.
Proof.
  destruct s; unfold flags_ok, flag_ok; cbn.
  intros (HC & HZ & HI & HD & HB & HV & HN).
  destruct HC, HZ, HI, HD, HB, HV, HN; subst; split; reflexivity.
Qed.

(** ** Companion of C7 *)

(** The same fetch leaves PC at 0x10000 in release r211225.235. *)
Theorem r235_pc_leaves_16_bits :
  in_width pcAtTop /\ rPC (snd (step pcAtTop)) = 0x10000.
Proof.
  split; [ | vm_compute; reflexivity ].
  unfold in_width, flags_ok, byte_ok, flag_ok.
  repeat match goal with |- _ /\ _ => split end;
    try (left; vm_compute; reflexivity);
    apply Z.leb_le; vm_compute; reflexivity.
Qed.

(** ** Where release r211225.235 differs: C3, C5, C2 *)

Lemma r235_wrapped_high_address (lo hi : Z) :
  byte_ok lo -> byte_ok hi ->
  Z.land (word lo hi) 0xFF = 0xFF ->
  Z.lor (Z.land (word lo hi) 0xFF00) (Z.land (word lo hi + 1) 0xFF)
  = Z.land (word lo hi) 0xFF00.
Proof.
  intros Hlo Hhi.
  assert (H : implb (Z.land (word lo hi) 0xFF =? 0xFF)
                (Z.lor (Z.land (word lo hi) 0xFF00) (Z.land (word lo hi + 1) 0xFF)
                 =? Z.land (word lo hi) 0xFF00) = true).
  { revert lo hi Hlo Hhi. refine (all_bytes2 _ _). vm_compute. reflexivity. }
  intros E. apply Z.eqb_eq in E. rewrite E in H. cbn [implb] in H.
  apply Z.eqb_eq in H. exact H.
Qed.

(** X30.  There is no switch: the indirect JMP of release r211225.235 always
    reads the high byte from the pointer's own page. *)
Lemma r235_ind_always_wraps (s : cpu) :
  let ptr := word (read s (rPC s)) (read s (rPC s + 1)) in
  Z.land ptr 0xFF = 0xFF ->
  fst (ind s) = word (read s ptr) (read s (Z.land ptr 0xFF00)).
Proof.
  cbv zeta. intros Hlow. unfold ind, fetch, pcPostInc. cbv zeta. cbn [fst snd].
  repeat change (rPC (set_rPC ?v ?t)) with v.
  repeat change (read (set_rPC ?v ?t)) with (read t).
  rewrite (r235_wrapped_high_address _ _ (r235_byte_ok_read _ _)
             (r235_byte_ok_read _ _) Hlow).
  reflexivity.
Qed.

(** Outside the array a read yields 0, not 0xFF; a write is dropped. *)
Lemma outside_backing_235 (s : cpu) (addr : Z) :
  Z.of_nat (length (memory s)) <= Z.land addr 0xFFFF ->
  read s addr = 0 /\ forall val, write addr val s = s.
Proof.
  intros H. pose proof (land16_nonneg addr) as Hn.
  assert (Hi : (length (memory s) <= Z.to_nat (Z.land addr 0xFFFF))%nat) by lia.
  split.
  - unfold read. rewrite (lookup_ge_None_2 _ _ Hi). reflexivity.
  - intros val. unfold write. rewrite (list_insert_ge _ _ _ Hi).
    destruct s. reflexivity.
Qed.

(** ADC has no decimal mode: whatever D holds, it leaves the binary sum. *)
Lemma adc_binary_235 (s : cpu) (v : Z) :
  byte_ok (rA s) -> byte_ok v ->
  let sum := rA s + v + b2z (truthy (fC s)) in
  rA (ADC v s) = sum mod 256 /\ fC (ADC v s) = b2z (sum >? 0xFF) /\
  fD (ADC v s) = fD s.
Proof.
  intros Ha Hv. cbv zeta. unfold ADC, setZN. cbv zeta.
  cbn [rA fC fD set_fC set_fV set_rA set_fZ set_fN].
  rewrite (land_byte_id v Hv).
  change (Z.land ?x 255) with (Z.land x (Z.ones 8)).
  rewrite Z.land_ones by lia. repeat split.
Qed.

(** C2 fails on release r211225.235: in decimal mode, 9 plus 1 is 0x0A. *)
Lemma C2_r235_adc_ignores_decimal_mode :
  fD decimalNine = 1 /\ fC decimalNine = 0 /\ rA decimalNine = 0x09 /\
  rA (ADC 0x01 decimalNine) = 0x0A /\ rA (ADC 0x01 decimalNine) <> 0x10.
Proof.
  repeat match goal with |- _ /\ _ => split end;
    try (vm_compute; reflexivity).
  apply Z.eqb_neq. vm_compute. reflexivity.
Qed.

(** C5 fails on release r211225.235: a 4 KB machine reads 0 at 0x2000. *)
Lemma C5_r235_reads_zero_outside :
  Z.of_nat (length (memory (MOSE 0x1000))) <= Z.land 0x2000 0xFFFF /\
  read (MOSE 0x1000) 0x2000 = 0 /\ read (MOSE 0x1000) 0x2000 <> 0xFF.
Proof.
  split; [ apply Z.leb_le; vm_compute; reflexivity | ].
  split; [ vm_compute; reflexivity | apply Z.eqb_neq; vm_compute; reflexivity ].
Qed.

(** ** Concrete runs of release r211225.235 *)

Lemma r235_runCycles_terminates_witness :
  0 < 10 /\ (Z.to_nat 10 + 1 <= 11)%nat /\
  exists r s', runCycles 11 10 (MOSE 0x1000) = Some (r, s') /\ 10 <= r.
Proof.
  assert (H1 : 0 < 10) by reflexivity.
  assert (H2 : (Z.to_nat 10 + 1 <= 11)%nat) by (apply Nat.leb_le; reflexivity).
  split; [ exact H1 | split; [ exact H2 | ] ].
  destruct (r235_runCycles_terminates (MOSE 0x1000) 10 11 H1 H2)
    as ((r & s' & Hr & _ & Hge & _) & _).
  exists r, s'. split; assumption.
Defined.

Lemma r235_kil_rewinds_pc_witness :
  (0 <= rPC (set_rPC 0x0600 (write 0x0600 0x02 (MOSE 0x1000))) <= 0xFFFF /\
   read (set_rPC 0x0600 (write 0x0600 0x02 (MOSE 0x1000)))
     (rPC (set_rPC 0x0600 (write 0x0600 0x02 (MOSE 0x1000)))) = 0x02 /\
   instructionMap 0x02 = Some KIL) /\
  rPC (snd (step (set_rPC 0x0600 (write 0x0600 0x02 (MOSE 0x1000))))) = 0x0600 /\
  fst (step (set_rPC 0x0600 (write 0x0600 0x02 (MOSE 0x1000)))) = 2.
Proof.
  assert (Hpc : 0 <= rPC (set_rPC 0x0600 (write 0x0600 0x02 (MOSE 0x1000))) <= 0xFFFF)
    by (split; apply Z.leb_le; vm_compute; reflexivity).
  assert (Hop : read (set_rPC 0x0600 (write 0x0600 0x02 (MOSE 0x1000)))
                  (rPC (set_rPC 0x0600 (write 0x0600 0x02 (MOSE 0x1000)))) = 0x02)
    by (vm_compute; reflexivity).
  assert (Hk : instructionMap 0x02 = Some KIL) by reflexivity.
  split; [ split; [ exact Hpc | split; [ exact Hop | exact Hk ] ] | ].
  rewrite (r235_kil_rewinds_pc _ 0x02 Hpc Hop Hk).
  split; reflexivity.
Defined.

Lemma r235_status_round_trip_witness :
  flags_ok (MOSE 0x1000) /\
  setStatus (getStatus (MOSE 0x1000)) (MOSE 0x1000) = MOSE 0x1000 /\
  Z.testbit (getStatus (MOSE 0x1000)) 5 = true.
Proof.
  assert (H : flags_ok (MOSE 0x1000)).
  { unfold flags_ok, flag_ok. repeat split; left; reflexivity. }
  split; [ exact H | exact (r235_status_round_trip (MOSE 0x1000) H) ].
Defined.

Lemma r235_ind_always_wraps_witness :
  Z.land (word (read (write 0x1100 0x56 (write 0x1000 0x12 (write 0x10FF 0x34
                        (load 0x0600 [0xFF; 0x10] (set_rPC 0x0600 (MOSE 0x2000))))))
                  0x0600)
               (read (write 0x1100 0x56 (write 0x1000 0x12 (write 0x10FF 0x34
                        (load 0x0600 [0xFF; 0x10] (set_rPC 0x0600 (MOSE 0x2000))))))
                  (0x0600 + 1)))
         0xFF = 0xFF /\
  fst (ind (write 0x1100 0x56 (write 0x1000 0x12 (write 0x10FF 0x34
              (load 0x0600 [0xFF; 0x10] (set_rPC 0x0600 (MOSE 0x2000)))))))
  = 0x1234.
Proof.
  assert (H : Z.land (word (read (write 0x1100 0x56 (write 0x1000 0x12 (write 0x10FF 0x34
                        (load 0x0600 [0xFF; 0x10] (set_rPC 0x0600 (MOSE 0x2000))))))
                  0x0600)
               (read (write 0x1100 0x56 (write 0x1000 0x12 (write 0x10FF 0x34
                        (load 0x0600 [0xFF; 0x10] (set_rPC 0x0600 (MOSE 0x2000))))))
                  (0x0600 + 1)))
         0xFF = 0xFF) by (vm_compute; reflexivity).
  split; [ exact H | ].
  etransitivity;
    [ exact (r235_ind_always_wraps
               (write 0x1100 0x56 (write 0x1000 0x12 (write 0x10FF 0x34
                  (load 0x0600 [0xFF; 0x10] (set_rPC 0x0600 (MOSE 0x2000)))))) H)
    | vm_compute; reflexivity ].
Defined.

(** ** ORA, AND, EOR and ADC with (zp),Y *)




End R235.

(** * The two releases side by side (claims C2 and C5) *)

(** C2, amended.  In release 010426.330 decimal-mode ADC adds 6 to a
    nibble sum above 9, carries from the low nibble into the high one,
    takes C from the corrected high nibble and Z and N from the binary
    8-bit sum; so 0x09 plus 0x01 with carry clear leaves A = 0x10 and
    C = 0.  Release r211225.235 has no decimal mode: from the same
    accumulator, operand and carry its ADC leaves the binary sum. *)
Theorem C2_decimal_adc (s : Mose.cpu) (v : Z) :
  Mose.fD s <> 0 -> byte_ok (Mose.rA s) -> byte_ok v ->
  let c := b2z (truthy (Mose.fC s)) in
  let lo := Mose.rA s mod 16 + v mod 16 + c in
  let lo' := if lo >? 9 then lo + 6 else lo in
  let hi := Mose.rA s / 16 + v / 16 + (if lo >? 9 then 1 else 0) in
  let hi' := if hi >? 9 then hi + 6 else hi in
  let bin := (Mose.rA s + v + c) mod 256 in
  let s' := Mose.ADC v s in
  (Mose.rA s' = (hi' mod 16) * 16 + lo' mod 16 /\
   Mose.fC s' = b2z (hi' >? 15) /\
   Mose.fZ s' = b2z (bin =? 0) /\
   Mose.fN s' = b2z (128 <=? bin)) /\
  (Mose.rA s = 0x09 -> v = 0x01 -> c = 0 ->
   Mose.rA s' = 0x10 /\ Mose.fC s' = 0) /\
  (forall s0 : MoseR235.cpu,
     MoseR235.rA s0 = Mose.rA s -> MoseR235.fC s0 = Mose.fC s ->
     MoseR235.rA (MoseR235.ADC v s0) = bin /\
     MoseR235.fC (MoseR235.ADC v s0) = b2z (Mose.rA s + v + c >? 0xFF)).
Proof.
  intros HD Ha Hv. cbv zeta.
  destruct (adc_decimal_330 s v HD Ha Hv) as ((EA & EC & EZ & EN) & _).
  cbv zeta in EA, EC, EZ, EN.
  split; [ repeat split; assumption | ].
  split.
  - intros E9 E1 E0. rewrite EA, EC, E9, E1, E0. split; reflexivity.
  - intros s0 E1 E2. rewrite <- E1 in Ha.
    destruct (adc_binary_235 s0 v Ha Hv) as (OA & OC & _).
    cbv zeta in OA, OC. rewrite OA, OC, E1, E2. split; reflexivity.
Qed.

Lemma C2_decimal_adc_witness :
  (Mose.fD Mose.decimalNine <> 0 /\ byte_ok (Mose.rA Mose.decimalNine) /\
   byte_ok 0x01) /\
  Mose.rA (Mose.ADC 0x01 Mose.decimalNine) = 0x10 /\
  Mose.fC (Mose.ADC 0x01 Mose.decimalNine) = 0 /\
  MoseR235.rA (MoseR235.ADC 0x01 MoseR235.decimalNine) = 0x0A.
Proof.
  assert (HD : Mose.fD Mose.decimalNine <> 0) by discriminate.
  assert (Ha : byte_ok (Mose.rA Mose.decimalNine))
    by (split; apply Z.leb_le; reflexivity).
  assert (Hv : byte_ok 0x01) by (split; apply Z.leb_le; reflexivity).
  split; [ split; [ exact HD | split; [ exact Ha | exact Hv ] ] | ].
  destruct (C2_decimal_adc Mose.decimalNine 0x01 HD Ha Hv) as (_ & Hnew & Hold).
  destruct (Hnew eq_refl eq_refl eq_refl) as (EA & EC).
  split; [ exact EA | split; [ exact EC | ] ].
  destruct (Hold MoseR235.decimalNine eq_refl eq_refl) as (OA & _).
  exact OA.
Defined.

(** C5, amended.  An access whose masked address lies outside the backing
    array never fails.  In release 010426.330 the read yields 0xFF; in
    release r211225.235, which has no bounds test, it yields 0.  In both
    the write leaves the whole state, memory included, as it was. *)
Theorem C5_outside_backing (s : Mose.cpu) (s0 : MoseR235.cpu) (addr : Z) :
  Mose.ramLength s <= Z.land addr 0xFFFF ->
  Z.of_nat (length (MoseR235.memory s0)) <= Z.land addr 0xFFFF ->
  (Mose.read s addr = 0xFF /\ forall val, Mose.write addr val s = s) /\
  (MoseR235.read s0 addr = 0 /\ forall val, MoseR235.write addr val s0 = s0).
Proof.
  intros H H0. split.
  - exact (outside_backing_330 s addr H).
  - exact (outside_backing_235 s0 addr H0).
Qed.

Lemma C5_outside_backing_witness :
  (Mose.ramLength (Mose.mose 4) <= Z.land 0x2000 0xFFFF /\
   Z.of_nat (length (MoseR235.memory (MoseR235.MOSE 0x1000)))
     <= Z.land 0x2000 0xFFFF) /\
  Mose.read (Mose.mose 4) 0x2000 = 0xFF /\
  Mose.write 0x2000 0x42 (Mose.mose 4) = Mose.mose 4 /\
  MoseR235.read (MoseR235.MOSE 0x1000) 0x2000 = 0 /\
  MoseR235.write 0x2000 0x42 (MoseR235.MOSE 0x1000) = MoseR235.MOSE 0x1000.
Proof.
  assert (H : Mose.ramLength (Mose.mose 4) <= Z.land 0x2000 0xFFFF)
    by (apply Z.leb_le; vm_compute; reflexivity).
  assert (H0 : Z.of_nat (length (MoseR235.memory (MoseR235.MOSE 0x1000)))
               <= Z.land 0x2000 0xFFFF)
    by (apply Z.leb_le; vm_compute; reflexivity).
  split; [ split; assumption | ].
  destruct (C5_outside_backing (Mose.mose 4) (MoseR235.MOSE 0x1000) 0x2000 H H0)
    as ((R & Wr) & (R0 & Wr0)).
  split; [ exact R | split; [ exact (Wr 0x42) | ] ].
  split; [ exact R0 | exact (Wr0 0x42) ].
Defined.

(** With a target of zero or less [runCycles] takes no step at all: in
    both releases it returns 0 and leaves the machine as it was. *)
Theorem runCycles_nonpositive_target
    (s : Mose.cpu) (s0 : MoseR235.cpu) (target : Z) (fuel : nat) :
  target <= 0 ->
  Mose.runCycles fuel target s = Some (0, s) /\
  MoseR235.runCycles fuel target s0 = Some (0, s0).
Proof.
  intros H. split.
  - unfold Mose.runCycles. cbv zeta.
    assert (E : Mose.runLoop fuel (Mose.totalCycles s + target) s = Some s).
    { destruct fuel; cbn [Mose.runLoop];
        replace (Mose.totalCycles s <? Mose.totalCycles s + target) with false
          by (symmetry; apply Z.ltb_ge; lia); reflexivity. }
    rewrite E. f_equal. f_equal. lia.
  - unfold MoseR235.runCycles. cbv zeta.
    assert (E : MoseR235.runLoop fuel (MoseR235.totalCycles s0) target s0 = Some s0).
    { destruct fuel; cbn [MoseR235.runLoop];
        replace (MoseR235.totalCycles s0 - MoseR235.totalCycles s0 <? target) with false
          by (symmetry; apply Z.ltb_ge; lia); reflexivity. }
    rewrite E. f_equal. f_equal. lia.
Qed.

Lemma runCycles_nonpositive_target_witness :
  0 <= 0 /\
  Mose.runCycles 0 0 (Mose.mose 4) = Some (0, Mose.mose 4) /\
  MoseR235.runCycles 0 (-5) (MoseR235.MOSE 0x1000) = Some (0, MoseR235.MOSE 0x1000).
Proof.
  split; [ lia | ].
  split.
  - exact (proj1 (runCycles_nonpositive_target (Mose.mose 4) (MoseR235.MOSE 0x1000)
                    0 0%nat (Z.le_refl 0))).
  - assert (H : -5 <= 0) by lia.
    exact (proj2 (runCycles_nonpositive_target (Mose.mose 4) (MoseR235.MOSE 0x1000)
                    (-5) 0%nat H)).
Defined.


